(** * Nolu player statistics: the statistics aggregator and its callers

    A shallow embedding of the server of the Nolu stats tracker: the
    Mongoose schemas [Match] and [User], the helper [calculateUserStats]
    and the three route handlers that change an account's matches
    (POST /api/user/me/matches, DELETE /api/user/me/matches/:id and
    DELETE /api/user/me/stats); then the middleware [authenticateToken],
    the routes for signing up, logging in, the public profile, the own
    statistics, the privacy setting and the deletion of the account, and
    of the pages the stat cards, the rows of the match history and the
    form that adds a match.

    Numbers.  A JavaScript Number is an IEEE 754 binary64 value, and every
    total and ratio of a summary is modelled as one, with the operations of
    [SpecFloat] at precision 53 and maximal exponent 1024 ([+] is [SFadd],
    [/] is [SFdiv], [*] is [SFmul]).  A numeric field of a stored match
    holds a non-negative integer (the schema demands [min: 0] and the route
    stores [parseInt] of what it receives): the record keeps that integer,
    and the aggregation reads it as the Number nearest to it.  The numbers
    of a request are the Numbers that its JSON has for them; the route
    compares the two numbers of rounds with 0 as they come and then has
    [parseInt] read all six.

    Libraries.  What the server takes from Mongoose, jsonwebtoken and
    bcrypt (the cast of a string to a Date, the cast of a query, the
    validators of the User schema, signing and verifying a token, hashing
    and comparing a password) is a parameter of the routes that use it.

    The datastore.  A state is the Match collection with the User
    collection.  A call to the datastore is fulfilled or rejected; which
    calls are rejected during a request is a parameter of the routes, and a
    rejected call has written nothing. *)

From Stdlib Require Import ZArith NArith Lia Bool.
From Stdlib Require Import Floats.SpecFloat.
From Stdlib Require Import Permutation.
From Stdlib Require Import Ascii.
From stdpp Require Import gmap strings list fin_maps.

Local Open Scope Z_scope.

(** ** JavaScript Numbers *)

Module Number.

Definition prec : Z := 53.
Definition emax : Z := 1024.

Definition t := spec_float.

Definition add : t -> t -> t := SFadd prec emax.
Definition div : t -> t -> t := SFdiv prec emax.
Definition mul : t -> t -> t := SFmul prec emax.

(** [x > y] *)
Definition gt (x y : t) : bool := SFltb y x.

(** The Number nearest to the integer [z]: [z] itself when 53 bits hold
    it, Infinity when it is as large as 2^1024. *)
Definition of_Z (z : Z) : t := binary_normalize prec emax z 0 false.
Definition of_N (n : N) : t := of_Z (Z.of_N n).

(** The Number nearest to the fraction [n / d]. *)
Definition of_fraction (neg : bool) (n d : positive) : t :=
  SFdiv prec emax (S754_finite neg n 0) (S754_finite false d 0).

(** The Number a decimal literal denotes: the digits [n] with the last
    [f] of them after the point, as [literal false 105 2] for 1.05. *)
Definition literal (neg : bool) (n : positive) (f : N) : t :=
  of_fraction neg n (Z.to_pos (10 ^ Z.of_N f)).

(** The literal [0]. *)
Definition zero : t := S754_zero false.

Definition is_finite (x : t) : bool :=
  match x with
  | S754_zero _ | S754_finite _ _ _ => true
  | S754_infinity _ | S754_nan => false
  end.

Definition is_zero (x : t) : bool :=
  match x with
  | S754_zero _ => true
  | _ => false
  end.

(** The integer that a Number is, when it is one. *)
Definition to_Z (x : t) : option Z :=
  match x with
  | S754_zero _ => Some 0
  | S754_finite s m e =>
      if 0 <=? e then Some (cond_Zopp s (Z.pos m * 2 ^ e))
      else if Z.pos m mod 2 ^ (- e) =? 0
           then Some (cond_Zopp s (Z.pos m / 2 ^ (- e)))
           else None
  | S754_infinity _ | S754_nan => None
  end.

(** [10^21 <= m * 2^e], computed on integers. *)
Definition ge_1e21 (m : positive) (e : Z) : bool :=
  if 0 <=? e then 10 ^ 21 <=? Z.pos m * 2 ^ e
  else 10 ^ 21 * 2 ^ (- e) <=? Z.pos m.

(** The integer [n] for which [n / 10^f] is nearest to [m * 2^e]; of two
    such integers the larger, as Number.prototype.toFixed asks. *)
Definition scaled_digits (m : positive) (e : Z) (f : N) : Z :=
  let p := 10 ^ Z.of_N f in
  if 0 <=? e then Z.pos m * 2 ^ e * p
  else (2 * (Z.pos m * p) + 2 ^ (- e)) / (2 * 2 ^ (- e)).

(** What [toFixed] returns: a sign, the digits of an integer [n] and the
    place of the decimal point ([n / 10^f]), or, for a Number that is not
    finite or is at least 10^21, the text of that Number itself. *)
Inductive fixed_string :=
| Decimal (neg : bool) (n : Z) (f : N)
| ToString (x : t).

(** [x.toFixed(f)] *)
Definition toFixed (x : t) (f : N) : fixed_string :=
  match x with
  | S754_nan | S754_infinity _ => ToString x
  | S754_zero _ => Decimal false 0 f
  | S754_finite s m e =>
      if ge_1e21 m e then ToString x
      else Decimal s (scaled_digits m e f) f
  end.

(** [parseFloat] on the strings [toFixed] makes.  The text of a Number
    reads back as that Number. *)
Definition parseFloat (s : fixed_string) : t :=
  match s with
  | ToString x => x
  | Decimal neg n f =>
      match n with
      | Z.pos p => literal neg p f
      | _ => S754_zero neg
      end
  end.

(** [parseFloat(x.toFixed(f))] *)
Definition round_to (f : N) (x : t) : t := parseFloat (toFixed x f).

(** [x] is zero or a finite Number below [2^K] in absolute value. *)
Definition bounded_by (K : Z) (x : t) : Prop :=
  match x with
  | S754_zero _ => True
  | S754_finite _ m e => Z.pos (digits2_pos m) + e <= K
  | _ => False
  end.

(** [x] is positive and at least [2^(K-1)], possibly infinite. *)
Definition at_least (K : Z) (x : t) : Prop :=
  match x with
  | S754_infinity s => s = false
  | S754_finite s m e => s = false /\ K <= Z.pos (digits2_pos m) + e
  | _ => False
  end.

(** A mantissa with no bit shifted out of it. *)
Definition exact_rec (m : Z) : shr_record :=
  {| shr_m := m; shr_r := false; shr_s := false |}.

End Number.

(** ** parseInt of a Number *)

(** The positive Number [m * 2^e] as the fraction
    [numerator m e / denominator e]. *)
Definition numerator (m : positive) (e : Z) : Z := Z.pos m * 2 ^ Z.max 0 e.
Definition denominator (e : Z) : Z := 2 ^ Z.max 0 (- e).

(** [y <= m * 2^e] and [y = m * 2^e], for a positive Number [y]. *)
Definition value_leb (y : Number.t) (m : positive) (e : Z) : bool :=
  match y with
  | S754_finite false m' e' =>
      numerator m' e' * denominator e <=? numerator m e * denominator e'
  | _ => false
  end.

Definition value_eqb (y : Number.t) (m : positive) (e : Z) : bool :=
  match y with
  | S754_finite false m' e' =>
      numerator m' e' * denominator e =? numerator m e * denominator e'
  | _ => false
  end.

(** [m * 2^e] is the Number nearest to the fraction [n / d]: the decimal
    [n / d], read as a Number, is [m * 2^e]. *)
Definition reads_as (m : positive) (e : Z) (n d : Z) : bool :=
  match n, d with
  | Z.pos n, Z.pos d => value_eqb (Number.of_fraction false n d) m e
  | _, _ => false
  end.

(** The largest [j] from [j] on with [10^j <= num / den], and the
    smallest [k] from [k] on with [10^(-k) <= num / den]. *)
Fixpoint decade_up (fuel : nat) (num den j : Z) : Z :=
  match fuel with
  | O => j
  | S fuel' =>
      if den * 10 ^ (j + 1) <=? num then decade_up fuel' num den (j + 1) else j
  end.

Fixpoint decade_down (fuel : nat) (num den k : Z) : Z :=
  match fuel with
  | O => k
  | S fuel' =>
      if den <=? num * 10 ^ k then k else decade_down fuel' num den (k + 1)
  end.

(** The first digit of the string of the positive Number [m * 2^e].
    The string has the digits of the shortest decimal that reads as the
    Number (of several, the nearest one).  Its first digit is the first
    digit [d] of the Number itself, unless the decimal of the one digit
    [d + 1] reads as the Number too and is the shortest or the nearer
    one. *)
Definition first_digit (m : positive) (e : Z) : Z :=
  let num := numerator m e in
  let den := denominator e in
  let fuel := Z.to_nat (Z.log2 num + Z.log2 den + 1) in
  let '(a, b) :=
    if den <=? num then (10 ^ decade_up fuel num den 0, 1)
    else (1, 10 ^ decade_down fuel num den 1) in
  let d := num * b / (den * a) in
  if reads_as m e ((d + 1) * a) b
     && (negb (reads_as m e (d * a) b) || ((2 * d + 1) * (den * a) <? 2 * (num * b)))
  then (if d =? 9 then 1 else d + 1)
  else d.

(** [parseInt(x)] for a Number [x]: [x] is written as a string and the
    digits before the first character that is no digit are read; [None]
    is NaN, and a zero is given without its sign.  The string of a Number
    from 0.000001 up to, but not, 10^21 has all the digits of its integer
    part, so that the integer part is read; the string of any other
    finite Number that is not zero has one digit and then a point or the
    letter e, so that this digit is read (1e21 is read as 1 and 5e-7 as
    5); the strings NaN and Infinity have no digit to read. *)
Definition parseInt (x : Number.t) : option Z :=
  match x with
  | S754_nan | S754_infinity _ => None
  | S754_zero _ => Some 0
  | S754_finite s m e =>
      if Number.ge_1e21 m e || negb (value_leb (Number.literal false 1 6) m e)
      then Some (cond_Zopp s (first_digit m e))
      else Some (cond_Zopp s (numerator m e / denominator e))
  end.

(** ** The schemas *)

Definition ObjectId := N.
Bind Scope N_scope with ObjectId.

(** A Date: its time value. *)
Definition Date := Z.

Inductive MatchType := Ranked | Casual | Tournament | Practice.
Inductive Outcome := Win | Loss | Draw.

Definition Outcome_eqb (a b : Outcome) : bool :=
  match a, b with
  | Win, Win | Loss, Loss | Draw, Draw => true
  | _, _ => false
  end.

Module Match.

(** A stored document of [matchSchema].  A numeric field is the
    non-negative integer that passed the [min: 0] validator. *)
Record t := {
  _id : ObjectId;
  userId : ObjectId;
  date : Date;
  time : string;
  matchType : MatchType;
  outcome : Outcome;
  map : string;
  roundsWon : N;
  roundsLost : N;
  damage : N;
  kills : N;
  deaths : N;
  assists : N
}.

(** The virtual [rounds]. *)
Definition rounds (m : t) : N := (roundsWon m + roundsLost m)%N.

End Match.

Module User.

(** The eleven aggregated fields of [userSchema], all of type Number. *)
Record Stats := {
  kdRatio : Number.t;
  damagePerRound : Number.t;
  winPercentage : Number.t;
  killsPerRound : Number.t;
  wins : Number.t;
  kills : Number.t;
  deaths : Number.t;
  assists : Number.t;
  totalGames : Number.t;
  totalRounds : Number.t;
  totalDamage : Number.t
}.

Record t := {
  userId : string;
  username : string;
  password : string;
  isPublic : bool;
  stats : Stats
}.

(** Assigning the eleven fields of a document. *)
Definition set_stats (u : t) (s : Stats) : t :=
  {| userId := userId u; username := username u; password := password u;
     isPublic := isPublic u; stats := s |}.

End User.

(** ** calculateUserStats *)

(** The [let] variables that the [forEach] callback updates. *)
Record Totals := {
  totalKills : Number.t;
  totalDeaths : Number.t;
  totalAssists : Number.t;
  totalDamage : Number.t;
  totalRounds : Number.t;
  wins : Number.t
}.

Definition totals0 : Totals :=
  {| totalKills := Number.zero; totalDeaths := Number.zero;
     totalAssists := Number.zero; totalDamage := Number.zero;
     totalRounds := Number.zero; wins := Number.zero |}.

(** One call of the [forEach] callback. *)
Definition accumulate (t : Totals) (m : Match.t) : Totals :=
  {| totalKills := Number.add (totalKills t) (Number.of_N (Match.kills m));
     totalDeaths := Number.add (totalDeaths t) (Number.of_N (Match.deaths m));
     totalAssists := Number.add (totalAssists t) (Number.of_N (Match.assists m));
     totalDamage := Number.add (totalDamage t) (Number.of_N (Match.damage m));
     totalRounds :=
       Number.add (totalRounds t)
         (Number.add (Number.of_N (Match.roundsWon m)) (Number.of_N (Match.roundsLost m)));
     wins :=
       if Outcome_eqb (Match.outcome m) Win
       then Number.add (wins t) (Number.of_N 1)
       else wins t |}.

(** The derived stats and the returned object. *)
Definition derive (t : Totals) (totalGames : Number.t) : User.Stats :=
  let kdRatio :=
    if Number.gt (totalDeaths t) Number.zero
    then Number.round_to 2 (Number.div (totalKills t) (totalDeaths t))
    else totalKills t in
  let damagePerRound :=
    if Number.gt (totalRounds t) Number.zero
    then Number.round_to 0 (Number.div (totalDamage t) (totalRounds t))
    else Number.zero in
  let winPercentage :=
    Number.round_to 1 (Number.mul (Number.div (wins t) totalGames) (Number.of_N 100)) in
  let killsPerRound :=
    if Number.gt (totalRounds t) Number.zero
    then Number.round_to 2 (Number.div (totalKills t) (totalRounds t))
    else Number.zero in
  {| User.kdRatio := kdRatio;
     User.damagePerRound := damagePerRound;
     User.winPercentage := winPercentage;
     User.killsPerRound := killsPerRound;
     User.wins := wins t;
     User.kills := totalKills t;
     User.deaths := totalDeaths t;
     User.assists := totalAssists t;
     User.totalGames := totalGames;
     User.totalRounds := totalRounds t;
     User.totalDamage := totalDamage t |}.

(** The object returned when [matches.length === 0]. *)
Definition empty_stats : User.Stats :=
  {| User.kdRatio := Number.zero;
     User.damagePerRound := Number.zero;
     User.winPercentage := Number.zero;
     User.killsPerRound := Number.zero;
     User.wins := Number.zero;
     User.kills := Number.zero;
     User.deaths := Number.zero;
     User.assists := Number.zero;
     User.totalGames := Number.zero;
     User.totalRounds := Number.zero;
     User.totalDamage := Number.zero |}.

(** The body of [calculateUserStats] once [Match.find] has returned
    [matches]. *)
Definition aggregate (matches : list Match.t) : User.Stats :=
  match matches with
  | [] => empty_stats
  | _ :: _ =>
      derive (fold_left accumulate matches totals0)
             (Number.of_N (N.of_nat (length matches)))
  end.

(** ** The datastore *)

Record DB := {
  matches : list Match.t;          (* the Match collection, in insertion order *)
  users : gmap ObjectId User.t     (* the User collection, by [_id] *)
}.

(** The datastore calls the three routes make. *)
Inductive Call :=
| Match_save
| Match_find
| Match_findOneAndDelete
| Match_deleteMany
| User_findById
| User_findByIdAndUpdate
| User_save.

(** An awaited promise is fulfilled with a value or rejected; [await] of a
    rejected promise throws.  What was written before the rejection stays
    written. *)
Inductive Settled (A : Type) :=
| Fulfilled (a : A)
| Rejected.
Arguments Fulfilled {A} a.
Arguments Rejected {A}.

Definition Promise (A : Type) : Type := DB -> Settled A * DB.

#[global] Instance Promise_ret : MRet Promise :=
  fun A a db => (Fulfilled a, db).

#[global] Instance Promise_bind : MBind Promise :=
  fun A B k m db =>
    match m db with
    | (Fulfilled a, db') => k a db'
    | (Rejected, db') => (Rejected, db')
    end.

Definition throw {A : Type} : Promise A := fun db => (Rejected, db).

(** [try { body } catch (error) { handler }] *)
Definition try_catch {A : Type} (body handler : Promise A) : Promise A :=
  fun db =>
    match body db with
    | (Fulfilled a, db') => (Fulfilled a, db')
    | (Rejected, db') => handler db'
    end.

Record Response := {
  status : N;
  stats : option User.Stats
}.

Definition json (code : N) : Response := {| status := code; stats := None |}.

(** The body of POST /api/user/me/matches as the route receives it: a
    field is absent ([None]) or present, the five texts as strings and
    the six numbers as the Numbers that the JSON of the request has for
    them, whole or not, negative or not (the page sends JSON numbers; a
    number sent as a JSON string is not covered here). *)
Module Body.
Record t := {
  date : option string;
  time : option string;
  matchType : option string;
  outcome : option string;
  map : option string;
  roundsWon : option Number.t;
  roundsLost : option Number.t;
  damage : option Number.t;
  kills : option Number.t;
  deaths : option Number.t;
  assists : option Number.t
}.
End Body.

(** [!s] for a string field: absent or empty. *)
Definition falsy (s : option string) : bool :=
  match s with
  | None => true
  | Some s => String.eqb s ""
  end.

Definition undefined {A : Type} (x : option A) : bool :=
  match x with
  | None => true
  | Some _ => false
  end.

(** [x < 0] for a number of the body. *)
Definition below_zero (x : option Number.t) : bool :=
  match x with
  | Some x => Number.gt Number.zero x
  | None => false
  end.

(** [z < 0] for an integer that [parseInt] has read. *)
Definition negative (x : option Z) : bool :=
  match x with
  | Some z => z <? 0
  | None => false
  end.

(** The [enum] validators of the schema. *)
Definition cast_MatchType (s : string) : option MatchType :=
  if String.eqb s "Ranked" then Some Ranked
  else if String.eqb s "Casual" then Some Casual
  else if String.eqb s "Tournament" then Some Tournament
  else if String.eqb s "Practice" then Some Practice
  else None.

Definition cast_Outcome (s : string) : option Outcome :=
  if String.eqb s "Win" then Some Win
  else if String.eqb s "Loss" then Some Loss
  else if String.eqb s "Draw" then Some Draw
  else None.

(** The [min: 0] validator, on the integer that [parseInt] has read (NaN
    has failed the cast to Number before). *)
Definition cast_min0 (z : Z) : option N :=
  if z <? 0 then None else Some (Z.to_N z).

(** The [required] validator of a string path: an empty string does not
    pass. *)
Definition required (s : option string) : option string :=
  match s with
  | Some s => if String.eqb s "" then None else Some s
  | None => None
  end.

(** [new Match({ ..., roundsWon: parseInt(roundsWon), ... })] followed by
    the validation that [save] runs: the stored document, or [None] when
    a cast or a validator fails.  [cast_Date] is the cast of Mongoose from
    a string to the Date of the path [date]; a string that is no date has
    none.  A number that [parseInt] reads as 0 passes [min: 0], also the
    -0 read from a number between -1 and 0, and is kept as 0. *)
Definition new_Match (cast_Date : string -> option Date) (id uid : ObjectId) (b : Body.t)
    : option Match.t :=
  date ← required (Body.date b) ≫= cast_Date;
  time ← required (Body.time b);
  matchType ← Body.matchType b ≫= cast_MatchType;
  outcome ← Body.outcome b ≫= cast_Outcome;
  map ← required (Body.map b);
  roundsWon ← (Body.roundsWon b ≫= parseInt) ≫= cast_min0;
  roundsLost ← (Body.roundsLost b ≫= parseInt) ≫= cast_min0;
  damage ← (Body.damage b ≫= parseInt) ≫= cast_min0;
  kills ← (Body.kills b ≫= parseInt) ≫= cast_min0;
  deaths ← (Body.deaths b ≫= parseInt) ≫= cast_min0;
  assists ← (Body.assists b ≫= parseInt) ≫= cast_min0;
  Some {| Match._id := id; Match.userId := uid; Match.date := date;
          Match.time := time; Match.matchType := matchType;
          Match.outcome := outcome; Match.map := map;
          Match.roundsWon := roundsWon; Match.roundsLost := roundsLost;
          Match.damage := damage; Match.kills := kills;
          Match.deaths := deaths; Match.assists := assists |}.

(** The documents of one account: the filter [{ userId }]. *)
Definition owned_by (uid : ObjectId) (ms : list Match.t) : list Match.t :=
  filter (fun m => Match.userId m = uid) ms.

(** Take out the first element that satisfies [p]. *)
Fixpoint remove_first {A : Type} (p : A -> bool) (l : list A) : option (A * list A) :=
  match l with
  | [] => None
  | x :: l' =>
      if p x then Some (x, l')
      else match remove_first p l' with
           | Some (y, r) => Some (y, x :: r)
           | None => None
           end
  end.

Section Routes.

(** The cast of Mongoose from a string to a Date. *)
Variable cast_Date : string -> option Date.

(** The calls that the datastore rejects while this request runs.  A
    rejected call has written nothing. *)
Variable rejects : Call -> bool.

Definition call {A : Type} (c : Call) (op : DB -> Settled A * DB) : Promise A :=
  fun db => if rejects c then (Rejected, db) else op db.

(** [match.save()] *)
Definition save_Match (doc : option Match.t) : Promise Match.t :=
  call Match_save (fun db =>
    match doc with
    | None => (Rejected, db)
    | Some m =>
        if existsb (fun m' => N.eqb (Match._id m') (Match._id m)) (matches db)
        then (Rejected, db)
        else (Fulfilled m, {| matches := matches db ++ [m]; users := users db |})
    end).

(** [Match.find({ userId })] *)
Definition find_Match (uid : ObjectId) : Promise (list Match.t) :=
  call Match_find (fun db => (Fulfilled (owned_by uid (matches db)), db)).

(** [Match.findOneAndDelete({ _id, userId })] *)
Definition findOneAndDelete_Match (id uid : ObjectId) : Promise (option Match.t) :=
  call Match_findOneAndDelete (fun db =>
    match remove_first
            (fun m => N.eqb (Match._id m) id && N.eqb (Match.userId m) uid)
            (matches db) with
    | Some (m, rest) => (Fulfilled (Some m), {| matches := rest; users := users db |})
    | None => (Fulfilled None, db)
    end).

(** [Match.deleteMany({ userId })] *)
Definition deleteMany_Match (uid : ObjectId) : Promise unit :=
  call Match_deleteMany (fun db =>
    (Fulfilled tt,
     {| matches := filter (fun m => Match.userId m <> uid) (matches db);
        users := users db |})).

(** [User.findById(id)] *)
Definition findById_User (uid : ObjectId) : Promise (option User.t) :=
  call User_findById (fun db => (Fulfilled (users db !! uid), db)).

(** [User.findByIdAndUpdate(id, update)]: sets the fields of [update] on
    the document with that [_id]; without such a document nothing is
    written. *)
Definition findByIdAndUpdate_User (uid : ObjectId) (update : User.Stats) : Promise unit :=
  call User_findByIdAndUpdate (fun db =>
    match users db !! uid with
    | Some u =>
        (Fulfilled tt,
         {| matches := matches db;
            users := <[uid := User.set_stats u update]> (users db) |})
    | None => (Fulfilled tt, db)
    end).

(** [user.save()] *)
Definition save_User (uid : ObjectId) (u : User.t) : Promise unit :=
  call User_save (fun db =>
    (Fulfilled tt, {| matches := matches db; users := <[uid := u]> (users db) |})).

(** [calculateUserStats]: the [catch] logs the error and throws it
    again. *)
Definition calculateUserStats (userId : ObjectId) : Promise User.Stats :=
  try_catch
    (matches ← find_Match userId;
     mret (aggregate matches))
    throw.

(** POST /api/user/me/matches, for the account [uid] of the token;
    [id] is the [_id] that [new Match] draws.  The two numbers of rounds
    are compared with 0 as they come, before [parseInt] reads them. *)
Definition post_match (uid id : ObjectId) (b : Body.t) : Promise Response :=
  try_catch
    (if falsy (Body.date b) || falsy (Body.time b) || falsy (Body.matchType b)
        || falsy (Body.outcome b) || falsy (Body.map b)
        || undefined (Body.roundsWon b) || undefined (Body.roundsLost b)
        || undefined (Body.damage b) || undefined (Body.kills b)
        || undefined (Body.deaths b) || undefined (Body.assists b)
     then mret (json 400)
     else if below_zero (Body.roundsWon b) || below_zero (Body.roundsLost b)
     then mret (json 400)
     else
       _ ← save_Match (new_Match cast_Date id uid b);
       updatedStats ← calculateUserStats uid;
       _ ← findByIdAndUpdate_User uid updatedStats;
       mret {| status := 201; stats := Some updatedStats |})
    (mret (json 500)).

(** DELETE /api/user/me/matches/:id *)
Definition delete_match (uid id : ObjectId) : Promise Response :=
  try_catch
    (found ← findOneAndDelete_Match id uid;
     match found with
     | None => mret (json 404)
     | Some _ =>
         updatedStats ← calculateUserStats uid;
         _ ← findByIdAndUpdate_User uid updatedStats;
         mret {| status := 200; stats := Some updatedStats |}
     end)
    (mret (json 500)).

(** The eleven assignments [user.kdRatio = 0; ...] of the reset route. *)
Definition reset_fields (user : User.t) : User.t :=
  User.set_stats user
    {| User.kdRatio := S754_zero false;
       User.damagePerRound := S754_zero false;
       User.winPercentage := S754_zero false;
       User.killsPerRound := S754_zero false;
       User.wins := S754_zero false;
       User.kills := S754_zero false;
       User.deaths := S754_zero false;
       User.assists := S754_zero false;
       User.totalGames := S754_zero false;
       User.totalRounds := S754_zero false;
       User.totalDamage := S754_zero false |}.

(** DELETE /api/user/me/stats *)
Definition delete_stats (uid : ObjectId) : Promise Response :=
  try_catch
    (found ← findById_User uid;
     match found with
     | None => mret (json 404)
     | Some user =>
         _ ← deleteMany_Match uid;
         _ ← save_User uid (reset_fields user);
         mret {| status := 200; stats := Some (User.stats (reset_fields user)) |}
     end)
    (mret (json 500)).

End Routes.

(** The three requests that change an account's matches. *)
Inductive Request :=
| POST_match (uid id : ObjectId) (b : Body.t)
| DELETE_match (uid id : ObjectId)
| DELETE_stats (uid : ObjectId).

Definition handle (cast_Date : string -> option Date) (rejects : Call -> bool) (r : Request)
    : Promise Response :=
  match r with
  | POST_match uid id b => post_match cast_Date rejects uid id b
  | DELETE_match uid id => delete_match rejects uid id
  | DELETE_stats uid => delete_stats rejects uid
  end.

(** The datastore answers every call. *)
Definition available : Call -> bool := fun _ => false.






(** ** The summary in the words of the specification *)

(** [Σ f] over the records. *)
Definition sum_over (f : Match.t -> N) (ms : list Match.t) : N :=
  foldr (fun m acc => (f m + acc)%N) 0%N ms.

(** [count(p)] over the records. *)
Definition count_where (p : Match.t -> bool) (ms : list Match.t) : N :=
  N.of_nat (length (List.filter p ms)).

Definition is_Win (m : Match.t) : bool := Outcome_eqb (Match.outcome m) Win.

(** What a record adds to wins. *)
Definition win_of (m : Match.t) : N := if is_Win m then 1%N else 0%N.

(** The integers that a Number adds without rounding reach 2^53. *)
Definition exact_limit : N := 2 ^ 53.

(** No total of the record set, and not the number of records, exceeds
    2^53. *)
Definition within_exact_range (ms : list Match.t) : Prop :=
  (sum_over Match.kills ms <= exact_limit)%N /\
  (sum_over Match.deaths ms <= exact_limit)%N /\
  (sum_over Match.assists ms <= exact_limit)%N /\
  (sum_over Match.damage ms <= exact_limit)%N /\
  (sum_over Match.rounds ms <= exact_limit)%N /\
  (N.of_nat (length ms) <= exact_limit)%N.

(** The totals as sums and counts. *)
Definition exact_totals (ms : list Match.t) : Totals :=
  {| totalKills := Number.of_N (sum_over Match.kills ms);
     totalDeaths := Number.of_N (sum_over Match.deaths ms);
     totalAssists := Number.of_N (sum_over Match.assists ms);
     totalDamage := Number.of_N (sum_over Match.damage ms);
     totalRounds := Number.of_N (sum_over Match.rounds ms);
     wins := Number.of_N (count_where is_Win ms) |}.

(** The totals held while the records are gone through. *)
Definition totals_of_N (k d a dmg r w : N) : Totals :=
  {| totalKills := Number.of_N k; totalDeaths := Number.of_N d;
     totalAssists := Number.of_N a; totalDamage := Number.of_N dmg;
     totalRounds := Number.of_N r; wins := Number.of_N w |}.

(** The reset route read as "delete every match of the account, then
    aggregate again and store the result". *)
Definition reset_by_aggregation (rejects : Call -> bool) (uid : ObjectId) : Promise Response :=
  try_catch
    (found ← findById_User rejects uid;
     match found with
     | None => mret (json 404)
     | Some user =>
         _ ← deleteMany_Match rejects uid;
         updatedStats ← calculateUserStats rejects uid;
         _ ← save_User rejects uid (User.set_stats user updatedStats);
         mret {| status := 200; stats := Some updatedStats |}
     end)
    (mret (json 500)).

(** ** Sample data *)

Definition sample (id : ObjectId) (o : Outcome) (kills deaths assists damage roundsWon roundsLost : N) : Match.t :=
  {| Match._id := id; Match.userId := 1%N; Match.date := 1714521600000%Z;
     Match.time := "18:30"; Match.matchType := Ranked; Match.outcome := o;
     Match.map := "Ascent"; Match.roundsWon := roundsWon;
     Match.roundsLost := roundsLost; Match.damage := damage;
     Match.kills := kills; Match.deaths := deaths; Match.assists := assists |}.

Definition match_a : Match.t := sample 1 Win 15 10 5 3200 7 6.
Definition match_b : Match.t := sample 2 Loss 8 12 3 2400 5 7.

(** A match with 2^53 = 9007199254740992 kills, and two with one kill. *)
Definition match_2p53 : Match.t := sample 3 Win (2 ^ 53) 1 0 0 1 0.
Definition match_one : Match.t := sample 4 Loss 1 1 0 0 0 1.
Definition match_uno : Match.t := sample 5 Draw 1 1 0 0 1 1.

(** Two matches with 2^1023 kills (a finite Number, near 9e307) and no
    death. *)
Definition match_huge : Match.t := sample 6 Win (2 ^ 1023) 0 0 0 1 0.
Definition match_vast : Match.t := sample 7 Win (2 ^ 1023) 0 0 0 1 0.

(** The match that POST [sample_body] with the [_id] 3 stores. *)
Definition match_c : Match.t := sample 3 Win 15 10 5 3200 7 6.

Definition sample_user : User.t :=
  {| User.userId := "nolu"; User.username := "Nolu"; User.password := "$2a$10$";
     User.isPublic := true; User.stats := empty_stats |}.

(** A stand-in for the cast to a Date on the samples: the two days of
    the samples, as the time values of their midnights. *)
Definition sample_cast_Date (s : string) : option Date :=
  if String.eqb s "2024-05-01" then Some 1714521600000%Z
  else if String.eqb s "2024-05-02" then Some 1714608000000%Z
  else None.

Definition sample_body : Body.t :=
  {| Body.date := Some "2024-05-01"; Body.time := Some "18:30";
     Body.matchType := Some "Ranked"; Body.outcome := Some "Win";
     Body.map := Some "Ascent";
     Body.roundsWon := Some (Number.of_Z 7); Body.roundsLost := Some (Number.of_Z 6);
     Body.damage := Some (Number.of_Z 3200); Body.kills := Some (Number.of_Z 15);
     Body.deaths := Some (Number.of_Z 10); Body.assists := Some (Number.of_Z 5) |}.

Definition sample_db : DB :=
  {| matches := [match_a; match_b];
     users := {[ 1%N := User.set_stats sample_user (aggregate [match_a; match_b]) ]} |}.

(** The datastore rejects [Match.find], and nothing else. *)
Definition find_fails : Call -> bool :=
  fun c => match c with Match_find => true | _ => false end.

(** The datastore rejects [User.findByIdAndUpdate], and nothing else. *)
Definition update_fails : Call -> bool :=
  fun c => match c with User_findByIdAndUpdate => true | _ => false end.

(** An account just signed up; the same account after it has posted
    [sample_body]; and after the same request during which [Match.find]
    was rejected. *)
Definition fresh_db : DB :=
  {| matches := []; users := {[ 1%N := sample_user ]} |}.

Definition posted_db : DB :=
  snd (handle sample_cast_Date available (POST_match 1 1 sample_body) fresh_db).


(** ** The totals and the ratios of the summary *)

(** What a total of counts can be: 0, a Number from 1 on with its 53
    bits, or Infinity. *)
Definition count_like (x : Number.t) : Prop :=
  match x with
  | S754_zero s => s = false
  | S754_infinity s => s = false
  | S754_finite s m e => s = false /\ Z.pos (digits2_pos m) = 53 /\ -52 <= e <= 971
  | S754_nan => False
  end.

(** [x] is the quotient [a / b] rounded to [f] decimal places: the
    Number that the decimal [n / 10^f] denotes, for an integer [n] at
    most half a unit, and the rounding of the division (a part in 2^52 of
    the quotient), away from [a * 10^f / b]. *)
Definition rounded_quotient (f : N) (a b : N) (x : Number.t) : Prop :=
  exists n : Z,
    0 <= n /\
    x = Number.parseFloat (Number.Decimal false n f) /\
    2 ^ 53 * Z.abs (n * Z.of_N b - 10 ^ Z.of_N f * Z.of_N a) <=
      2 ^ 52 * Z.of_N b + 2 * 10 ^ Z.of_N f * Z.of_N a.

(** A match with 2^53 kills and as much damage in its one round, and two
    matches with one kill and a damage of 1 in no round; no death in any
    of them. *)
Definition match_top : Match.t := sample 20 Win (2 ^ 53) 0 0 (2 ^ 53) 1 0.
Definition match_tip : Match.t := sample 21 Loss 1 0 0 1 0 0.
Definition match_tap : Match.t := sample 22 Draw 1 0 0 1 0 0.

(** * The rest of the server and the pages that show the numbers *)

(** The account a request is made for: the [id] of its token. *)
Definition account (r : Request) : ObjectId :=
  match r with
  | POST_match uid _ _ => uid
  | DELETE_match uid _ => uid
  | DELETE_stats uid => uid
  end.

(** ** authenticateToken *)

(** The payload of a token: what the login route gives [jwt.sign] and
    [jwt.verify] gives back as [decoded]. *)
Module Claims.
Record t := {
  userId : string;
  id : ObjectId;
  username : string
}.
End Claims.

(** [s.split(c)] for a separator [c] of one character. *)
Fixpoint split (c : Ascii.ascii) (s : string) : list string :=
  match s with
  | EmptyString => [EmptyString]
  | String a s' =>
      if Ascii.eqb a c then EmptyString :: split c s'
      else match split c s' with
           | w :: ws => String a w :: ws
           | [] => [String a EmptyString]
           end
  end.

(** No character of [s] is [c]. *)
Fixpoint without (c : Ascii.ascii) (s : string) : bool :=
  match s with
  | EmptyString => true
  | String a s' => negb (Ascii.eqb a c) && without c s'
  end.

(** What the middleware does with a request: it answers it with a status
    or calls [next()] with [req.user = decoded]. *)
Inductive Verdict :=
| Next (decoded : Claims.t)
| Denied (code : N).

(** The header [Authorization] that the pages send with a request. *)
Definition bearer (token : string) : string := "Bearer " ++ token.

Section Authentication.

(** [jwt.verify(token, JWT_SECRET)]: the payload of a token that is
    valid. *)
Variable jwt_verify : string -> option Claims.t.

Definition authenticateToken (authorization : option string) : Verdict :=
  let token :=
    match authorization with
    | None => None
    | Some authHeader =>
        if String.eqb authHeader EmptyString then Some EmptyString
        else split " "%char authHeader !! 1%nat
    end in
  match token with
  | None => Denied 401
  | Some token =>
      if String.eqb token EmptyString then Denied 401
      else match jwt_verify token with
           | None => Denied 403
           | Some decoded => Next decoded
           end
  end.

(** A route behind the middleware: [app.get(path, authenticateToken,
    handler)], the handler reading [req.user.id]. *)
Definition authenticated {R : Type} (denied : N -> R) (authorization : option string)
    (handler : ObjectId -> Promise R) : Promise R :=
  match authenticateToken authorization with
  | Next decoded => handler (Claims.id decoded)
  | Denied code => mret (denied code)
  end.

End Authentication.

(** ** The routes that read or change an account *)

(** The answers of these routes: the status, the message, and of the
    payload the token, the account's names, its privacy setting and its
    summary, each where the answer has it.  The list [recentMatches] of
    the public profile is not part of this record. *)
Module Reply.
Record t := {
  status : N;
  message : option string;
  token : option string;
  userId : option string;
  username : option string;
  isPublic : option bool;
  stats : option User.Stats
}.
End Reply.

(** An answer that is a status and a message:
    [res.status(code).json({ success, message })]. *)
Definition answer (code : N) (message : string) : Reply.t :=
  {| Reply.status := code; Reply.message := Some message; Reply.token := None;
     Reply.userId := None; Reply.username := None; Reply.isPublic := None;
     Reply.stats := None |}.

(** [user.isPublic = isPublic] *)
Definition set_isPublic (u : User.t) (isPublic : bool) : User.t :=
  {| User.userId := User.userId u; User.username := User.username u;
     User.password := User.password u; User.isPublic := isPublic;
     User.stats := User.stats u |}.

(** The calls on the User model that only these routes make. *)
Inductive UserCall :=
| User_findOne
| User_findByIdAndDelete.

Section Accounts.

Variable rejects : Call -> bool.
Variable rejects_user : UserCall -> bool.

(** The value that the schema casts the [userId] of a filter to, before
    the documents are compared with it. *)
Variable cast_userId : string -> string.

(** [jwt.sign(payload, JWT_SECRET, { expiresIn: '24h' })] and
    [bcrypt.compare(password, hash)]. *)
Variable jwt_sign : Claims.t -> string.
Variable bcrypt_compare : string -> string -> bool.

Definition call_user {A : Type} (c : UserCall) (op : DB -> Settled A * DB) : Promise A :=
  fun db => if rejects_user c then (Rejected, db) else op db.

(** [User.findOne({ userId })]: a document whose [userId] is the one
    asked for, as the schema casts it; with its [_id]. *)
Definition findOne_User (userId : string) : Promise (option (ObjectId * User.t)) :=
  call_user User_findOne (fun db =>
    (Fulfilled (head (filter (fun iu => User.userId (snd iu) = cast_userId userId)
                             (map_to_list (users db)))), db)).

(** [User.findByIdAndDelete(id)] *)
Definition findByIdAndDelete_User (uid : ObjectId) : Promise unit :=
  call_user User_findByIdAndDelete (fun db =>
    (Fulfilled tt, {| matches := matches db; users := delete uid (users db) |})).

(** POST /api/login *)
Definition login (userId password : option string) : Promise Reply.t :=
  try_catch
    (if falsy userId || falsy password
     then mret (answer 400 "User ID and password are required")
     else
       match userId, password with
       | Some userId, Some password =>
           found ← findOne_User userId;
           match found with
           | None => mret (answer 401 "Invalid credentials")
           | Some (_id, user) =>
               if negb (bcrypt_compare password (User.password user))
               then mret (answer 401 "Invalid credentials")
               else
                 let token :=
                   jwt_sign {| Claims.userId := User.userId user; Claims.id := _id;
                               Claims.username := User.username user |} in
                 mret {| Reply.status := 200;
                         Reply.message := Some "Login successful!";
                         Reply.token := Some token;
                         Reply.userId := Some (User.userId user);
                         Reply.username := Some (User.username user);
                         Reply.isPublic := Some (User.isPublic user);
                         Reply.stats := Some (User.stats user) |}
           end
       | _, _ => mret (answer 400 "User ID and password are required")
       end)
    (mret (answer 500 "Server error during login")).

(** GET /api/user/:userId *)
Definition get_user (userId : string) : Promise Reply.t :=
  try_catch
    (found ← findOne_User userId;
     match found with
     | None => mret (answer 404 "Player not found")
     | Some (_id, user) =>
         if negb (User.isPublic user)
         then mret (answer 403 "This player profile is private")
         else
           recentMatches ← find_Match rejects _id;
           mret {| Reply.status := 200; Reply.message := None; Reply.token := None;
                   Reply.userId := Some (User.userId user);
                   Reply.username := Some (User.username user);
                   Reply.isPublic := None;
                   Reply.stats := Some (User.stats user) |}
     end)
    (mret (answer 500 "Error fetching player data")).


(** PUT /api/user/me/privacy; [isPublic] is the boolean of the body, or
    [None] when the body has none (typeof isPublic !== 'boolean'). *)
Definition put_privacy (uid : ObjectId) (isPublic : option bool) : Promise Reply.t :=
  try_catch
    (match isPublic with
     | None => mret (answer 400 "isPublic must be true or false")
     | Some isPublic =>
         found ← findById_User rejects uid;
         match found with
         | None => mret (answer 404 "User not found")
         | Some user =>
             let user := set_isPublic user isPublic in
             _ ← save_User rejects uid user;
             mret {| Reply.status := 200;
                     Reply.message :=
                       Some (if isPublic then "Profile is now public"
                             else "Profile is now private");
                     Reply.token := None; Reply.userId := None;
                     Reply.username := None;
                     Reply.isPublic := Some (User.isPublic user);
                     Reply.stats := None |}
         end
     end)
    (mret (answer 500 "Error updating privacy")).

(** GET /api/user/me/privacy *)
Definition get_privacy (uid : ObjectId) : Promise Reply.t :=
  try_catch
    (found ← findById_User rejects uid;
     match found with
     | None => mret (answer 404 "User not found")
     | Some user =>
         mret {| Reply.status := 200; Reply.message := None; Reply.token := None;
                 Reply.userId := None; Reply.username := None;
                 Reply.isPublic := Some (User.isPublic user);
                 Reply.stats := None |}
     end)
    (mret (answer 500 "Error fetching privacy settings")).

(** DELETE /api/user/me *)
Definition delete_account (uid : ObjectId) : Promise Reply.t :=
  try_catch
    (found ← findById_User rejects uid;
     match found with
     | None => mret (answer 404 "User not found")
     | Some user =>
         _ ← deleteMany_Match rejects uid;
         _ ← findByIdAndDelete_User uid;
         mret (answer 200 "Account deleted successfully!")
     end)
    (mret (answer 500 "Error deleting account")).

End Accounts.

(** The first check of POST /api/user/me/matches, a field that is
    missing, and the second, a number of rounds below 0. *)
Definition missing_field (b : Body.t) : bool :=
  falsy (Body.date b) || falsy (Body.time b) || falsy (Body.matchType b)
  || falsy (Body.outcome b) || falsy (Body.map b)
  || undefined (Body.roundsWon b) || undefined (Body.roundsLost b)
  || undefined (Body.damage b) || undefined (Body.kills b)
  || undefined (Body.deaths b) || undefined (Body.assists b).

Definition negative_rounds (b : Body.t) : bool :=
  below_zero (Body.roundsWon b) || below_zero (Body.roundsLost b).

(** A number of the body from which [parseInt] reads NaN or a negative
    integer: the cast to Number or the validator [min: 0] fails. *)
Definition unreadable (x : option Number.t) : bool :=
  match x ≫= parseInt with
  | Some z => z <? 0
  | None => true
  end.

(** A match with the [_id] is stored already. *)
Definition stored (id : ObjectId) (db : DB) : bool :=
  existsb (fun m => N.eqb (Match._id m) id) (matches db).

(** The account has a match with the [_id]. *)
Definition has_match (uid id : ObjectId) (db : DB) : bool :=
  existsb (fun m => N.eqb (Match._id m) id && N.eqb (Match.userId m) uid) (matches db).

(** The datastore answers these calls too. *)
Definition available_user : UserCall -> bool := fun _ => false.

(** ** More sample data *)

(** A second account with one match, beside the first with its two. *)
Definition match_d : Match.t :=
  {| Match._id := 8; Match.userId := 2%N; Match.date := 1714608000000%Z;
     Match.time := "20:15"; Match.matchType := Casual; Match.outcome := Win;
     Match.map := "Bind"; Match.roundsWon := 13; Match.roundsLost := 4;
     Match.damage := 4000; Match.kills := 20; Match.deaths := 5;
     Match.assists := 2 |}.

Definition rival_user : User.t :=
  {| User.userId := "rival"; User.username := "Rival"; User.password := "$2a$10$r";
     User.isPublic := false; User.stats := aggregate [match_d] |}.

Definition shared_db : DB :=
  {| matches := [match_a; match_d; match_b];
     users := {[ 1%N := User.set_stats sample_user (aggregate [match_a; match_b]);
                 2%N := rival_user ]} |}.

(** The datastore with nothing in it. *)
Definition empty_db : DB := {| matches := []; users := ∅ |}.

(** [sample_body] with a negative number of kills. *)
Definition negative_kills_body : Body.t :=
  {| Body.date := Some "2024-05-01"; Body.time := Some "18:30";
     Body.matchType := Some "Ranked"; Body.outcome := Some "Win";
     Body.map := Some "Ascent";
     Body.roundsWon := Some (Number.of_Z 7); Body.roundsLost := Some (Number.of_Z 6);
     Body.damage := Some (Number.of_Z 3200); Body.kills := Some (Number.of_Z (-15));
     Body.deaths := Some (Number.of_Z 10); Body.assists := Some (Number.of_Z 5) |}.

(** [sample_body] with a text that is no date; with half a round lost
    too many, and a negative number of kills; and with damage between -1
    and 0. *)
Definition no_date_body : Body.t :=
  {| Body.date := Some "not-a-date"; Body.time := Some "18:30";
     Body.matchType := Some "Ranked"; Body.outcome := Some "Win";
     Body.map := Some "Ascent";
     Body.roundsWon := Some (Number.of_Z 7); Body.roundsLost := Some (Number.of_Z 6);
     Body.damage := Some (Number.of_Z 3200); Body.kills := Some (Number.of_Z 15);
     Body.deaths := Some (Number.of_Z 10); Body.assists := Some (Number.of_Z 5) |}.

Definition half_round_body : Body.t :=
  {| Body.date := Some "2024-05-01"; Body.time := Some "18:30";
     Body.matchType := Some "Ranked"; Body.outcome := Some "Win";
     Body.map := Some "Ascent";
     Body.roundsWon := Some (Number.literal true 5 1); Body.roundsLost := Some (Number.of_Z 6);
     Body.damage := Some (Number.of_Z 3200); Body.kills := Some (Number.of_Z (-15));
     Body.deaths := Some (Number.of_Z 10); Body.assists := Some (Number.of_Z 5) |}.

Definition half_damage_body : Body.t :=
  {| Body.date := Some "2024-05-01"; Body.time := Some "18:30";
     Body.matchType := Some "Ranked"; Body.outcome := Some "Win";
     Body.map := Some "Ascent";
     Body.roundsWon := Some (Number.of_Z 7); Body.roundsLost := Some (Number.of_Z 6);
     Body.damage := Some (Number.literal true 5 1); Body.kills := Some (Number.of_Z 15);
     Body.deaths := Some (Number.of_Z 10); Body.assists := Some (Number.of_Z 5) |}.

(** Stand-ins for the libraries: a filter value cast to itself, a token
    that is the userId, read back as the payload of the sample account,
    and a password compared with the stored string. *)
Definition sample_cast (userId : string) : string := userId.

Definition sample_sign (payload : Claims.t) : string := Claims.userId payload.

Definition sample_verify (token : string) : option Claims.t :=
  Some {| Claims.userId := token; Claims.id := 1%N; Claims.username := "Nolu" |}.

Definition sample_compare (password hash : string) : bool := String.eqb password hash.

(** The sample account after it has set its profile to private. *)
Definition private_db : DB :=
  snd (put_privacy available 1 (Some false) fresh_db).

(** ** The position of a quotient between two integers *)

(** A mantissa with its round and sticky bits locates the quotient
    [num / den]: it lies from the mantissa on and below the next integer,
    the round bit says whether it is at least half way there, and the
    sticky bit whether it is neither at the mantissa nor just half way. *)
Definition located (mrs : shr_record) (num den : Z) : Prop :=
  0 < den /\
  0 <= num - shr_m mrs * den < den /\
  shr_r mrs = (den <=? 2 * (num - shr_m mrs * den)) /\
  shr_s mrs =
    negb (2 * (num - shr_m mrs * den) - (if shr_r mrs then den else 0) =? 0).

(** A Number that is not negative and not NaN. *)
Definition nonnegative (x : Number.t) : bool :=
  match x with
  | S754_zero _ => true
  | S754_infinity s | S754_finite s _ _ => negb s
  | S754_nan => false
  end.

(** Case analysis on the integer comparisons of a goal. *)
Ltac compare_cases :=
  repeat match goal with
         | |- context [Z.leb ?a ?b] => destruct (Z.leb_spec a b)
         | |- context [Z.eqb ?a ?b] => destruct (Z.eqb_spec a b)
         end;
  cbn [negb orb andb]; try reflexivity; try lia.

(** ** The pages *)

(** The four numbers on the cards of the dashboard and of the home page:
    [stats.kdRatio.toFixed(2)], [stats.damagePerRound.toFixed(0)],
    [stats.winPercentage.toFixed(1)] (before the percent sign) and
    [stats.killsPerRound.toFixed(2)]. *)
Module Cards.
Record t := {
  kdRatio : Number.fixed_string;
  damagePerRound : Number.fixed_string;
  winPercentage : Number.fixed_string;
  killsPerRound : Number.fixed_string
}.
End Cards.

Definition stat_cards (stats : User.Stats) : Cards.t :=
  {| Cards.kdRatio := Number.toFixed (User.kdRatio stats) 2;
     Cards.damagePerRound := Number.toFixed (User.damagePerRound stats) 0;
     Cards.winPercentage := Number.toFixed (User.winPercentage stats) 1;
     Cards.killsPerRound := Number.toFixed (User.killsPerRound stats) 2 |}.

(** [Math.round(x)]: the integer nearest to [x], of two the larger; a
    result that is zero keeps the sign of [x]. *)
Definition Math_round (x : Number.t) : Number.t :=
  match x with
  | S754_finite s m e =>
      if 0 <=? e then x
      else
        match (2 * cond_Zopp s (Z.pos m) + 2 ^ (- e)) / (2 * 2 ^ (- e)) with
        | 0 => S754_zero s
        | n => Number.of_Z n
        end
  | _ => x
  end.

(** The row of a match in the match history.  The numbers of a stored
    match reach the page as the Numbers they are (they are finite), and
    [rounds] as the virtual of the schema computes it. *)
Definition rounds_virtual (m : Match.t) : Number.t :=
  Number.add (Number.of_N (Match.roundsWon m)) (Number.of_N (Match.roundsLost m)).

(** [match.deaths > 0 ? (match.kills / match.deaths).toFixed(2)
                      : match.kills.toFixed(2)] *)
Definition kd_cell (m : Match.t) : Number.fixed_string :=
  let kills := Number.of_N (Match.kills m) in
  let deaths := Number.of_N (Match.deaths m) in
  if Number.gt deaths Number.zero
  then Number.toFixed (Number.div kills deaths) 2
  else Number.toFixed kills 2.

(** [Math.round(match.damage / match.rounds)] *)
Definition damage_cell (m : Match.t) : Number.t :=
  Math_round (Number.div (Number.of_N (Match.damage m)) (rounds_virtual m)).

(** A match without a round, with damage and without. *)
Definition match_no_round : Match.t := sample 10 Draw 3 2 1 150 0 0.
Definition match_idle : Match.t := sample 11 Draw 0 0 0 0 0 0.

(** ** Signing up *)

(** The defaults of the eleven summary fields in [userSchema], and the
    [stats] that the signup route answers with. *)
Definition schema_defaults : User.Stats :=
  {| User.kdRatio := Number.zero;
     User.damagePerRound := Number.zero;
     User.winPercentage := Number.zero;
     User.killsPerRound := Number.zero;
     User.wins := Number.zero;
     User.kills := Number.zero;
     User.deaths := Number.zero;
     User.assists := Number.zero;
     User.totalGames := Number.zero;
     User.totalRounds := Number.zero;
     User.totalDamage := Number.zero |}.

Definition signup_stats : User.Stats :=
  {| User.kdRatio := Number.zero;
     User.damagePerRound := Number.zero;
     User.winPercentage := Number.zero;
     User.killsPerRound := Number.zero;
     User.wins := Number.zero;
     User.kills := Number.zero;
     User.deaths := Number.zero;
     User.assists := Number.zero;
     User.totalGames := Number.zero;
     User.totalRounds := Number.zero;
     User.totalDamage := Number.zero |}.

(** What [user.save()] comes to for a new document: it is inserted, or
    the rejection has the code 11000 of a duplicate key, or it has not. *)
Inductive Saved :=
| Inserted
| Duplicate_key
| Refused.

(** An account with the [userId] is stored. *)
Definition taken (userId : string) (db : DB) : bool :=
  existsb (fun iu => String.eqb (User.userId (snd iu)) userId) (map_to_list (users db)).

(** No two accounts have the same [userId]. *)
Definition unique_userIds (db : DB) : Prop :=
  forall i j u v,
    users db !! i = Some u -> users db !! j = Some v ->
    User.userId u = User.userId v -> i = j.

Section Signup.

Variable rejects : Call -> bool.
Variable rejects_user : UserCall -> bool.
Variable cast_userId : string -> string.
Variable jwt_sign : Claims.t -> string.

(** [String.prototype.trim], the setter of the paths with [trim: true];
    [hashPassword]; and whether a document passes the validators of
    [userSchema] ([required], [minlength], [maxlength]). *)
Variable trim : string -> string.
Variable hashPassword : string -> string.
Variable validates : User.t -> bool.

(** [new User({ userId, username, password: hashedPassword,
                isPublic: true })] *)
Definition new_User (userId username hashedPassword : string) : User.t :=
  {| User.userId := trim userId; User.username := trim username;
     User.password := hashedPassword; User.isPublic := true;
     User.stats := schema_defaults |}.

(** [user.save()] for the new document with the [_id]: the validators
    run first, then the unique indexes on [_id] and [userId] decide. *)
Definition insert_User (_id : ObjectId) (user : User.t) (db : DB) : Saved * DB :=
  if rejects User_save then (Refused, db)
  else if negb (validates user) then (Refused, db)
  else if taken (User.userId user) db then (Duplicate_key, db)
  else match users db !! _id with
       | Some _ => (Duplicate_key, db)
       | None =>
           (Inserted, {| matches := matches db; users := <[_id := user]> (users db) |})
       end.

(** POST /api/signup; [_id] is the [_id] that [new User] draws.  The
    [catch] answers 409 for an error with the code 11000 and 500 for any
    other. *)
Definition signup (_id : ObjectId) (userId username password : option string)
    : Promise Reply.t :=
  fun db =>
    if falsy userId || falsy username || falsy password
    then (Fulfilled (answer 400 "User ID, username, and password are required"), db)
    else
      match userId, username, password with
      | Some userId, Some username, Some password =>
          match findOne_User rejects_user cast_userId userId db with
          | (Rejected, db') =>
              (Fulfilled (answer 500 "Server error during signup"), db')
          | (Fulfilled (Some existingUser), db') =>
              (Fulfilled (answer 409 "User ID already exists"), db')
          | (Fulfilled None, db') =>
              let user := new_User userId username (hashPassword password) in
              match insert_User _id user db' with
              | (Inserted, db'') =>
                  let token :=
                    jwt_sign {| Claims.userId := User.userId user; Claims.id := _id;
                                Claims.username := User.username user |} in
                  (Fulfilled
                     {| Reply.status := 201;
                        Reply.message := Some "Account created successfully!";
                        Reply.token := Some token;
                        Reply.userId := Some (User.userId user);
                        Reply.username := Some (User.username user);
                        Reply.isPublic := Some (User.isPublic user);
                        Reply.stats := Some signup_stats |}, db'')
              | (Duplicate_key, db'') =>
                  (Fulfilled (answer 409 "User ID already exists"), db'')
              | (Refused, db'') =>
                  (Fulfilled (answer 500 "Server error during signup"), db'')
              end
          end
      | _, _, _ =>
          (Fulfilled (answer 400 "User ID, username, and password are required"), db)
      end.

End Signup.

(** ** The requests that write *)

(** What the server takes from its libraries. *)
Record Libraries := {
  lib_cast_Date : string -> option Date;
  lib_cast_userId : string -> string;
  lib_trim : string -> string;
  lib_hashPassword : string -> string;
  lib_validates : User.t -> bool;
  lib_jwt_sign : Claims.t -> string
}.

(** The requests that write to the datastore: signing up, those for the
    matches, the privacy setting and the deletion of the account. *)
Inductive Action :=
| POST_signup (_id : ObjectId) (userId username password : option string)
| Matches (r : Request)
| PUT_privacy (uid : ObjectId) (isPublic : option bool)
| DELETE_account (uid : ObjectId).

(** The status a request is answered with, and the datastore after it. *)
Definition answered {A : Type} (code : A -> N) (run : Settled A * DB) : option N * DB :=
  match run with
  | (Fulfilled a, db') => (Some (code a), db')
  | (Rejected, db') => (None, db')
  end.

Definition perform (lib : Libraries) (rejects : Call -> bool)
    (rejects_user : UserCall -> bool) (a : Action) (db : DB) : option N * DB :=
  match a with
  | POST_signup _id userId username password =>
      answered Reply.status
        (signup rejects rejects_user (lib_cast_userId lib) (lib_jwt_sign lib)
           (lib_trim lib) (lib_hashPassword lib) (lib_validates lib)
           _id userId username password db)
  | Matches r => answered status (handle (lib_cast_Date lib) rejects r db)
  | PUT_privacy uid isPublic => answered Reply.status (put_privacy rejects uid isPublic db)
  | DELETE_account uid =>
      answered Reply.status (delete_account rejects rejects_user uid db)
  end.



(** Stand-ins for the libraries of the samples: nothing to trim, a hash
    that is the password after a mark, and no validator that objects. *)
Definition sample_hash (password : string) : string := "$2a$10$" ++ password.

Definition sample_lib : Libraries :=
  {| lib_cast_Date := sample_cast_Date;
     lib_cast_userId := sample_cast;
     lib_trim := fun s => s;
     lib_hashPassword := sample_hash;
     lib_validates := fun _ => true;
     lib_jwt_sign := sample_sign |}.

(** The datastore after "nolu" has signed up, and after the account has
    then set its profile to private. *)
Definition signed_up_db : DB :=
  snd (perform sample_lib available available_user
         (POST_signup 1 (Some "nolu") (Some "Nolu") (Some "secret")) empty_db).


(** ** The form of the page that adds a match *)

(** The state [formData] when the form is submitted: the five texts, and
    each number field as [parseInt] reads it, [None] for NaN. *)
Module Form.
Record t := {
  date : string;
  time : string;
  matchType : string;
  outcome : string;
  map : string;
  roundsWon : option Z;
  roundsLost : option Z;
  damage : option Z;
  kills : option Z;
  deaths : option Z;
  assists : option Z
}.
End Form.

(** [parseInt(x) || 0] *)
Definition or_zero (x : option Z) : Z :=
  match x with
  | Some z => z
  | None => 0
  end.

(** [dataToSend]: the texts as they are and each number as the Number
    [parseInt(x) || 0].  (A Number that is not finite is posted as null;
    the route treats null as it treats an infinity here: it is not
    undefined, the page has stopped it where it is below 0, and
    [parseInt] reads NaN from it.) *)
Definition dataToSend (formData : Form.t) : Body.t :=
  {| Body.date := Some (Form.date formData);
     Body.time := Some (Form.time formData);
     Body.matchType := Some (Form.matchType formData);
     Body.outcome := Some (Form.outcome formData);
     Body.map := Some (Form.map formData);
     Body.roundsWon := Some (Number.of_Z (or_zero (Form.roundsWon formData)));
     Body.roundsLost := Some (Number.of_Z (or_zero (Form.roundsLost formData)));
     Body.damage := Some (Number.of_Z (or_zero (Form.damage formData)));
     Body.kills := Some (Number.of_Z (or_zero (Form.kills formData)));
     Body.deaths := Some (Number.of_Z (or_zero (Form.deaths formData)));
     Body.assists := Some (Number.of_Z (or_zero (Form.assists formData))) |}.

(** [handleSubmit]: the body that is posted, or [None] when the page
    shows its own message and posts nothing. *)
Definition handleSubmit (formData : Form.t) : option Body.t :=
  if negative (Form.roundsWon formData) || negative (Form.roundsLost formData)
  then None
  else Some (dataToSend formData).

(** A form with every text filled in, one number left blank and a
    negative number of kills. *)
Definition sample_form : Form.t :=
  {| Form.date := "2024-05-01"; Form.time := "18:30"; Form.matchType := "Ranked";
     Form.outcome := "Win"; Form.map := "Ascent"; Form.roundsWon := Some 7;
     Form.roundsLost := Some 6; Form.damage := None; Form.kills := Some (-15);
     Form.deaths := Some 10; Form.assists := Some 5 |}.

(** * Binary64 arithmetic *)

(** ** Orders of magnitude *)

Lemma digits2_pos_bounds (p : positive) :
  2 ^ (Z.pos (digits2_pos p) - 1) <= Z.pos p < 2 ^ Z.pos (digits2_pos p).
Proof.
  induction p as [p IH|p IH|]; cbn [digits2_pos].
  - rewrite Pos2Z.inj_succ.
    replace (Z.succ (Z.pos (digits2_pos p)) - 1) with (Z.succ (Z.pos (digits2_pos p) - 1)) by lia.
    rewrite !Z.pow_succ_r by lia. lia.
  - rewrite Pos2Z.inj_succ.
    replace (Z.succ (Z.pos (digits2_pos p)) - 1) with (Z.succ (Z.pos (digits2_pos p) - 1)) by lia.
    rewrite !Z.pow_succ_r by lia. lia.
  - cbn. lia.
Qed.

Lemma Zdigits2_nonneg (z : Z) : 0 <= Zdigits2 z.
Proof. destruct z; cbn; lia. Qed.

Lemma Zdigits2_bounds (z : Z) :
  0 < z -> 2 ^ (Zdigits2 z - 1) <= z < 2 ^ Zdigits2 z.
Proof. destruct z as [|p|p]; try lia. intros _. apply digits2_pos_bounds. Qed.

Lemma Zdigits2_le (z k : Z) : 0 <= k -> 0 <= z < 2 ^ k -> Zdigits2 z <= k.
Proof.
  intros Hk [Hz Hlt].
  destruct (Z.eq_dec z 0) as [->|Hne]; [cbn [Zdigits2]; lia|].
  destruct (Zdigits2_bounds z ltac:(lia)) as [Hlo _].
  destruct (Z_le_gt_dec (Zdigits2 z) k) as [|Hgt]; [assumption|exfalso].
  assert (2 ^ k <= 2 ^ (Zdigits2 z - 1)) by (apply Z.pow_le_mono_r; lia).
  lia.
Qed.

Lemma Zdigits2_ge (z k : Z) : 0 <= k -> 2 ^ k <= z -> k < Zdigits2 z.
Proof.
  intros Hk Hle.
  assert (0 < 2 ^ k) by (apply Z.pow_pos_nonneg; lia).
  destruct (Zdigits2_bounds z ltac:(lia)) as [_ Hhi].
  destruct (Z_lt_le_dec k (Zdigits2 z)) as [|Hge]; [assumption|exfalso].
  assert (2 ^ Zdigits2 z <= 2 ^ k) by (apply Z.pow_le_mono_r; lia).
  lia.
Qed.

(** shifting right *)
Lemma shr_1_m (mrs : shr_record) :
  0 <= shr_m mrs -> shr_m (shr_1 mrs) = shr_m mrs / 2.
Proof.
  destruct mrs as [m r s]. cbn [shr_m]. intros Hm.
  destruct m as [|p|p]; try lia; [reflexivity|].
  destruct p as [p|p|]; cbn [shr_1 shr_m].
  - rewrite Pos2Z.inj_xI. apply Z.div_unique with (r := 1); lia.
  - rewrite Pos2Z.inj_xO. apply Z.div_unique with (r := 0); lia.
  - reflexivity.
Qed.

Lemma pow2_xO (n : positive) : 2 ^ Z.pos n~0 = 2 ^ Z.pos n * 2 ^ Z.pos n.
Proof. rewrite Pos2Z.inj_xO, <- Z.pow_add_r by lia. f_equal. lia. Qed.

Lemma pow2_xI (n : positive) : 2 ^ Z.pos n~1 = 2 * (2 ^ Z.pos n * 2 ^ Z.pos n).
Proof.
  rewrite Pos2Z.inj_xI, <- Z.pow_add_r by lia.
  replace (2 * Z.pos n + 1) with (Z.succ (Z.pos n + Z.pos n)) by lia.
  rewrite Z.pow_succ_r by lia. reflexivity.
Qed.

Lemma iter_shr_1_m (n : positive) (mrs : shr_record) :
  0 <= shr_m mrs ->
  shr_m (SpecFloat.iter_pos shr_1 n mrs) = shr_m mrs / 2 ^ Z.pos n.
Proof.
  revert mrs. induction n as [n IH|n IH|]; intros mrs Hm; cbn [SpecFloat.iter_pos].
  - assert (H1 : 0 <= shr_m (shr_1 mrs)).
    { rewrite shr_1_m by assumption. apply Z.div_pos; lia. }
    assert (H2 : 0 <= shr_m (SpecFloat.iter_pos shr_1 n (shr_1 mrs))).
    { rewrite IH by assumption. apply Z.div_pos; [assumption|]. apply Z.pow_pos_nonneg; lia. }
    rewrite IH, IH, shr_1_m by assumption.
    rewrite !Z.div_div by (try apply Z.pow_pos_nonneg; lia).
    f_equal. rewrite pow2_xI. lia.
  - assert (H2 : 0 <= shr_m (SpecFloat.iter_pos shr_1 n mrs)).
    { rewrite IH by assumption. apply Z.div_pos; [assumption|]. apply Z.pow_pos_nonneg; lia. }
    rewrite IH, IH by assumption.
    rewrite !Z.div_div by (try apply Z.pow_pos_nonneg; lia).
    f_equal. rewrite pow2_xO. lia.
  - rewrite shr_1_m by assumption. reflexivity.
Qed.

Lemma shr_record_of_loc_m (m : Z) (l : location) : shr_m (shr_record_of_loc m l) = m.
Proof. destruct l as [|[]]; reflexivity. Qed.

Lemma shr_fexp_spec (m e : Z) (l : location) :
  0 <= m ->
  shr_m (fst (shr_fexp Number.prec Number.emax m e l)) = m / 2 ^ (snd (shr_fexp Number.prec Number.emax m e l) - e) /\
  snd (shr_fexp Number.prec Number.emax m e l) = Z.max e (fexp Number.prec Number.emax (Zdigits2 m + e)).
Proof.
  intros Hm. unfold shr_fexp, shr.
  destruct (fexp Number.prec Number.emax (Zdigits2 m + e) - e) as [|n|n] eqn:En; cbn [fst snd].
  - rewrite shr_record_of_loc_m, Z.sub_diag, Z.pow_0_r, Z.div_1_r. lia.
  - rewrite iter_shr_1_m by (rewrite shr_record_of_loc_m; assumption).
    rewrite shr_record_of_loc_m. replace (e + Z.pos n - e) with (Z.pos n) by lia. lia.
  - rewrite shr_record_of_loc_m, Z.sub_diag, Z.pow_0_r, Z.div_1_r. lia.
Qed.

Lemma Zdigits2_shift_le (m n : Z) :
  0 <= m -> 0 <= n -> 0 < m / 2 ^ n -> Zdigits2 (m / 2 ^ n) + n <= Zdigits2 m.
Proof.
  intros Hm Hn Hq.
  assert (Hp : 0 < 2 ^ n) by (apply Z.pow_pos_nonneg; lia).
  assert (Hmn : 2 ^ n <= m).
  { destruct (Z_lt_le_dec m (2 ^ n)); [|assumption].
    rewrite Z.div_small in Hq by lia. lia. }
  assert (Hd : n < Zdigits2 m) by (apply Zdigits2_ge; assumption).
  destruct (Zdigits2_bounds m ltac:(lia)) as [_ Hhi].
  assert (Zdigits2 (m / 2 ^ n) <= Zdigits2 m - n); [|lia].
  apply Zdigits2_le; [lia|]. split; [lia|].
  apply Z.div_lt_upper_bound; [assumption|].
  rewrite <- Z.pow_add_r by lia. replace (n + (Zdigits2 m - n)) with (Zdigits2 m) by lia.
  assumption.
Qed.

Lemma Zdigits2_shift_ge (m n : Z) :
  0 < m -> 0 <= n < Zdigits2 m -> Zdigits2 m <= Zdigits2 (m / 2 ^ n) + n.
Proof.
  intros Hm Hn.
  assert (Hp : 0 < 2 ^ n) by (apply Z.pow_pos_nonneg; lia).
  destruct (Zdigits2_bounds m Hm) as [Hlo _].
  assert (Zdigits2 m - n - 1 < Zdigits2 (m / 2 ^ n)); [|lia].
  apply Zdigits2_ge; [lia|].
  apply Z.div_le_lower_bound; [assumption|].
  rewrite <- Z.pow_add_r by lia. replace (n + (Zdigits2 m - n - 1)) with (Zdigits2 m - 1) by lia.
  assumption.
Qed.

Lemma Zdigits2_succ_le (m : Z) : 0 <= m -> Zdigits2 (m + 1) <= Zdigits2 m + 1.
Proof.
  intros Hm. destruct (Z.eq_dec m 0) as [->|Hne]; [vm_compute; discriminate|].
  destruct (Zdigits2_bounds m ltac:(lia)) as [_ Hhi].
  pose proof (Zdigits2_nonneg m).
  apply Zdigits2_le; [lia|]. rewrite Z.pow_add_r by lia. lia.
Qed.

Lemma Zdigits2_mono (a b : Z) : 0 <= a <= b -> Zdigits2 a <= Zdigits2 b.
Proof.
  intros [Ha Hab]. destruct (Z.eq_dec b 0) as [->|Hne].
  - replace a with 0 by lia. lia.
  - destruct (Zdigits2_bounds b ltac:(lia)) as [_ Hhi].
    apply Zdigits2_le; [apply Zdigits2_nonneg|lia].
Qed.

Lemma round_nearest_even_bounds (m : Z) (l : location) :
  m <= round_nearest_even m l <= m + 1.
Proof. destruct l as [|[]]; cbn; try destruct (Z.even m); lia. Qed.

Lemma fexp_eq (x : Z) : fexp Number.prec Number.emax x = Z.max (x - 53) (-1074).
Proof. reflexivity. Qed.

Lemma binary_round_aux_upper (s : bool) (m e : Z) (l : location) (K : Z) :
  0 <= m -> Zdigits2 m + e <= K -> e <= 971 -> -1074 <= K <= 1023 ->
  Number.bounded_by (K + 1) (binary_round_aux Number.prec Number.emax s m e l).
Proof.
  intros Hm HK He HKr. unfold binary_round_aux.
  pose proof (Zdigits2_nonneg m) as Hd.
  destruct (shr_fexp_spec m e l Hm) as [Hm1 He1].
  destruct (shr_fexp Number.prec Number.emax m e l) as [mrs1 e1]. cbn [fst snd] in Hm1, He1.
  rewrite fexp_eq in He1.
  remember (shr_m mrs1) as m1 eqn:Em1.
  assert (Hp1 : 0 < 2 ^ (e1 - e)) by (apply Z.pow_pos_nonneg; lia).
  assert (Hm1' : 0 <= m1) by (rewrite Hm1; apply Z.div_pos; lia).
  assert (Hb1 : Zdigits2 m1 + e1 <= K).
  { destruct (Z.eq_dec m1 0) as [->|Hne]; [cbn [Zdigits2]; lia|].
    pose proof (Zdigits2_shift_le m (e1 - e) Hm ltac:(lia) ltac:(lia)) as H.
    rewrite <- Hm1 in H. lia. }
  set (m2 := round_nearest_even m1 (loc_of_shr_record mrs1)).
  pose proof (round_nearest_even_bounds m1 (loc_of_shr_record mrs1)) as Hr. fold m2 in Hr.
  assert (Hb2 : Zdigits2 m2 + e1 <= K + 1).
  { pose proof (Zdigits2_mono m2 (m1 + 1) ltac:(lia)).
    pose proof (Zdigits2_succ_le m1 Hm1'). lia. }
  destruct (shr_fexp_spec m2 e1 loc_Exact ltac:(lia)) as [Hm3 He3].
  destruct (shr_fexp Number.prec Number.emax m2 e1 loc_Exact) as [mrs3 e3]. cbn [fst snd] in Hm3, He3.
  rewrite fexp_eq in He3.
  assert (Hp3 : 0 < 2 ^ (e3 - e1)) by (apply Z.pow_pos_nonneg; lia).
  destruct (shr_m mrs3) as [|p|p] eqn:E3; cbn [Number.bounded_by]; [exact I| |].
  - replace (e3 <=? Number.emax - Number.prec) with true by (symmetry; apply Z.leb_le; unfold Number.emax, Number.prec; lia).
    cbn [Number.bounded_by].
    pose proof (Zdigits2_shift_le m2 (e3 - e1) ltac:(lia) ltac:(lia) ltac:(lia)) as H.
    rewrite <- Hm3 in H. cbn [Zdigits2] in H. lia.
  - assert (0 <= m2 / 2 ^ (e3 - e1)) by (apply Z.div_pos; lia). lia.
Qed.

Lemma Zdigits2_pos (m : Z) : 0 < m -> 0 < Zdigits2 m.
Proof. destruct m; cbn; lia. Qed.

Lemma Zdigits2_pos_inv (m : Z) : 0 <= m -> 0 < Zdigits2 m -> 0 < m.
Proof. destruct m; cbn; lia. Qed.

Lemma binary_round_aux_lower (m e : Z) (l : location) (K : Z) :
  0 < m -> K <= Zdigits2 m + e -> -1021 <= K ->
  Number.at_least K (binary_round_aux Number.prec Number.emax false m e l).
Proof.
  intros Hm HK HKr. unfold binary_round_aux.
  pose proof (Zdigits2_pos m Hm) as Hd.
  destruct (shr_fexp_spec m e l ltac:(lia)) as [Hm1 He1].
  destruct (shr_fexp Number.prec Number.emax m e l) as [mrs1 e1]. cbn [fst snd] in Hm1, He1.
  rewrite fexp_eq in He1.
  remember (shr_m mrs1) as m1 eqn:Em1.
  pose proof (Zdigits2_shift_ge m (e1 - e) Hm ltac:(lia)) as Hs1. rewrite <- Hm1 in Hs1.
  assert (Hp1 : 0 < 2 ^ (e1 - e)) by (apply Z.pow_pos_nonneg; lia).
  assert (Hm1' : 0 <= m1) by (rewrite Hm1; apply Z.div_pos; lia).
  assert (Hm1p : 0 < m1) by (apply Zdigits2_pos_inv; lia).
  set (m2 := round_nearest_even m1 (loc_of_shr_record mrs1)).
  pose proof (round_nearest_even_bounds m1 (loc_of_shr_record mrs1)) as Hr. fold m2 in Hr.
  pose proof (Zdigits2_mono m1 m2 ltac:(lia)) as Hmono.
  destruct (shr_fexp_spec m2 e1 loc_Exact ltac:(lia)) as [Hm3 He3].
  destruct (shr_fexp Number.prec Number.emax m2 e1 loc_Exact) as [mrs3 e3]. cbn [fst snd] in Hm3, He3.
  rewrite fexp_eq in He3.
  pose proof (Zdigits2_pos m2 ltac:(lia)) as Hd2.
  pose proof (Zdigits2_shift_ge m2 (e3 - e1) ltac:(lia) ltac:(lia)) as Hs3. rewrite <- Hm3 in Hs3.
  destruct (shr_m mrs3) as [|p|p] eqn:E3; cbn [Zdigits2] in Hs3.
  - lia.
  - destruct (e3 <=? Number.emax - Number.prec); cbn [Number.at_least]; [split; [reflexivity|lia]|reflexivity].
  - assert (0 <= m2 / 2 ^ (e3 - e1)); [|lia].
    apply Z.div_pos; [lia|]. apply Z.pow_pos_nonneg; lia.
Qed.

Lemma SFdiv_core_binary_spec (mx : positive) (ex : Z) (my : positive) (ey : Z) :
  let D := Z.pos (digits2_pos mx) + ex - (Z.pos (digits2_pos my) + ey) in
  let '(q, e', l) := SFdiv_core_binary Number.prec Number.emax (Z.pos mx) ex (Z.pos my) ey in
  0 <= q /\ e' <= fexp Number.prec Number.emax D /\ Zdigits2 q + e' <= Z.max (D + 1) (-1074).
Proof.
  intros D. unfold SFdiv_core_binary. cbn [Zdigits2]. fold D.
  set (e' := Z.min (fexp Number.prec Number.emax D) (ex - ey)).
  assert (He' : e' <= fexp Number.prec Number.emax D /\ e' <= ex - ey) by (unfold e'; lia).
  clearbody e'.
  set (s := ex - ey - e').
  assert (Hs : 0 <= s) by (unfold s; lia).
  set (m' := match s with Z.pos _ => Z.shiftl (Z.pos mx) s | 0 => Z.pos mx | Z.neg _ => 0 end).
  assert (Hm' : m' = Z.pos mx * 2 ^ s).
  { unfold m'. destruct s as [|p|p] eqn:Es; [rewrite Z.pow_0_r; lia| |lia].
    apply Z.shiftl_mul_pow2. lia. }
  clearbody m'.
  pose proof (Z_div_mod m' (Z.pos my) ltac:(lia)) as Hdm.
  destruct (Z.div_eucl m' (Z.pos my)) as [q r]. destruct Hdm as [Hq Hr].
  assert (Hps : 0 < 2 ^ s) by (apply Z.pow_pos_nonneg; lia).
  assert (Hq0 : 0 <= q) by nia.
  split; [assumption|]. split; [lia|].
  rewrite fexp_eq in He'.
  destruct (Z.eq_dec q 0) as [->|Hne]; [cbn [Zdigits2]; lia|].
  destruct (digits2_pos_bounds mx) as [_ Hxhi].
  destruct (digits2_pos_bounds my) as [Hylo _].
  set (dx := Z.pos (digits2_pos mx)) in *. set (dy := Z.pos (digits2_pos my)) in *.
  assert (Hpy : 0 < 2 ^ (dy - 1)) by (apply Z.pow_pos_nonneg; lia).
  assert (Hlt : 2 ^ (dy - 1) * q < 2 ^ (dx + s)).
  { rewrite Z.pow_add_r by lia. nia. }
  assert (Hk : dy - 1 < dx + s).
  { destruct (Z_lt_le_dec (dy - 1) (dx + s)); [assumption|exfalso].
    assert (2 ^ (dx + s) <= 2 ^ (dy - 1)) by (apply Z.pow_le_mono_r; lia). nia. }
  assert (Hqk : q < 2 ^ (dx + s - dy + 1)).
  { apply Z.mul_lt_mono_pos_l with (p := 2 ^ (dy - 1)); [assumption|].
    rewrite <- Z.pow_add_r by lia.
    replace (dy - 1 + (dx + s - dy + 1)) with (dx + s) by lia. assumption. }
  pose proof (Zdigits2_le q (dx + s - dy + 1) ltac:(lia) ltac:(lia)).
  unfold s, D in *. lia.
Qed.

Lemma SFdiv_finite_upper (sx : bool) (mx : positive) (ex : Z) (sy : bool) (my : positive) (ey : Z) :
  let D := Z.pos (digits2_pos mx) + ex - (Z.pos (digits2_pos my) + ey) in
  D <= 1022 ->
  Number.bounded_by (Z.max (D + 1) (-1074) + 1)
    (SFdiv Number.prec Number.emax (S754_finite sx mx ex) (S754_finite sy my ey)).
Proof.
  intros D HD. cbn [SFdiv].
  pose proof (SFdiv_core_binary_spec mx ex my ey) as H. cbv zeta in H. fold D in H.
  destruct (SFdiv_core_binary Number.prec Number.emax (Z.pos mx) ex (Z.pos my) ey) as [[q e'] l].
  destruct H as (Hq & He & Hb). rewrite fexp_eq in He.
  apply binary_round_aux_upper; lia.
Qed.

Lemma digits2_pos_iter_xO (m d : positive) :
  Z.pos (digits2_pos (Pos.iter xO m d)) = Z.pos (digits2_pos m) + Z.pos d.
Proof.
  induction d as [|d IH] using Pos.peano_ind.
  - cbn. lia.
  - rewrite Pos.iter_succ. cbn [digits2_pos]. lia.
Qed.

Lemma shl_align_spec (mx : positive) (ex ex' : Z) :
  Z.pos (digits2_pos (fst (shl_align mx ex ex'))) + snd (shl_align mx ex ex') =
    Z.pos (digits2_pos mx) + ex /\
  snd (shl_align mx ex ex') <= ex.
Proof.
  unfold shl_align. destruct (ex' - ex) as [|d|d] eqn:E; cbn [fst snd]; try lia.
  rewrite digits2_pos_iter_xO. lia.
Qed.

Lemma binary_round_upper (s : bool) (mx : positive) (ex K : Z) :
  Z.pos (digits2_pos mx) + ex <= K -> ex <= 971 -> -1074 <= K <= 1023 ->
  Number.bounded_by (K + 1) (binary_round Number.prec Number.emax s mx ex).
Proof.
  intros HK He HKr. unfold binary_round.
  destruct (shl_align_spec mx ex (fexp Number.prec Number.emax (Z.pos (digits2_pos mx) + ex))) as [Hd Hle].
  destruct (shl_align mx ex _) as [mz ez]. cbn [fst snd] in Hd, Hle.
  apply binary_round_aux_upper; cbn [Zdigits2]; lia.
Qed.

Lemma binary_round_lower (mx : positive) (ex K : Z) :
  K <= Z.pos (digits2_pos mx) + ex -> -1021 <= K ->
  Number.at_least K (binary_round Number.prec Number.emax false mx ex).
Proof.
  intros HK HKr. unfold binary_round.
  destruct (shl_align_spec mx ex (fexp Number.prec Number.emax (Z.pos (digits2_pos mx) + ex))) as [Hd Hle].
  destruct (shl_align mx ex _) as [mz ez]. cbn [fst snd] in Hd, Hle.
  apply binary_round_aux_lower; cbn [Zdigits2]; lia.
Qed.

Lemma SFmul_upper (x y : spec_float) (K1 K2 : Z) :
  Number.bounded_by K1 x -> Number.bounded_by K2 y -> -1074 <= K1 + K2 <= 973 ->
  Number.bounded_by (K1 + K2 + 1) (SFmul Number.prec Number.emax x y).
Proof.
  destruct x as [sx|sx| |sx mx ex], y as [sy|sy| |sy my ey]; cbn [Number.bounded_by SFmul];
    try tauto.
  intros H1 H2 HK.
  destruct (digits2_pos_bounds mx) as [_ Hx]. destruct (digits2_pos_bounds my) as [_ Hy].
  apply binary_round_aux_upper; try lia.
  assert (Zdigits2 (Z.pos (mx * my)) <= Z.pos (digits2_pos mx) + Z.pos (digits2_pos my)); [|lia].
  apply Zdigits2_le; [lia|]. rewrite Z.pow_add_r by lia. rewrite Pos2Z.inj_mul. nia.
Qed.

(** ** Results that need no rounding *)


Lemma shr_1_exact (m : Z) :
  0 <= m -> (2 | m) -> shr_1 (Number.exact_rec m) = Number.exact_rec (m / 2).
Proof.
  intros Hm [k ->]. rewrite Z.div_mul by lia.
  destruct k as [|p|p]; try lia; [reflexivity|].
  replace (Z.pos p * 2) with (Z.pos p~0) by lia. reflexivity.
Qed.

Lemma iter_shr_1_exact (n : positive) (m : Z) :
  0 <= m -> (2 ^ Z.pos n | m) ->
  SpecFloat.iter_pos shr_1 n (Number.exact_rec m) = Number.exact_rec (m / 2 ^ Z.pos n).
Proof.
  revert m. induction n as [n IH|n IH|]; intros m Hm [k Hk]; cbn [SpecFloat.iter_pos].
  - rewrite pow2_xI in *. set (q := 2 ^ Z.pos n) in *.
    assert (Hq : 0 < q) by (apply Z.pow_pos_nonneg; lia).
    assert (Hk0 : 0 <= k) by nia.
    assert (H1 : m / 2 = k * q * q) by (symmetry; apply Z.div_unique with (r := 0); lia).
    assert (H2 : k * q * q / q = k * q) by (apply Z.div_mul; lia).
    assert (H3 : k * q / q = k) by (apply Z.div_mul; lia).
    assert (H4 : m / (2 * (q * q)) = k)
      by (symmetry; apply Z.div_unique with (r := 0); nia).
    rewrite shr_1_exact, H1; [|lia|exists (k * (q * q)); lia].
    rewrite IH, H2; [|nia|exists (k * q); lia].
    rewrite IH, H3; [|nia|exists k; lia].
    rewrite H4. reflexivity.
  - rewrite pow2_xO in *. set (q := 2 ^ Z.pos n) in *.
    assert (Hq : 0 < q) by (apply Z.pow_pos_nonneg; lia).
    assert (Hk0 : 0 <= k) by nia.
    assert (H2 : m / q = k * q) by (symmetry; apply Z.div_unique with (r := 0); nia).
    assert (H3 : k * q / q = k) by (apply Z.div_mul; lia).
    assert (H4 : m / (q * q) = k)
      by (symmetry; apply Z.div_unique with (r := 0); nia).
    rewrite IH, H2; [|lia|exists (k * q); lia].
    rewrite IH, H3; [|nia|exists k; lia].
    rewrite H4. reflexivity.
  - apply shr_1_exact; [assumption|]. exists k. assumption.
Qed.

Lemma shr_fexp_exact (m e : Z) :
  0 < m ->
  let E := fexp Number.prec Number.emax (Zdigits2 m + e) in
  e <= E -> (2 ^ (E - e) | m) ->
  shr_fexp Number.prec Number.emax m e loc_Exact = (Number.exact_rec (m / 2 ^ (E - e)), E).
Proof.
  intros Hm E HE Hdiv. unfold shr_fexp, shr. fold E.
  change (shr_record_of_loc m loc_Exact) with (Number.exact_rec m).
  destruct (E - e) as [|n|n] eqn:En; try lia.
  - rewrite Z.pow_0_r, Z.div_1_r. f_equal. lia.
  - rewrite iter_shr_1_exact by (assumption || lia). f_equal. lia.
Qed.

Lemma Zdigits2_div_exact (m n : Z) :
  0 < m -> 0 <= n -> (2 ^ n | m) -> Zdigits2 (m / 2 ^ n) = Zdigits2 m - n.
Proof.
  intros Hm Hn [k Hk].
  assert (Hp : 0 < 2 ^ n) by (apply Z.pow_pos_nonneg; lia).
  assert (Hkpos : 0 < k) by nia.
  assert (Hq : m / 2 ^ n = k) by (subst m; apply Z.div_mul; lia).
  assert (Hlt : n < Zdigits2 m).
  { apply Zdigits2_ge; [assumption|]. nia. }
  pose proof (Zdigits2_shift_le m n ltac:(lia) Hn ltac:(lia)).
  pose proof (Zdigits2_shift_ge m n Hm ltac:(lia)).
  lia.
Qed.

(** Rounding a value that needs no rounding. *)
Lemma binary_round_aux_exact (s : bool) (m e : Z) :
  0 < m ->
  let E := fexp Number.prec Number.emax (Zdigits2 m + e) in
  e <= E -> (2 ^ (E - e) | m) -> E <= 971 ->
  exists M : positive,
    Z.pos M = m / 2 ^ (E - e) /\
    binary_round_aux Number.prec Number.emax s m e loc_Exact = S754_finite s M E.
Proof.
  intros Hm E HE Hdiv Hmax. unfold binary_round_aux.
  rewrite shr_fexp_exact by assumption. fold E.
  cbn [Number.exact_rec shr_m loc_of_shr_record round_nearest_even].
  set (m' := m / 2 ^ (E - e)).
  assert (Hd : Zdigits2 m' = Zdigits2 m - (E - e))
    by (apply Zdigits2_div_exact; assumption || lia).
  assert (Hm' : 0 < m').
  { destruct Hdiv as [k Hk]. unfold m'. rewrite Hk, Z.div_mul.
    - assert (0 < 2 ^ (E - e)) by (apply Z.pow_pos_nonneg; lia). nia.
    - apply Z.pow_nonzero; lia. }
  assert (HE' : fexp Number.prec Number.emax (Zdigits2 m' + E) = E).
  { rewrite Hd. replace (Zdigits2 m - (E - e) + E) with (Zdigits2 m + e) by lia. reflexivity. }
  rewrite (shr_fexp_exact m' E Hm'); rewrite HE'; [|lia|rewrite Z.sub_diag; exists m'; lia].
  rewrite Z.sub_diag, Z.pow_0_r, Z.div_1_r. cbn [Number.exact_rec shr_m].
  destruct m' as [|M|M] eqn:EM; try lia.
  exists M. split; [reflexivity|].
  replace (E <=? Number.emax - Number.prec) with true by (symmetry; apply Z.leb_le; unfold Number.emax, Number.prec; lia).
  reflexivity.
Qed.

Lemma Zpos_iter_xO (m d : positive) :
  Z.pos (Pos.iter xO m d) = Z.pos m * 2 ^ Z.pos d.
Proof.
  induction d as [|d IH] using Pos.peano_ind.
  - cbn. lia.
  - rewrite Pos.iter_succ, Pos2Z.inj_xO, IH, Pos2Z.inj_succ, Z.pow_succ_r by lia. lia.
Qed.

(** [binary_round] of a representable value: the mantissa is moved to the
    canonical exponent. *)
Lemma binary_round_exact (s : bool) (mx : positive) (ex : Z) :
  let E := fexp Number.prec Number.emax (Z.pos (digits2_pos mx) + ex) in
  (ex <= E -> (2 ^ (E - ex) | Z.pos mx)) -> E <= 971 ->
  exists M : positive,
    (if E <=? ex then Z.pos M = Z.pos mx * 2 ^ (ex - E)
     else Z.pos M = Z.pos mx / 2 ^ (E - ex)) /\
    binary_round Number.prec Number.emax s mx ex = S754_finite s M E.
Proof.
  intros E Hdiv Hmax. unfold binary_round, shl_align. fold E.
  destruct (Z_lt_le_dec E ex) as [Hlt|Hle].
  - destruct (E - ex) as [|d|d] eqn:Ed; try lia.
    pose proof (digits2_pos_iter_xO mx d) as Hdig.
    pose proof (Zpos_iter_xO mx d) as Hval.
    assert (HE : fexp Number.prec Number.emax (Zdigits2 (Z.pos (Pos.iter xO mx d)) + E) = E).
    { cbn [Zdigits2]. rewrite Hdig.
      replace (Z.pos (digits2_pos mx) + Z.pos d + E) with (Z.pos (digits2_pos mx) + ex) by lia.
      reflexivity. }
    destruct (binary_round_aux_exact s (Z.pos (Pos.iter xO mx d)) E ltac:(lia)) as (M & HM & HR);
      rewrite ?HE; try lia.
    { rewrite Z.sub_diag. exists (Z.pos (Pos.iter xO mx d)). lia. }
    rewrite HE in HM, HR.
    exists M. rewrite HR. split; [|reflexivity].
    replace (E <=? ex) with true by (symmetry; apply Z.leb_le; lia).
    rewrite HM, Z.sub_diag, Z.pow_0_r, Z.div_1_r, Hval. f_equal. f_equal. lia.
  - specialize (Hdiv Hle).
    destruct (binary_round_aux_exact s (Z.pos mx) ex ltac:(lia)) as (M & HM & HR);
      cbn [Zdigits2]; fold E; try assumption.
    cbn [Zdigits2] in HM, HR. fold E in HM, HR.
    assert (Hshape : match E - ex with Z.neg d => (Pos.iter xO mx d, E) | _ => (mx, ex) end = (mx, ex)).
    { destruct (E - ex) eqn:Ed; try reflexivity. lia. }
    rewrite Hshape, HR. exists M. split; [|reflexivity].
    destruct (E <=? ex) eqn:Hb; [|assumption].
    apply Z.leb_le in Hb. rewrite HM.
    replace (E - ex) with 0 by lia. replace (ex - E) with 0 by lia.
    rewrite Z.pow_0_r, Z.div_1_r. lia.
Qed.

Lemma Zdigits2_mul_pow2 (m k : Z) :
  0 < m -> 0 <= k -> Zdigits2 (m * 2 ^ k) = Zdigits2 m + k.
Proof.
  intros Hm Hk.
  assert (Hp : 0 < 2 ^ k) by (apply Z.pow_pos_nonneg; lia).
  destruct (Zdigits2_bounds m Hm) as [Hlo Hhi].
  pose proof (Zdigits2_pos m Hm) as Hd.
  apply Z.le_antisymm.
  - apply Zdigits2_le; [lia|]. rewrite Z.pow_add_r by lia. nia.
  - assert (Zdigits2 m + k - 1 < Zdigits2 (m * 2 ^ k)); [|lia].
    apply Zdigits2_ge; [lia|].
    replace (Zdigits2 m + k - 1) with (Zdigits2 m - 1 + k) by lia.
    rewrite Z.pow_add_r by lia. nia.
Qed.

Lemma pow2_split (a b : Z) : 0 <= a -> 0 <= b -> 2 ^ (a + b) = 2 ^ a * 2 ^ b.
Proof. intros. apply Z.pow_add_r; assumption. Qed.

(** The same value with the mantissa shifted left rounds to the same
    Number. *)
Lemma binary_round_scale (s : bool) (m m' : positive) (k e : Z) :
  0 <= k -> Z.pos m' = Z.pos m * 2 ^ k ->
  let E := fexp Number.prec Number.emax (Z.pos (digits2_pos m) + e) in
  (e <= E -> (2 ^ (E - e) | Z.pos m)) -> E <= 971 ->
  binary_round Number.prec Number.emax s m' (e - k) = binary_round Number.prec Number.emax s m e.
Proof.
  intros Hk Hm' E Hdiv Hmax.
  assert (Hpk : 0 < 2 ^ k) by (apply Z.pow_pos_nonneg; lia).
  assert (Hd : Z.pos (digits2_pos m') = Z.pos (digits2_pos m) + k).
  { change (Zdigits2 (Z.pos m') = Zdigits2 (Z.pos m) + k).
    rewrite Hm'. apply Zdigits2_mul_pow2; lia. }
  assert (HE' : fexp Number.prec Number.emax (Z.pos (digits2_pos m') + (e - k)) = E).
  { rewrite Hd. unfold E. f_equal. lia. }
  destruct (binary_round_exact s m e Hdiv Hmax) as (M & HM & ->). fold E in HM.
  destruct (binary_round_exact s m' (e - k)) as (M' & HM' & ->); rewrite ?HE'; try assumption.
  { intros Hle. rewrite Hm'.
    destruct (Z_le_gt_dec E e) as [HEe|HEe].
    - exists (Z.pos m * 2 ^ (e - E)).
      replace k with ((e - E) + (E - (e - k))) at 1 by lia.
      rewrite pow2_split by lia. lia.
    - destruct (Hdiv ltac:(lia)) as [c Hc]. exists c. rewrite Hc.
      replace (E - (e - k)) with ((E - e) + k) by lia.
      rewrite pow2_split by lia. lia. }
  rewrite HE' in HM'. f_equal. apply Pos2Z.inj.
  destruct (E <=? e) eqn:Hb1; [apply Z.leb_le in Hb1|apply Z.leb_gt in Hb1].
  - rewrite HM. destruct (E <=? e - k) eqn:Hb2; [apply Z.leb_le in Hb2|apply Z.leb_gt in Hb2].
    + rewrite HM', Hm', <- Z.mul_assoc, <- pow2_split by lia. f_equal. f_equal. lia.
    + rewrite HM', Hm'.
      replace k with ((e - E) + (E - (e - k))) at 1 by lia.
      rewrite pow2_split, Z.mul_assoc by lia.
      apply Z.div_mul. apply Z.pow_nonzero; lia.
  - replace (E <=? e - k) with false in HM' by (symmetry; apply Z.leb_gt; lia).
    destruct (Hdiv ltac:(lia)) as [c Hc].
    rewrite HM, HM', Hm', Hc.
    rewrite Z.div_mul by (apply Z.pow_nonzero; lia).
    replace (E - (e - k)) with ((E - e) + k) by lia.
    rewrite pow2_split, <- Z.mul_assoc by lia.
    apply Z.div_mul. 
    assert (0 < 2 ^ (E - e)) by (apply Z.pow_pos_nonneg; lia). nia.
Qed.


(** The Number of a positive integer up to 2^53, written out. *)
Lemma of_Z_exact (p : positive) :
  Z.pos p <= 2 ^ 53 ->
  let E := Z.pos (digits2_pos p) - 53 in
  exists M : positive,
    (if E <=? 0 then Z.pos M = Z.pos p * 2 ^ (- E) else Z.pos M * 2 ^ E = Z.pos p) /\
    Number.of_Z (Z.pos p) = S754_finite false M E.
Proof.
  intros Hp E. unfold Number.of_Z. cbn [binary_normalize].
  destruct (digits2_pos_bounds p) as [Hlo Hhi].
  assert (Hd : Z.pos (digits2_pos p) <= 54).
  { change (Zdigits2 (Z.pos p) <= 54). apply Zdigits2_le; [lia|].
    change (2 ^ 54) with 18014398509481984. change (2 ^ 53) with 9007199254740992 in Hp. lia. }
  assert (HE : fexp Number.prec Number.emax (Z.pos (digits2_pos p) + 0) = E).
  { rewrite fexp_eq. unfold E. lia. }
  assert (Hdiv : 0 <= E -> (2 ^ (E - 0) | Z.pos p)).
  { intros HE0. rewrite Z.sub_0_r.
    assert (H01 : E = 0 \/ E = 1) by (unfold E; lia).
    destruct H01 as [H0|H1].
    - rewrite H0. exists (Z.pos p). lia.
    - rewrite H1. assert (H : Z.pos p = 2 ^ 53).
      { replace (Z.pos (digits2_pos p) - 1) with 53 in Hlo by (unfold E in *; lia). lia. }
      exists (2 ^ 52). rewrite H. reflexivity. }
  destruct (binary_round_exact false p 0) as (M & HM & HR); rewrite ?HE; try assumption; [unfold E; lia|].
  rewrite ?HE in HM. rewrite HE in HR. exists M. split; [|exact HR].
  destruct (E <=? 0) eqn:Hb.
  - rewrite HM. replace (0 - E) with (- E) by lia. reflexivity.
  - apply Z.leb_gt in Hb. destruct (Hdiv ltac:(lia)) as [c Hc].
    rewrite Z.sub_0_r in HM, Hc. rewrite HM, Hc.
    rewrite Z.div_mul by (apply Z.pow_nonzero; lia). reflexivity.
Qed.

Lemma shl_align_fst (m : positive) (e e' : Z) :
  e' <= e -> Z.pos (fst (shl_align m e e')) = Z.pos m * 2 ^ (e - e').
Proof.
  intros Hle. unfold shl_align.
  destruct (e' - e) as [|d|d] eqn:Ed; cbn [fst]; try lia.
  - replace (e - e') with 0 by lia. rewrite Z.pow_0_r. lia.
  - rewrite Zpos_iter_xO. f_equal. f_equal. lia.
Qed.

(** Adding two integers is exact as long as the sum is at most 2^53. *)
Lemma add_of_Z (a b : Z) :
  0 <= a -> 0 <= b -> a + b <= 2 ^ 53 ->
  SFadd Number.prec Number.emax (Number.of_Z a) (Number.of_Z b) = Number.of_Z (a + b).
Proof.
  intros Ha Hb Hab.
  destruct a as [|a|a]; try lia; [destruct b as [|b|b]; try lia; [reflexivity|]|].
  { rewrite Z.add_0_l. change (Number.of_Z 0) with (S754_zero false).
    destruct (of_Z_exact b ltac:(lia)) as (M & _ & ->). reflexivity. }
  destruct b as [|b|b]; try lia.
  { rewrite Z.add_0_r. change (Number.of_Z 0) with (S754_zero false).
    destruct (of_Z_exact a ltac:(lia)) as (M & _ & ->). reflexivity. }
  change (2 ^ 53) with 9007199254740992 in Hab.
  destruct (of_Z_exact a) as (Ma & HMa & ->); [change (2 ^ 53) with 9007199254740992; lia|].
  destruct (of_Z_exact b) as (Mb & HMb & ->); [change (2 ^ 53) with 9007199254740992; lia|].
  set (Ea := Z.pos (digits2_pos a) - 53) in *. set (Eb := Z.pos (digits2_pos b) - 53) in *.
  assert (HEa : Ea <= 0).
  { assert (Zdigits2 (Z.pos a) <= 53); [|cbn [Zdigits2] in *; unfold Ea; lia].
    apply Zdigits2_le; [lia|]. change (2 ^ 53) with 9007199254740992. lia. }
  assert (HEb : Eb <= 0).
  { assert (Zdigits2 (Z.pos b) <= 53); [|cbn [Zdigits2] in *; unfold Eb; lia].
    apply Zdigits2_le; [lia|]. change (2 ^ 53) with 9007199254740992. lia. }
  replace (Ea <=? 0) with true in HMa by (symmetry; apply Z.leb_le; lia).
  replace (Eb <=? 0) with true in HMb by (symmetry; apply Z.leb_le; lia).
  cbn [SFadd cond_Zopp].
  set (ez := Z.min Ea Eb).
  rewrite !shl_align_fst by (unfold ez; lia).
  rewrite HMa, HMb, <- !Z.mul_assoc, <- !pow2_split by (unfold ez; lia).
  replace (- Ea + (Ea - ez)) with (- ez) by lia.
  replace (- Eb + (Eb - ez)) with (- ez) by lia.
  rewrite <- Z.mul_add_distr_r.
  assert (Hpz : 0 < 2 ^ (- ez)) by (apply Z.pow_pos_nonneg; unfold ez; lia).
  destruct ((Z.pos a + Z.pos b) * 2 ^ (- ez)) as [|S|S] eqn:ES; try nia.
  cbn [binary_normalize]. unfold Number.of_Z. cbn [Z.add binary_normalize].
  replace (binary_round Number.prec Number.emax false S ez)
    with (binary_round Number.prec Number.emax false S (0 - (- ez))) by (f_equal; lia).
  apply binary_round_scale.
  - unfold ez; lia.
  - rewrite <- ES. reflexivity.
  - intros HE. rewrite Z.sub_0_r.
    destruct (of_Z_exact (a + b)) as (M & HM & _); [change (2 ^ 53) with 9007199254740992; lia|].
    rewrite fexp_eq, Z.add_0_r in *.
    set (d := Z.pos (digits2_pos (a + b))) in *.
    assert (Hd1 : 1 <= d) by (unfold d; lia).
    replace (Z.max (d - 53) (-1074)) with (d - 53) in * by lia.
    destruct (d - 53 <=? 0) eqn:Hb'; [apply Z.leb_le in Hb'|apply Z.leb_gt in Hb'].
    + replace (d - 53) with 0 by lia. exists (Z.pos (a + b)). lia.
    + exists (Z.pos M). lia.
  - rewrite fexp_eq.
    assert (Zdigits2 (Z.pos (a + b)) <= 54); [|cbn [Zdigits2] in *; lia].
    apply Zdigits2_le; [lia|]. change (2 ^ 54) with 18014398509481984. lia.
Qed.


Lemma to_Z_of_Z (z : Z) : 0 <= z <= 2 ^ 53 -> Number.to_Z (Number.of_Z z) = Some z.
Proof.
  intros [Hz Hz']. destruct z as [|p|p]; try lia; [reflexivity|].
  destruct (of_Z_exact p Hz') as (M & HM & ->). cbn [Number.to_Z cond_Zopp].
  set (E := Z.pos (digits2_pos p) - 53) in *.
  destruct (0 <=? E) eqn:Hb; [apply Z.leb_le in Hb|apply Z.leb_gt in Hb].
  - destruct (E <=? 0) eqn:Hb'; [apply Z.leb_le in Hb'|]; [|congruence].
    replace E with 0 in * by lia. rewrite Z.pow_0_r in *. f_equal. cbn in HM. lia.
  - replace (E <=? 0) with true in HM by (symmetry; apply Z.leb_le; lia).
    rewrite HM, Z.mod_mul, Z.eqb_refl, Z.div_mul by (apply Z.pow_nonzero; lia).
    reflexivity.
Qed.

(** ** Numbers of counters *)

Lemma bounded_by_weaken (K K' : Z) (x : Number.t) :
  K <= K' -> Number.bounded_by K x -> Number.bounded_by K' x.
Proof. intros HK. destruct x; cbn [Number.bounded_by]; lia || tauto. Qed.

Lemma bounded_by_finite (K : Z) (x : Number.t) :
  Number.bounded_by K x -> Number.is_finite x = true.
Proof. destruct x; cbn; tauto. Qed.

Lemma exact_limit_Z : Z.of_N exact_limit = 2 ^ 53.
Proof. reflexivity. Qed.

Lemma of_N_upper (a : N) (k : Z) :
  Z.of_N a < 2 ^ k -> 0 <= k <= 1023 ->
  Number.bounded_by (k + 1) (Number.of_N a).
Proof.
  intros Ha Hk. destruct a as [|p]; [exact I|].
  unfold Number.of_N, Number.of_Z. cbn [Z.of_N binary_normalize].
  apply binary_round_upper; try lia.
  apply (Zdigits2_le (Z.pos p)); cbn [Z.of_N] in Ha; lia.
Qed.

Lemma of_N_lower (a : N) :
  (0 < a)%N -> Number.at_least 1 (Number.of_N a).
Proof.
  intros Ha. destruct a as [|p]; [lia|].
  unfold Number.of_N, Number.of_Z. cbn [Z.of_N binary_normalize].
  apply binary_round_lower; lia.
Qed.

(** The quotient of two counters, the divisor not 0, is zero or finite. *)
Lemma div_of_N_upper (a b : N) (k : Z) :
  Z.of_N a < 2 ^ k -> 0 <= k <= 1022 -> (0 < b)%N ->
  Number.bounded_by (k + 2) (Number.div (Number.of_N a) (Number.of_N b)).
Proof.
  intros Ha Hk Hb. unfold Number.div.
  pose proof (of_N_upper a k Ha ltac:(lia)) as Hx.
  pose proof (of_N_lower b Hb) as Hy.
  destruct (Number.of_N a) as [sx|sx| |sx mx ex], (Number.of_N b) as [sy|sy| |sy my ey];
    cbn [Number.bounded_by Number.at_least] in Hx, Hy; try tauto; try exact I.
  destruct Hy as [_ Hy].
  eapply bounded_by_weaken; [|apply SFdiv_finite_upper]; lia.
Qed.

Lemma scaled_digits_upper (m : positive) (e : Z) (f : N) :
  Number.ge_1e21 m e = false ->
  Number.scaled_digits m e f <= 10 ^ 21 * 10 ^ Z.of_N f.
Proof.
  unfold Number.ge_1e21, Number.scaled_digits.
  assert (Hp : 0 < 10 ^ Z.of_N f) by (apply Z.pow_pos_nonneg; lia).
  destruct (0 <=? e) eqn:He; intros Hlt; apply Z.leb_gt in Hlt.
  - nia.
  - apply Z.leb_gt in He.
    assert (Hw : 0 < 2 ^ (- e)) by (apply Z.pow_pos_nonneg; lia).
    apply Z.lt_succ_r. apply Z.div_lt_upper_bound; [lia|]. nia.
Qed.

(** [parseFloat(x.toFixed(f))] of a finite Number is finite. *)
Lemma round_to_finite (f : N) (x : Number.t) :
  (f <= 100)%N -> Number.is_finite x = true ->
  Number.is_finite (Number.round_to f x) = true.
Proof.
  intros Hf Hx. unfold Number.round_to.
  destruct x as [s|s| |s m e]; try discriminate; [reflexivity|].
  unfold Number.toFixed. destruct (Number.ge_1e21 m e) eqn:Hge; [reflexivity|].
  pose proof (scaled_digits_upper m e f Hge) as Hn.
  cbn [Number.parseFloat].
  destruct (Number.scaled_digits m e f) as [|p|p]; try reflexivity.
  unfold Number.literal, Number.of_fraction.
  apply bounded_by_finite with (K := 404).
  assert (Hpow : 10 ^ Z.of_N f <= 10 ^ 100) by (apply Z.pow_le_mono_r; lia).
  assert (Hbig : 10 ^ 21 * 10 ^ 100 < 2 ^ 402) by (vm_compute; reflexivity).
  assert (Hd : Zdigits2 (Z.pos p) <= 402) by (apply Zdigits2_le; lia).
  cbn [Zdigits2] in Hd.
  eapply bounded_by_weaken; [|apply SFdiv_finite_upper]; lia.
Qed.

Lemma div_of_N_finite (a b : N) :
  (a <= exact_limit)%N -> (0 < b)%N ->
  Number.is_finite (Number.div (Number.of_N a) (Number.of_N b)) = true.
Proof.
  intros Ha Hb. apply bounded_by_finite with (K := 56).
  apply (div_of_N_upper a b 54); [|lia|assumption].
  apply N2Z.inj_le in Ha. rewrite exact_limit_Z in Ha.
  change (2 ^ 54) with 18014398509481984. change (2 ^ 53) with 9007199254740992 in Ha. lia.
Qed.

Lemma of_N_finite (a : N) :
  (a <= exact_limit)%N -> Number.is_finite (Number.of_N a) = true.
Proof.
  intros Ha. apply bounded_by_finite with (K := 55).
  apply (of_N_upper a 54); [|lia].
  apply N2Z.inj_le in Ha. rewrite exact_limit_Z in Ha.
  change (2 ^ 54) with 18014398509481984. change (2 ^ 53) with 9007199254740992 in Ha. lia.
Qed.

(** [n > 0] on the Number of a counter. *)
Lemma gt_of_N (a : N) : Number.gt (Number.of_N a) Number.zero = (0 <? a)%N.
Proof.
  destruct (N.ltb_spec 0 a) as [Ha|Ha].
  - pose proof (of_N_lower a Ha) as H.
    destruct (Number.of_N a) as [s|s| |s m e]; cbn [Number.at_least] in H; try tauto.
    + subst s. reflexivity.
    + destruct H as [-> _]. reflexivity.
  - replace a with 0%N by lia. reflexivity.
Qed.

Lemma of_N_nonzero (a : N) :
  (0 < a)%N -> Number.is_zero (Number.of_N a) = false.
Proof.
  intros Ha. pose proof (of_N_lower a Ha) as H.
  destruct (Number.of_N a); cbn in *; tauto.
Qed.

(** [+] on two counters is their sum when that is at most 2^53. *)
Lemma add_of_N (a b : N) :
  (a + b <= exact_limit)%N ->
  Number.add (Number.of_N a) (Number.of_N b) = Number.of_N (a + b).
Proof.
  intros Hab. unfold Number.add, Number.of_N. rewrite N2Z.inj_add.
  apply add_of_Z; try lia.
  apply N2Z.inj_le in Hab. rewrite exact_limit_Z, N2Z.inj_add in Hab. assumption.
Qed.

(** The Number of a counter up to 2^53 is that integer. *)
Lemma to_Z_of_N (a : N) :
  (a <= exact_limit)%N -> Number.to_Z (Number.of_N a) = Some (Z.of_N a).
Proof.
  intros Ha. apply to_Z_of_Z. split; [lia|].
  apply N2Z.inj_le in Ha. rewrite exact_limit_Z in Ha. assumption.
Qed.

(** ** The arithmetic of JavaScript, as the definitions compute it *)

(** 0.1 + 0.2 is 0.30000000000000004. *)
Example add_tenths :
  Number.add (Number.literal false 1 1) (Number.literal false 2 1) =
  Number.literal false 30000000000000004 17.
Proof. vm_compute. reflexivity. Qed.

(** 9007199254740992 + 1 is 9007199254740992. *)
Example add_beyond_2p53 :
  Number.add (Number.of_Z (2 ^ 53)) (Number.of_Z 1) = Number.of_Z (2 ^ 53).
Proof. vm_compute. reflexivity. Qed.

(** 1 / 0 is Infinity and 0 / 0 is NaN: what the guards on totalDeaths
    and totalRounds keep away. *)
Example div_by_zero :
  Number.div (Number.of_N 1) Number.zero = S754_infinity false /\
  Number.div Number.zero Number.zero = S754_nan.
Proof. vm_compute. split; reflexivity. Qed.

(** (1.005).toFixed(2) is "1.00", (0.125).toFixed(2) is "0.13",
    (2.5).toFixed(0) is "3" and (1e21).toFixed(2) is "1e+21". *)
Example toFixed_samples :
  Number.toFixed (Number.literal false 1005 3) 2 = Number.Decimal false 100 2 /\
  Number.toFixed (Number.literal false 125 3) 2 = Number.Decimal false 13 2 /\
  Number.toFixed (Number.literal false 25 1) 0 = Number.Decimal false 3 0 /\
  Number.toFixed (Number.of_Z (10 ^ 21)) 2 = Number.ToString (Number.of_Z (10 ^ 21)).
Proof. vm_compute. repeat split. Qed.

(** NaN > 0 is false. *)
Example gt_nan : Number.gt S754_nan Number.zero = false.
Proof. reflexivity. Qed.

(** * Properties of the aggregation *)

Lemma sum_over_cons (f : Match.t -> N) (m : Match.t) (ms : list Match.t) :
  sum_over f (m :: ms) = (f m + sum_over f ms)%N.
Proof. reflexivity. Qed.

Lemma count_where_cons (p : Match.t -> bool) (m : Match.t) (ms : list Match.t) :
  count_where p (m :: ms) =
  ((if p m then 1 else 0) + count_where p ms)%N.
Proof.
  unfold count_where. cbn [List.filter].
  destruct (p m); cbn [length]; lia.
Qed.

Lemma count_where_le (p : Match.t -> bool) (ms : list Match.t) :
  (count_where p ms <= N.of_nat (length ms))%N.
Proof.
  unfold count_where. induction ms as [|m ms IH]; cbn; [lia|].
  destruct (p m); cbn [length]; lia.
Qed.

(** While no running total passes 2^53, the loop holds the sums. *)
Lemma fold_accumulate_exact (ms : list Match.t) :
  forall k d a dmg r w : N,
    (k + sum_over Match.kills ms <= exact_limit)%N ->
    (d + sum_over Match.deaths ms <= exact_limit)%N ->
    (a + sum_over Match.assists ms <= exact_limit)%N ->
    (dmg + sum_over Match.damage ms <= exact_limit)%N ->
    (r + sum_over Match.rounds ms <= exact_limit)%N ->
    (w + count_where is_Win ms <= exact_limit)%N ->
    fold_left accumulate ms (totals_of_N k d a dmg r w) =
    totals_of_N (k + sum_over Match.kills ms) (d + sum_over Match.deaths ms)
                (a + sum_over Match.assists ms) (dmg + sum_over Match.damage ms)
                (r + sum_over Match.rounds ms) (w + count_where is_Win ms).
Proof.
  induction ms as [|m ms IH]; intros k d a dmg r w Hk Hd Ha Hdmg Hr Hw.
  - unfold count_where. cbn [fold_left sum_over foldr List.filter length N.of_nat].
    rewrite !N.add_0_r. reflexivity.
  - rewrite !sum_over_cons in *. rewrite count_where_cons in *.
    cbn [fold_left].
    assert (Hstep : accumulate (totals_of_N k d a dmg r w) m =
      totals_of_N (k + Match.kills m) (d + Match.deaths m) (a + Match.assists m)
                  (dmg + Match.damage m) (r + Match.rounds m)
                  (w + (if is_Win m then 1 else 0))).
    { unfold accumulate, totals_of_N, Match.rounds in *.
      cbn [totalKills totalDeaths totalAssists totalDamage totalRounds wins].
      change (Outcome_eqb (Match.outcome m) Win) with (is_Win m).
      rewrite (add_of_N (Match.roundsWon m) (Match.roundsLost m)) by lia.
      rewrite !add_of_N by lia.
      destruct (is_Win m); [rewrite add_of_N by lia|rewrite N.add_0_r]; reflexivity. }
    rewrite Hstep, IH by lia.
    rewrite !N.add_assoc. reflexivity.
Qed.

(** One total alone: it holds the sum of its field while that sum is at
    most 2^53, whatever the other totals are. *)
Lemma fold_field_exact (total : Totals -> Number.t) (f : Match.t -> N) :
  (forall t m k,
     total t = Number.of_N k -> (k + f m <= exact_limit)%N ->
     total (accumulate t m) = Number.of_N (k + f m)) ->
  forall ms t k,
    total t = Number.of_N k ->
    (k + sum_over f ms <= exact_limit)%N ->
    total (fold_left accumulate ms t) = Number.of_N (k + sum_over f ms).
Proof.
  intros Hstep. induction ms as [|m ms IH]; intros t k Ht Hk.
  - cbn [fold_left sum_over foldr]. rewrite N.add_0_r. assumption.
  - rewrite sum_over_cons in *. cbn [fold_left].
    rewrite (IH (accumulate t m) (k + f m)%N).
    + rewrite N.add_assoc. reflexivity.
    + apply Hstep; [assumption|lia].
    + lia.
Qed.

Lemma sum_over_win_of (ms : list Match.t) :
  sum_over win_of ms = count_where is_Win ms.
Proof.
  induction ms as [|m ms IH]; [reflexivity|].
  rewrite sum_over_cons, count_where_cons, IH. reflexivity.
Qed.

Lemma totalKills_exact (ms : list Match.t) :
  (sum_over Match.kills ms <= exact_limit)%N ->
  totalKills (fold_left accumulate ms totals0) = Number.of_N (sum_over Match.kills ms).
Proof.
  intros H. apply (fold_field_exact totalKills Match.kills) with (k := 0%N);
    [|reflexivity|rewrite N.add_0_l; assumption].
  intros t m k Ht Hk. cbn [accumulate totalKills]. rewrite Ht. apply add_of_N. assumption.
Qed.

Lemma totalDeaths_exact (ms : list Match.t) :
  (sum_over Match.deaths ms <= exact_limit)%N ->
  totalDeaths (fold_left accumulate ms totals0) = Number.of_N (sum_over Match.deaths ms).
Proof.
  intros H. apply (fold_field_exact totalDeaths Match.deaths) with (k := 0%N);
    [|reflexivity|rewrite N.add_0_l; assumption].
  intros t m k Ht Hk. cbn [accumulate totalDeaths]. rewrite Ht. apply add_of_N. assumption.
Qed.

Lemma totalAssists_exact (ms : list Match.t) :
  (sum_over Match.assists ms <= exact_limit)%N ->
  totalAssists (fold_left accumulate ms totals0) = Number.of_N (sum_over Match.assists ms).
Proof.
  intros H. apply (fold_field_exact totalAssists Match.assists) with (k := 0%N);
    [|reflexivity|rewrite N.add_0_l; assumption].
  intros t m k Ht Hk. cbn [accumulate totalAssists]. rewrite Ht. apply add_of_N. assumption.
Qed.

Lemma totalDamage_exact (ms : list Match.t) :
  (sum_over Match.damage ms <= exact_limit)%N ->
  totalDamage (fold_left accumulate ms totals0) = Number.of_N (sum_over Match.damage ms).
Proof.
  intros H. apply (fold_field_exact totalDamage Match.damage) with (k := 0%N);
    [|reflexivity|rewrite N.add_0_l; assumption].
  intros t m k Ht Hk. cbn [accumulate totalDamage]. rewrite Ht. apply add_of_N. assumption.
Qed.

Lemma totalRounds_exact (ms : list Match.t) :
  (sum_over Match.rounds ms <= exact_limit)%N ->
  totalRounds (fold_left accumulate ms totals0) = Number.of_N (sum_over Match.rounds ms).
Proof.
  intros H. apply (fold_field_exact totalRounds Match.rounds) with (k := 0%N);
    [|reflexivity|rewrite N.add_0_l; assumption].
  intros t m k Ht Hk. cbn [accumulate totalRounds]. unfold Match.rounds in *.
  rewrite Ht, (add_of_N (Match.roundsWon m) (Match.roundsLost m)) by lia.
  apply add_of_N. assumption.
Qed.

Lemma wins_exact (ms : list Match.t) :
  (N.of_nat (length ms) <= exact_limit)%N ->
  wins (fold_left accumulate ms totals0) = Number.of_N (count_where is_Win ms).
Proof.
  intros H. pose proof (count_where_le is_Win ms) as Hle.
  rewrite <- sum_over_win_of in *.
  apply (fold_field_exact wins win_of) with (k := 0%N);
    [|reflexivity|rewrite N.add_0_l; lia].
  intros t m k Ht Hk. cbn [accumulate wins]. unfold win_of in *.
  change (Outcome_eqb (Match.outcome m) Win) with (is_Win m).
  destruct (is_Win m); [rewrite Ht; apply add_of_N; assumption|].
  rewrite N.add_0_r. assumption.
Qed.

Lemma count_within_exact_range (ms : list Match.t) :
  within_exact_range ms -> (count_where is_Win ms <= exact_limit)%N.
Proof.
  intros (_ & _ & _ & _ & _ & Hlen). pose proof (count_where_le is_Win ms). lia.
Qed.

(** Within the exact range, the summary of a record set that is not empty
    is derived from the sums and counts. *)
Lemma aggregate_exact (ms : list Match.t) :
  within_exact_range ms -> ms <> [] ->
  aggregate ms = derive (exact_totals ms) (Number.of_N (N.of_nat (length ms))).
Proof.
  intros Hr Hne. pose proof (count_within_exact_range ms Hr) as Hw.
  destruct Hr as (Hk & Hd & Ha & Hdmg & Hro & Hlen).
  destruct ms as [|m ms]; [congruence|].
  unfold aggregate. f_equal.
  change totals0 with (totals_of_N 0 0 0 0 0 0).
  rewrite fold_accumulate_exact by (rewrite N.add_0_l; assumption).
  rewrite !N.add_0_l. reflexivity.
Qed.

(** C3. The aggregation of the empty record set returns the summary whose
    eleven fields are all the Number 0: each ratio is 0, a finite Number,
    not NaN. *)
Theorem aggregate_empty :
  let s := aggregate [] in
  User.kdRatio s = Number.zero /\ User.damagePerRound s = Number.zero /\
  User.winPercentage s = Number.zero /\ User.killsPerRound s = Number.zero /\
  User.wins s = Number.zero /\ User.kills s = Number.zero /\
  User.deaths s = Number.zero /\ User.assists s = Number.zero /\
  User.totalGames s = Number.zero /\ User.totalRounds s = Number.zero /\
  User.totalDamage s = Number.zero /\
  Number.to_Z Number.zero = Some 0 /\ Number.is_finite Number.zero = true.
Proof. cbn. repeat split. Qed.

Lemma within_exact_range_sample : within_exact_range [match_a; match_b].
Proof. unfold within_exact_range, exact_limit. vm_compute. repeat split; discriminate. Qed.

(** C4, as amended.  The aggregation accumulates kills, deaths, assists
    and damage as the sums of those fields and totalRounds as the sum of
    roundsWon + roundsLost, each as long as that sum does not exceed 2^53;
    wins is the number of records whose outcome is Win and totalGames the
    number of records (for up to 2^53 records); so wins <= totalGames. *)
Theorem aggregate_totals (ms : list Match.t) :
  let s := aggregate ms in
  let wins := count_where (fun m => Outcome_eqb (Match.outcome m) Win) ms in
  ((sum_over Match.kills ms <= 2 ^ 53)%N ->
   Number.to_Z (User.kills s) = Some (Z.of_N (sum_over Match.kills ms))) /\
  ((sum_over Match.deaths ms <= 2 ^ 53)%N ->
   Number.to_Z (User.deaths s) = Some (Z.of_N (sum_over Match.deaths ms))) /\
  ((sum_over Match.assists ms <= 2 ^ 53)%N ->
   Number.to_Z (User.assists s) = Some (Z.of_N (sum_over Match.assists ms))) /\
  ((sum_over Match.damage ms <= 2 ^ 53)%N ->
   Number.to_Z (User.totalDamage s) = Some (Z.of_N (sum_over Match.damage ms))) /\
  ((sum_over (fun m => Match.roundsWon m + Match.roundsLost m) ms <= 2 ^ 53)%N ->
   Number.to_Z (User.totalRounds s) =
     Some (Z.of_N (sum_over (fun m => Match.roundsWon m + Match.roundsLost m)%N ms))) /\
  ((N.of_nat (length ms) <= 2 ^ 53)%N ->
   Number.to_Z (User.wins s) = Some (Z.of_N wins) /\
   Number.to_Z (User.totalGames s) = Some (Z.of_N (N.of_nat (length ms)))) /\
  (wins <= N.of_nat (length ms))%N.
Proof.
  cbv zeta. fold exact_limit. fold is_Win.
  pose proof (count_where_le is_Win ms) as Hle.
  destruct ms as [|m ms]; [repeat split; try reflexivity; assumption|].
  cbn [aggregate derive User.kills User.deaths User.assists User.totalDamage
       User.totalRounds User.wins User.totalGames].
  repeat split; try assumption.
  - intros H. rewrite totalKills_exact by assumption. apply to_Z_of_N. assumption.
  - intros H. rewrite totalDeaths_exact by assumption. apply to_Z_of_N. assumption.
  - intros H. rewrite totalAssists_exact by assumption. apply to_Z_of_N. assumption.
  - intros H. rewrite totalDamage_exact by assumption. apply to_Z_of_N. assumption.
  - intros H. rewrite totalRounds_exact by assumption. apply to_Z_of_N. assumption.
  - rewrite wins_exact by assumption. apply to_Z_of_N. lia.
  - apply to_Z_of_N. assumption.
Qed.

Lemma aggregate_totals_witness :
  Number.to_Z (User.kills (aggregate [match_a; match_b])) = Some 23.
Proof.
  apply (proj1 (aggregate_totals [match_a; match_b])).
  vm_compute. discriminate.
Defined.

(** C4 as stated fails: with 2^53 kills in one record and 1 in the next,
    the sum is 2^53 + 1 and totalKills is 2^53. *)
Lemma aggregate_totals_inexact :
  sum_over Match.kills [match_2p53; match_one] = 9007199254740993%N /\
  Number.to_Z (User.kills (aggregate [match_2p53; match_one])) = Some 9007199254740992 /\
  Number.to_Z (User.kills (aggregate [match_2p53; match_one])) <>
    Some (Z.of_N (sum_over Match.kills [match_2p53; match_one])).
Proof. vm_compute. repeat split. discriminate. Qed.

(** C6. For a record set that is not empty, winPercentage is
    parseFloat(toFixed(1)) of (wins / totalGames) * 100, computed without
    a guard, and the divisor totalGames, the number of records, is greater
    than 0 and not zero; for up to 2^53 records the result is a finite
    Number. *)
Theorem winPercentage_safe (ms : list Match.t) :
  ms <> [] ->
  let s := aggregate ms in
  User.winPercentage s =
    Number.round_to 1
      (Number.mul (Number.div (User.wins s) (User.totalGames s)) (Number.of_N 100)) /\
  User.totalGames s = Number.of_N (N.of_nat (length ms)) /\
  (0 < N.of_nat (length ms))%N /\
  Number.gt (User.totalGames s) Number.zero = true /\
  Number.is_zero (User.totalGames s) = false /\
  ((N.of_nat (length ms) <= 2 ^ 53)%N -> Number.is_finite (User.winPercentage s) = true).
Proof.
  intros Hne. cbv zeta. fold exact_limit.
  assert (Hlen : (0 < N.of_nat (length ms))%N).
  { destruct ms; [congruence|cbn [length]; lia]. }
  destruct ms as [|m ms]; [congruence|].
  split; [reflexivity|]. split; [reflexivity|]. split; [assumption|].
  split; [|split].
  - cbn [aggregate derive User.totalGames]. rewrite gt_of_N. apply N.ltb_lt. assumption.
  - cbn [aggregate derive User.totalGames]. apply of_N_nonzero. assumption.
  - intros Hl. pose proof (count_where_le is_Win (m :: ms)) as Hw.
    cbn [aggregate derive User.winPercentage].
    rewrite wins_exact by assumption.
    apply round_to_finite; [lia|].
    apply bounded_by_finite with (K := 56 + 8 + 1).
    apply SFmul_upper; [| |lia].
    + apply (div_of_N_upper _ _ 54); [|lia|assumption].
      assert (Hw' : (count_where is_Win (m :: ms) <= exact_limit)%N) by lia.
      apply N2Z.inj_le in Hw'. rewrite exact_limit_Z in Hw'.
      change (2 ^ 54) with 18014398509481984. change (2 ^ 53) with 9007199254740992 in Hw'. lia.
    + apply (of_N_upper 100 7); [reflexivity|lia].
Qed.

Lemma winPercentage_safe_witness :
  Number.gt (User.totalGames (aggregate [match_a; match_b])) Number.zero = true.
Proof.
  refine (proj1 (proj2 (proj2 (proj2 (winPercentage_safe [match_a; match_b] _))))).
  discriminate.
Defined.

Lemma sum_over_Permutation (f : Match.t -> N) (ms ms' : list Match.t) :
  Permutation ms ms' -> sum_over f ms = sum_over f ms'.
Proof.
  induction 1 as [|m l l' _ IH|m m' l|l l' l'' _ IH1 _ IH2].
  - reflexivity.
  - rewrite !sum_over_cons, IH. reflexivity.
  - rewrite !sum_over_cons. lia.
  - congruence.
Qed.

Lemma count_where_Permutation (p : Match.t -> bool) (ms ms' : list Match.t) :
  Permutation ms ms' -> count_where p ms = count_where p ms'.
Proof.
  induction 1 as [|m l l' _ IH|m m' l|l l' l'' _ IH1 _ IH2].
  - reflexivity.
  - rewrite !count_where_cons, IH. reflexivity.
  - rewrite !count_where_cons. lia.
  - congruence.
Qed.

Lemma within_exact_range_Permutation (ms ms' : list Match.t) :
  Permutation ms ms' -> within_exact_range ms -> within_exact_range ms'.
Proof.
  intros HP. unfold within_exact_range.
  rewrite (sum_over_Permutation Match.kills _ _ HP),
          (sum_over_Permutation Match.deaths _ _ HP),
          (sum_over_Permutation Match.assists _ _ HP),
          (sum_over_Permutation Match.damage _ _ HP),
          (sum_over_Permutation Match.rounds _ _ HP),
          (Permutation_length HP).
  tauto.
Qed.

(** C7, as amended.  For a record set whose totals and length do not
    exceed 2^53 the aggregation does not depend on the order of the
    records: a permutation of the sequence has the same summary. *)
Theorem aggregate_Permutation (ms ms' : list Match.t) :
  within_exact_range ms -> Permutation ms ms' -> aggregate ms = aggregate ms'.
Proof.
  intros Hr HP. pose proof (within_exact_range_Permutation _ _ HP Hr) as Hr'.
  destruct ms as [|m ms].
  - apply Permutation_nil in HP. subst. reflexivity.
  - assert (Hne : ms' <> []).
    { intros ->. apply Permutation_sym, Permutation_nil in HP. discriminate. }
    rewrite (aggregate_exact (m :: ms)) by (assumption || discriminate).
    rewrite (aggregate_exact ms') by assumption.
    unfold exact_totals.
    rewrite (Permutation_length HP).
    rewrite (sum_over_Permutation Match.kills _ _ HP),
            (sum_over_Permutation Match.deaths _ _ HP),
            (sum_over_Permutation Match.assists _ _ HP),
            (sum_over_Permutation Match.damage _ _ HP),
            (sum_over_Permutation Match.rounds _ _ HP),
            (count_where_Permutation is_Win _ _ HP).
    reflexivity.
Qed.

Lemma aggregate_Permutation_witness :
  aggregate [match_a; match_b] = aggregate [match_b; match_a].
Proof.
  apply (aggregate_Permutation [match_a; match_b] [match_b; match_a]).
  - exact within_exact_range_sample.
  - apply perm_swap.
Defined.

(** C7 as stated fails: 2^53 + 1 + 1 is 2^53, each addition of 1 being
    rounded away, and 1 + 1 + 2^53 is 2^53 + 2. *)
Lemma aggregate_order_matters :
  Permutation [match_2p53; match_one; match_uno] [match_one; match_uno; match_2p53] /\
  Number.to_Z (User.kills (aggregate [match_2p53; match_one; match_uno])) =
    Some 9007199254740992 /\
  Number.to_Z (User.kills (aggregate [match_one; match_uno; match_2p53])) =
    Some 9007199254740994 /\
  aggregate [match_2p53; match_one; match_uno] <>
  aggregate [match_one; match_uno; match_2p53].
Proof.
  split; [|split; [|split]].
  - apply Permutation_sym. apply (Permutation_app_comm [match_one; match_uno] [match_2p53]).
  - vm_compute. reflexivity.
  - vm_compute. reflexivity.
  - intros H. apply (f_equal User.kills) in H. vm_compute in H. discriminate.
Qed.

(** C8. On the two records (kills 15, deaths 10, assists 5, damage 3200,
    rounds 7-6, Win) and (kills 8, deaths 12, assists 3, damage 2400,
    rounds 5-7, Loss) the aggregation returns totalGames = 2, wins = 1,
    totalRounds = 25, kdRatio = 1.05, damagePerRound = 224,
    winPercentage = 50.0 and killsPerRound = 0.92. *)
Theorem aggregate_example :
  let s := aggregate [match_a; match_b] in
  User.totalGames s = Number.of_N 2 /\ User.wins s = Number.of_N 1 /\
  User.totalRounds s = Number.of_N 25 /\
  User.kdRatio s = Number.literal false 105 2 /\
  User.damagePerRound s = Number.of_N 224 /\
  User.winPercentage s = Number.literal false 500 1 /\
  User.killsPerRound s = Number.literal false 92 2.
Proof. vm_compute. repeat split. Qed.

(** The same values as bit patterns: 1.05 is 0x3FF0CCCCCCCCCCCD, 224 is
    0x406C000000000000, 50 is 0x4049000000000000 and 0.92 is
    0x3FED70A3D70A3D71. *)
Example aggregate_example_bits :
  let s := aggregate [match_a; match_b] in
  User.kdRatio s = S754_finite false 0x10CCCCCCCCCCCD (-52) /\
  User.damagePerRound s = S754_finite false 0x1C000000000000 (-45) /\
  User.winPercentage s = S754_finite false 0x19000000000000 (-47) /\
  User.killsPerRound s = S754_finite false 0x1D70A3D70A3D71 (-53) /\
  Number.to_Z (User.totalGames s) = Some 2 /\ Number.to_Z (User.wins s) = Some 1 /\
  Number.to_Z (User.totalRounds s) = Some 25 /\
  Number.to_Z (User.damagePerRound s) = Some 224 /\
  Number.to_Z (User.winPercentage s) = Some 50.
Proof. vm_compute. repeat split. Qed.

(** A tie that the binary quotient decides: 201 / 200 is slightly below
    1.005 as a Number, and its kdRatio is 1, not 1.01. *)
Example kdRatio_201_200 :
  User.kdRatio (aggregate [sample 1 Win 201 200 0 0 1 1]) = Number.of_N 1.
Proof. vm_compute. reflexivity. Qed.

(** One record with no death and 5 kills: kdRatio is 5. *)
Example kdRatio_no_deaths :
  User.kdRatio (aggregate [sample 1 Win 5 0 0 0 1 1]) = Number.of_N 5.
Proof. vm_compute. reflexivity. Qed.

(** * The routes *)

Lemma new_Match_userId (cast_Date : string -> option Date) (id uid : ObjectId) (b : Body.t) (m : Match.t) :
  new_Match cast_Date id uid b = Some m -> Match.userId m = uid.
Proof.
  unfold new_Match. intros H.
  repeat match type of H with
         | (mbind _ ?o) = Some _ => destruct o; cbn [mbind option_bind] in H; [|discriminate]
         end.
  injection H as <-. reflexivity.
Qed.

Lemma owned_by_app (uid : ObjectId) (l1 l2 : list Match.t) :
  owned_by uid (l1 ++ l2) = owned_by uid l1 ++ owned_by uid l2.
Proof. apply filter_app. Qed.

Lemma owned_by_cons (uid : ObjectId) (m : Match.t) (l : list Match.t) :
  owned_by uid (m :: l) =
  if decide (Match.userId m = uid) then m :: owned_by uid l else owned_by uid l.
Proof. unfold owned_by. rewrite filter_cons. reflexivity. Qed.

Lemma owned_by_other (uid uid' : ObjectId) (m : Match.t) (l1 l2 : list Match.t) :
  Match.userId m = uid -> uid' <> uid ->
  owned_by uid' (l1 ++ m :: l2) = owned_by uid' (l1 ++ l2).
Proof.
  intros Hm Hne. rewrite !owned_by_app, owned_by_cons.
  destruct (decide (Match.userId m = uid')); [congruence|reflexivity].
Qed.

Lemma owned_by_deleteMany (uid uid' : ObjectId) (l : list Match.t) :
  owned_by uid' (filter (fun m => Match.userId m <> uid) l) =
  if decide (uid' = uid) then [] else owned_by uid' l.
Proof.
  induction l as [|m l IH]; [destruct (decide (uid' = uid)); reflexivity|].
  rewrite filter_cons, owned_by_cons.
  destruct (decide (Match.userId m <> uid)) as [Hm|Hm].
  - rewrite owned_by_cons, IH.
    destruct (decide (Match.userId m = uid')), (decide (uid' = uid)); congruence.
  - rewrite IH.
    destruct (decide (Match.userId m = uid')), (decide (uid' = uid)); try congruence.
    exfalso. apply Hm. congruence.
Qed.

Lemma remove_first_spec {A : Type} (p : A -> bool) (l : list A) (x : A) (r : list A) :
  remove_first p l = Some (x, r) ->
  p x = true /\ exists l1 l2, l = l1 ++ x :: l2 /\ r = l1 ++ l2.
Proof.
  revert r. induction l as [|y l IH]; intros r; cbn [remove_first]; [discriminate|].
  destruct (p y) eqn:Hy.
  - intros [= -> ->]. split; [assumption|]. exists [], r. split; reflexivity.
  - destruct (remove_first p l) as [[z r']|]; [|discriminate].
    intros [= -> <-]. destruct (IH r' eq_refl) as (Hp & l1 & l2 & -> & ->).
    split; [assumption|]. exists (y :: l1), l2. split; reflexivity.
Qed.

(** What POST /api/user/me/matches does, step by step. *)
Lemma post_match_run (cast_Date : string -> option Date) (rejects : Call -> bool) (uid id : ObjectId) (b : Body.t) (db : DB) :
  (snd (post_match cast_Date rejects uid id b db) = db /\
   (fst (post_match cast_Date rejects uid id b db) = Fulfilled (json 400) \/
    fst (post_match cast_Date rejects uid id b db) = Fulfilled (json 500))) \/
  exists m, Match.userId m = uid /\
    let db1 := {| matches := matches db ++ [m]; users := users db |} in
    if rejects Match_find || rejects User_findByIdAndUpdate then
      post_match cast_Date rejects uid id b db = (Fulfilled (json 500), db1)
    else
      let updatedStats := aggregate (owned_by uid (matches db ++ [m])) in
      post_match cast_Date rejects uid id b db =
      (Fulfilled {| status := 201; stats := Some updatedStats |},
       match users db !! uid with
       | Some u => {| matches := matches db ++ [m];
                      users := <[uid := User.set_stats u updatedStats]> (users db) |}
       | None => db1
       end).
Proof.
  unfold post_match, try_catch, mbind, Promise_bind, save_Match, calculateUserStats,
    try_catch, mbind, Promise_bind, find_Match, findByIdAndUpdate_User, call, mret,
    Promise_ret, throw.
  destruct (_ || _ : bool); [left; split; [reflexivity|left; reflexivity]|].
  destruct (_ || _ : bool); [left; split; [reflexivity|left; reflexivity]|].
  destruct (rejects Match_save); [left; split; [reflexivity|right; reflexivity]|].
  destruct (new_Match cast_Date id uid b) as [m|] eqn:Hm; [|left; split; [reflexivity|right; reflexivity]].
  destruct (existsb _ _); [left; split; [reflexivity|right; reflexivity]|].
  right. exists m. split; [eapply new_Match_userId; eassumption|].
  cbv zeta.
  destruct (rejects Match_find); cbn [orb]; [reflexivity|].
  destruct (rejects User_findByIdAndUpdate); [reflexivity|].
  cbn [users matches].
  destruct (users db !! uid); reflexivity.
Qed.

(** What DELETE /api/user/me/matches/:id does, step by step. *)
Lemma delete_match_run (rejects : Call -> bool) (uid id : ObjectId) (db : DB) :
  (snd (delete_match rejects uid id db) = db /\
   (fst (delete_match rejects uid id db) = Fulfilled (json 404) \/
    fst (delete_match rejects uid id db) = Fulfilled (json 500))) \/
  exists m l1 l2, Match.userId m = uid /\ matches db = l1 ++ m :: l2 /\
    let db1 := {| matches := l1 ++ l2; users := users db |} in
    if rejects Match_find || rejects User_findByIdAndUpdate then
      delete_match rejects uid id db = (Fulfilled (json 500), db1)
    else
      let updatedStats := aggregate (owned_by uid (l1 ++ l2)) in
      delete_match rejects uid id db =
      (Fulfilled {| status := 200; stats := Some updatedStats |},
       match users db !! uid with
       | Some u => {| matches := l1 ++ l2;
                      users := <[uid := User.set_stats u updatedStats]> (users db) |}
       | None => db1
       end).
Proof.
  unfold delete_match, try_catch, mbind, Promise_bind, findOneAndDelete_Match,
    calculateUserStats, try_catch, mbind, Promise_bind, find_Match,
    findByIdAndUpdate_User, call, mret, Promise_ret, throw.
  destruct (rejects Match_findOneAndDelete); [left; split; [reflexivity|right; reflexivity]|].
  destruct (remove_first _ (matches db)) as [[m rest]|] eqn:Hrm;
    [|left; split; [reflexivity|left; reflexivity]].
  apply remove_first_spec in Hrm. destruct Hrm as (Hp & l1 & l2 & Hl & ->).
  apply andb_prop in Hp. destruct Hp as [_ Hu]. apply N.eqb_eq in Hu.
  right. exists m, l1, l2. split; [assumption|]. split; [assumption|].
  cbv zeta.
  destruct (rejects Match_find); cbn [orb]; [reflexivity|].
  destruct (rejects User_findByIdAndUpdate); [reflexivity|].
  cbn [users matches].
  destruct (users db !! uid); reflexivity.
Qed.

(** What DELETE /api/user/me/stats does, step by step. *)
Lemma delete_stats_run (rejects : Call -> bool) (uid : ObjectId) (db : DB) :
  (snd (delete_stats rejects uid db) = db /\
   (fst (delete_stats rejects uid db) = Fulfilled (json 404) \/
    fst (delete_stats rejects uid db) = Fulfilled (json 500))) \/
  exists u, users db !! uid = Some u /\
    let remaining := filter (fun m => Match.userId m <> uid) (matches db) in
    if rejects User_save then
      delete_stats rejects uid db =
      (Fulfilled (json 500), {| matches := remaining; users := users db |})
    else
      delete_stats rejects uid db =
      (Fulfilled {| status := 200; stats := Some (User.stats (reset_fields u)) |},
       {| matches := remaining; users := <[uid := reset_fields u]> (users db) |}).
Proof.
  unfold delete_stats, try_catch, mbind, Promise_bind, findById_User,
    deleteMany_Match, save_User, call, mret, Promise_ret.
  destruct (rejects User_findById); [left; split; [reflexivity|right; reflexivity]|].
  destruct (users db !! uid) as [u|] eqn:Hu; [|left; split; [reflexivity|left; reflexivity]].
  destruct (rejects Match_deleteMany); [left; split; [reflexivity|right; reflexivity]|].
  right. exists u. split; [reflexivity|]. cbv zeta.
  destruct (rejects User_save); reflexivity.
Qed.

Lemma reset_fields_stats (u : User.t) : User.stats (reset_fields u) = aggregate [].
Proof. reflexivity. Qed.








Lemma required_falsy (s : option string) (x : string) :
  required s = Some x -> falsy s = false.
Proof.
  unfold required, falsy. destruct s as [s|]; [|discriminate].
  destruct (String.eqb s ""); [discriminate|reflexivity].
Qed.

Lemma cast_MatchType_falsy (s : option string) (x : MatchType) :
  s ≫= cast_MatchType = Some x -> falsy s = false.
Proof.
  destruct s as [s|]; [|discriminate]. cbn [mbind option_bind falsy].
  destruct (String.eqb s "") eqn:E; [|reflexivity].
  apply String.eqb_eq in E. subst s. discriminate.
Qed.

Lemma cast_Outcome_falsy (s : option string) (x : Outcome) :
  s ≫= cast_Outcome = Some x -> falsy s = false.
Proof.
  destruct s as [s|]; [|discriminate]. cbn [mbind option_bind falsy].
  destruct (String.eqb s "") eqn:E; [|reflexivity].
  apply String.eqb_eq in E. subst s. discriminate.
Qed.

Lemma cast_Date_falsy (cast_Date : string -> option Date) (s : option string) (d : Date) :
  required s ≫= cast_Date = Some d -> falsy s = false.
Proof.
  intros H. apply bind_Some in H. destruct H as (x & Hx & _).
  eapply required_falsy; eassumption.
Qed.

(** A number that is stored was present, and [parseInt] has read an
    integer from it that is not negative. *)
Lemma cast_min0_defined (x : option Number.t) (n : N) :
  (x ≫= parseInt) ≫= cast_min0 = Some n ->
  undefined x = false /\
  exists z, x ≫= parseInt = Some z /\ 0 <= z /\ n = Z.to_N z.
Proof.
  destruct x as [x|]; [|discriminate]. cbn [mbind option_bind undefined].
  destruct (parseInt x) as [z|]; [|discriminate]. cbn [mbind option_bind].
  unfold cast_min0. destruct (Z.ltb_spec z 0) as [|Hz]; [discriminate|].
  intros [= <-]. split; [reflexivity|]. exists z. auto.
Qed.

(** A body that the casts and the validators accept passes the first
    check of the route, that for a missing field. *)
Lemma new_Match_passes (cast_Date : string -> option Date) (id uid : ObjectId) (b : Body.t) (m : Match.t) :
  new_Match cast_Date id uid b = Some m ->
  falsy (Body.date b) || falsy (Body.time b) || falsy (Body.matchType b)
    || falsy (Body.outcome b) || falsy (Body.map b)
    || undefined (Body.roundsWon b) || undefined (Body.roundsLost b)
    || undefined (Body.damage b) || undefined (Body.kills b)
    || undefined (Body.deaths b) || undefined (Body.assists b) = false.
Proof.
  unfold new_Match. intros H.
  apply bind_Some in H. destruct H as (date & Hdate & H).
  apply bind_Some in H. destruct H as (time & Htime & H).
  apply bind_Some in H. destruct H as (matchType & HmatchType & H).
  apply bind_Some in H. destruct H as (outcome & Houtcome & H).
  apply bind_Some in H. destruct H as (map & Hmap & H).
  apply bind_Some in H. destruct H as (roundsWon & HroundsWon & H).
  apply bind_Some in H. destruct H as (roundsLost & HroundsLost & H).
  apply bind_Some in H. destruct H as (damage & Hdamage & H).
  apply bind_Some in H. destruct H as (kills & Hkills & H).
  apply bind_Some in H. destruct H as (deaths & Hdeaths & H).
  apply bind_Some in H. destruct H as (assists & Hassists & _).
  rewrite (cast_Date_falsy _ _ _ Hdate), (required_falsy _ _ Htime),
    (cast_MatchType_falsy _ _ HmatchType), (cast_Outcome_falsy _ _ Houtcome),
    (required_falsy _ _ Hmap).
  destruct (cast_min0_defined _ _ HroundsWon) as [-> _].
  destruct (cast_min0_defined _ _ HroundsLost) as [-> _].
  destruct (cast_min0_defined _ _ Hdamage) as [-> _].
  destruct (cast_min0_defined _ _ Hkills) as [-> _].
  destruct (cast_min0_defined _ _ Hdeaths) as [-> _].
  destruct (cast_min0_defined _ _ Hassists) as [-> _].
  reflexivity.
Qed.

(** C9. When the datastore fails during the aggregation ([Match.find]) or
    during the update of the summary ([User.findByIdAndUpdate]), add-match
    and delete-match leave every stored summary as it was, and a request
    that had come as far (the match saved, or found and deleted) answers
    the internal error 500; a body that [save()] would take but that has
    a number of rounds below 0 (one between -1 and 0, which [parseInt]
    reads as 0) is answered 400 before anything is saved.  Whatever fails, a summary after the request is the one stored before or
    the aggregate of all the matches the account then has: nothing partial
    is ever written. *)
Theorem failure_keeps_summary (cast_Date : string -> option Date) (rejects : Call -> bool) (uid id : ObjectId) (b : Body.t) (db : DB) :
  (rejects Match_find = true \/ rejects User_findByIdAndUpdate = true ->
   (forall m db1,
      save_Match rejects (new_Match cast_Date id uid b) db = (Fulfilled m, db1) ->
      post_match cast_Date rejects uid id b db =
        (if negative_rounds b then (Fulfilled (json 400), db)
         else (Fulfilled (json 500), db1)) /\
      users db1 = users db) /\
   (forall m db1,
      findOneAndDelete_Match rejects id uid db = (Fulfilled (Some m), db1) ->
      delete_match rejects uid id db = (Fulfilled (json 500), db1) /\
      users db1 = users db) /\
   users (snd (post_match cast_Date rejects uid id b db)) = users db /\
   users (snd (delete_match rejects uid id db)) = users db) /\
  (forall db', db' = snd (post_match cast_Date rejects uid id b db) \/
               db' = snd (delete_match rejects uid id db) ->
   forall uid' u', users db' !! uid' = Some u' ->
     users db !! uid' = Some u' \/
     exists u, users db !! uid' = Some u /\
       u' = User.set_stats u (aggregate (owned_by uid' (matches db')))).
Proof.
  split.
  - intros Hf.
    assert (Hor : rejects Match_find || rejects User_findByIdAndUpdate = true).
    { destruct Hf as [-> | ->]; [reflexivity|apply orb_true_r]. }
    split; [|split; [|split]].
    + intros m db1 Hsave.
      assert (Hnew : new_Match cast_Date id uid b = Some m /\ users db1 = users db).
      { unfold save_Match, call in Hsave.
        destruct (rejects Match_save); [discriminate|].
        destruct (new_Match cast_Date id uid b) as [m'|]; [|discriminate].
        destruct (existsb _ _); [discriminate|].
        injection Hsave as [= -> <-]. split; reflexivity. }
      destruct Hnew as [Hnew Hu]. split; [|exact Hu].
      pose proof (new_Match_passes cast_Date id uid b m Hnew) as Hc1.
      unfold negative_rounds.
      destruct (below_zero (Body.roundsWon b) || below_zero (Body.roundsLost b)) eqn:Hc2;
        unfold post_match, try_catch; rewrite Hc1, Hc2; [reflexivity|].
      unfold mbind at 1, Promise_bind at 1. rewrite Hsave.
      unfold calculateUserStats, try_catch, mbind, Promise_bind, find_Match,
        findByIdAndUpdate_User, call, mret, Promise_ret, throw.
      destruct (rejects Match_find); [reflexivity|].
      cbn [orb] in Hor. rewrite Hor. reflexivity.
    + intros m db1 Hdel. split.
      * unfold delete_match, try_catch. unfold mbind at 1, Promise_bind at 1. rewrite Hdel.
        unfold calculateUserStats, try_catch, mbind, Promise_bind, find_Match,
          findByIdAndUpdate_User, call, mret, Promise_ret, throw.
        destruct (rejects Match_find); [reflexivity|].
        cbn [orb] in Hor. rewrite Hor. reflexivity.
      * unfold findOneAndDelete_Match, call in Hdel.
        destruct (rejects Match_findOneAndDelete); [discriminate|].
        destruct (remove_first _ _) as [[m' rest]|]; [|discriminate].
        injection Hdel as [= _ <-]. reflexivity.
    + destruct (post_match_run cast_Date rejects uid id b db) as [[Hs _]|(m & _ & Hrun)].
      * rewrite Hs. reflexivity.
      * rewrite Hor in Hrun. cbv zeta in Hrun. rewrite Hrun. reflexivity.
    + destruct (delete_match_run rejects uid id db) as [[Hs _]|(m & l1 & l2 & _ & _ & Hrun)].
      * rewrite Hs. reflexivity.
      * rewrite Hor in Hrun. cbv zeta in Hrun. rewrite Hrun. reflexivity.
  - intros db' [-> | ->] uid' u'.
    + destruct (post_match_run cast_Date rejects uid id b db) as [[-> _]|(m & _ & Hrun)]; [tauto|].
      destruct (rejects Match_find || rejects User_findByIdAndUpdate);
        cbv zeta in Hrun; rewrite Hrun; cbn [snd users]; [tauto|].
      destruct (users db !! uid) as [u|] eqn:Hu; cbn [users matches]; [|tauto].
      destruct (decide (uid = uid')) as [<-|Hne].
      * rewrite lookup_insert_eq. intros [= <-]. right. exists u. split; [assumption|reflexivity].
      * rewrite lookup_insert_ne by assumption. tauto.
    + destruct (delete_match_run rejects uid id db) as [[-> _]|(m & l1 & l2 & _ & _ & Hrun)]; [tauto|].
      destruct (rejects Match_find || rejects User_findByIdAndUpdate);
        cbv zeta in Hrun; rewrite Hrun; cbn [snd users]; [tauto|].
      destruct (users db !! uid) as [u|] eqn:Hu; cbn [users matches]; [|tauto].
      destruct (decide (uid = uid')) as [<-|Hne].
      * rewrite lookup_insert_eq. intros [= <-]. right. exists u. split; [assumption|reflexivity].
      * rewrite lookup_insert_ne by assumption. tauto.
Qed.

Lemma failure_keeps_summary_witness :
  post_match sample_cast_Date find_fails 1 3 sample_body sample_db =
    (Fulfilled (json 500),
     {| matches := [match_a; match_b; match_c]; users := users sample_db |}) /\
  users {| matches := [match_a; match_b; match_c]; users := users sample_db |} =
    users sample_db.
Proof.
  apply (proj1 (proj1 (failure_keeps_summary sample_cast_Date find_fails 1 3 sample_body sample_db)
                  (or_introl eq_refl)) match_c).
  vm_compute. reflexivity.
Defined.

(** The same for a delete during which the update of the summary is
    rejected: the match is gone, the answer is 500 and the summary is the
    one of the two matches. *)
Example delete_update_fails :
  let '(res, db') := delete_match update_fails 1 2 sample_db in
  res = Fulfilled (json 500) /\ matches db' = [match_a] /\
  User.stats <$> users db' !! 1%N = Some (aggregate [match_a; match_b]).
Proof. vm_compute. repeat split. Qed.

(** C10. The eleven values that the reset route assigns are the summary
    that the aggregation returns for no match at all, and the route does
    what deleting every match of the account, aggregating again and
    storing the result does. *)
Theorem reset_is_aggregation (rejects : Call -> bool) (uid : ObjectId) (db : DB) :
  (forall user, User.stats (reset_fields user) = aggregate []) /\
  (rejects Match_find = false ->
   delete_stats rejects uid db = reset_by_aggregation rejects uid db).
Proof.
  split; [reflexivity|]. intros Hfind.
  unfold delete_stats, reset_by_aggregation, try_catch, mbind, Promise_bind,
    findById_User, deleteMany_Match, calculateUserStats, try_catch, mbind,
    Promise_bind, find_Match, save_User, call, mret, Promise_ret, throw.
  rewrite Hfind.
  destruct (rejects User_findById); [reflexivity|].
  destruct (users db !! uid) as [u|]; [|reflexivity].
  destruct (rejects Match_deleteMany); [reflexivity|].
  cbn [matches users]. rewrite owned_by_deleteMany.
  destruct (decide (uid = uid)); [|congruence].
  reflexivity.
Qed.

Lemma reset_is_aggregation_witness :
  delete_stats available 1 sample_db = reset_by_aggregation available 1 sample_db.
Proof. apply (proj2 (reset_is_aggregation available 1 sample_db)). reflexivity. Defined.

(** After a reset the account has no match left and its stored summary
    is the aggregate of none. *)
Example reset_sample :
  let db' := snd (delete_stats available 1 sample_db) in
  owned_by 1%N (matches db') = [] /\
  User.stats <$> users db' !! 1%N = Some (aggregate []).
Proof. vm_compute. split; reflexivity. Qed.

(** * The routes, one request at a time *)

(** ** Running totals *)

Lemma fold_accumulate_snoc (ms : list Match.t) (m : Match.t) (t : Totals) :
  fold_left accumulate (ms ++ [m]) t = accumulate (fold_left accumulate ms t) m.
Proof. rewrite fold_left_app. reflexivity. Qed.

Lemma aggregate_totals_fold (ms : list Match.t) :
  let t := fold_left accumulate ms totals0 in
  User.kills (aggregate ms) = totalKills t /\
  User.deaths (aggregate ms) = totalDeaths t /\
  User.assists (aggregate ms) = totalAssists t /\
  User.totalDamage (aggregate ms) = totalDamage t /\
  User.totalRounds (aggregate ms) = totalRounds t /\
  User.wins (aggregate ms) = wins t.
Proof. destruct ms; repeat split; reflexivity. Qed.

(** The totals of a summary are running totals: the summary of a record
    set with one more record at its end has the totals of the summary
    before, each with the field of that record added to it as Numbers are
    added, and the number of records as totalGames. *)
Theorem aggregate_snoc (ms : list Match.t) (m : Match.t) :
  let s := aggregate ms in
  let s' := aggregate (ms ++ [m]) in
  User.kills s' = Number.add (User.kills s) (Number.of_N (Match.kills m)) /\
  User.deaths s' = Number.add (User.deaths s) (Number.of_N (Match.deaths m)) /\
  User.assists s' = Number.add (User.assists s) (Number.of_N (Match.assists m)) /\
  User.totalDamage s' = Number.add (User.totalDamage s) (Number.of_N (Match.damage m)) /\
  User.totalRounds s' =
    Number.add (User.totalRounds s)
      (Number.add (Number.of_N (Match.roundsWon m)) (Number.of_N (Match.roundsLost m))) /\
  User.wins s' =
    (if Outcome_eqb (Match.outcome m) Win
     then Number.add (User.wins s) (Number.of_N 1)
     else User.wins s) /\
  User.totalGames s' = Number.of_N (N.of_nat (length ms) + 1).
Proof.
  cbv zeta.
  destruct (aggregate_totals_fold ms) as (-> & -> & -> & -> & -> & ->).
  destruct (aggregate_totals_fold (ms ++ [m])) as (-> & -> & -> & -> & -> & ->).
  rewrite fold_accumulate_snoc. cbn [accumulate totalKills totalDeaths totalAssists totalDamage totalRounds wins].
  repeat split.
  destruct ms as [|m0 ms]; [reflexivity|].
  cbn [app aggregate derive User.totalGames].
  f_equal. cbn [length]. rewrite length_app. cbn [length]. lia.
Qed.

(** ** What a request leaves alone *)

(** A request for one account leaves the matches of every other account
    as they are, whatever the datastore rejects. *)
Theorem other_matches_kept (cast_Date : string -> option Date) (rejects : Call -> bool) (r : Request) (db : DB) (uid' : ObjectId) :
  uid' <> account r ->
  owned_by uid' (matches (snd (handle cast_Date rejects r db))) = owned_by uid' (matches db).
Proof.
  intros Hne. destruct r as [uid id b|uid id|uid]; cbn [handle account] in *.
  - destruct (post_match_run cast_Date rejects uid id b db) as [[-> _]|(m & Hm & Hrun)]; [reflexivity|].
    assert (Hm' : owned_by uid' (matches db ++ [m]) = owned_by uid' (matches db)).
    { rewrite (owned_by_other uid uid' m (matches db) []) by congruence.
      rewrite app_nil_r. reflexivity. }
    destruct (rejects Match_find || rejects User_findByIdAndUpdate);
      cbv zeta in Hrun; rewrite Hrun; cbn [snd matches]; [assumption|].
    destruct (users db !! uid); cbn [matches]; assumption.
  - destruct (delete_match_run rejects uid id db)
      as [[-> _]|(m & l1 & l2 & Hm & Hl & Hrun)]; [reflexivity|].
    assert (Hm' : owned_by uid' (l1 ++ l2) = owned_by uid' (matches db)).
    { rewrite Hl. symmetry. apply (owned_by_other uid); congruence. }
    destruct (rejects Match_find || rejects User_findByIdAndUpdate);
      cbv zeta in Hrun; rewrite Hrun; cbn [snd matches]; [assumption|].
    destruct (users db !! uid); cbn [matches]; assumption.
  - destruct (delete_stats_run rejects uid db) as [[-> _]|(u & Hu & Hrun)]; [reflexivity|].
    assert (Hm' : owned_by uid' (filter (fun m => Match.userId m <> uid) (matches db)) =
                  owned_by uid' (matches db)).
    { rewrite owned_by_deleteMany. destruct (decide (uid' = uid)); [congruence|reflexivity]. }
    destruct (rejects User_save); cbv zeta in Hrun; rewrite Hrun; cbn [snd matches]; assumption.
Qed.

(** What a request for the matches does to a document of the User
    collection. *)
Lemma handle_users (cast_Date : string -> option Date) (rejects : Call -> bool) (r : Request) (db : DB) (uid' : ObjectId) :
  let db' := snd (handle cast_Date rejects r db) in
  users db' !! uid' = users db !! uid' \/
  (uid' = account r /\
   exists u s, users db !! uid' = Some u /\ users db' !! uid' = Some (User.set_stats u s)).
Proof.
  cbv zeta. destruct r as [uid id b|uid id|uid]; cbn [handle account].
  - destruct (post_match_run cast_Date rejects uid id b db) as [[-> _]|(m & Hm & Hrun)]; [left; reflexivity|].
    destruct (rejects Match_find || rejects User_findByIdAndUpdate);
      cbv zeta in Hrun; rewrite Hrun; cbn [snd users]; [left; reflexivity|].
    destruct (users db !! uid) as [u|] eqn:Hu; cbn [users]; [|left; reflexivity].
    destruct (decide (uid = uid')) as [<-|Hne].
    + right. split; [reflexivity|]. eexists u, _. rewrite lookup_insert_eq. split; [assumption|reflexivity].
    + left. apply lookup_insert_ne. assumption.
  - destruct (delete_match_run rejects uid id db)
      as [[-> _]|(m & l1 & l2 & Hm & Hl & Hrun)]; [left; reflexivity|].
    destruct (rejects Match_find || rejects User_findByIdAndUpdate);
      cbv zeta in Hrun; rewrite Hrun; cbn [snd users]; [left; reflexivity|].
    destruct (users db !! uid) as [u|] eqn:Hu; cbn [users]; [|left; reflexivity].
    destruct (decide (uid = uid')) as [<-|Hne].
    + right. split; [reflexivity|]. eexists u, _. rewrite lookup_insert_eq. split; [assumption|reflexivity].
    + left. apply lookup_insert_ne. assumption.
  - destruct (delete_stats_run rejects uid db) as [[-> _]|(u & Hu & Hrun)]; [left; reflexivity|].
    destruct (rejects User_save); cbv zeta in Hrun; rewrite Hrun; cbn [snd users]; [left; reflexivity|].
    destruct (decide (uid = uid')) as [<-|Hne].
    + right. split; [reflexivity|]. eexists u, _. rewrite lookup_insert_eq. split; [assumption|reflexivity].
    + left. apply lookup_insert_ne. assumption.
Qed.


(** ** Adding and deleting a match *)

Lemma new_Match_id (cast_Date : string -> option Date) (id uid : ObjectId) (b : Body.t) (m : Match.t) :
  new_Match cast_Date id uid b = Some m -> Match._id m = id.
Proof.
  unfold new_Match. intros H.
  repeat match type of H with
         | (mbind _ ?o) = Some _ => destruct o; cbn [mbind option_bind] in H; [|discriminate]
         end.
  injection H as <-. reflexivity.
Qed.

Lemma remove_first_None {A : Type} (p : A -> bool) (l : list A) :
  existsb p l = false -> remove_first p l = None.
Proof.
  induction l as [|x l IH]; [reflexivity|]. cbn [existsb remove_first].
  intros H. apply orb_false_elim in H. destruct H as [-> H].
  rewrite (IH H). reflexivity.
Qed.


Lemma remove_first_Some {A : Type} (p : A -> bool) (l : list A) :
  existsb p l = true -> exists x r, remove_first p l = Some (x, r).
Proof.
  induction l as [|y l IH]; cbn [existsb remove_first]; [discriminate|].
  destruct (p y); [eauto|]. cbn [orb]. intros H.
  destruct (IH H) as (x & r & ->). eauto.
Qed.


(** POST /api/user/me/matches when the datastore answers every call, no
    number of rounds is below 0 and the document passes the casts and
    the validators. *)
Lemma post_match_available (cast_Date : string -> option Date) (uid id : ObjectId) (b : Body.t) (db : DB) (m : Match.t) :
  negative_rounds b = false ->
  new_Match cast_Date id uid b = Some m ->
  stored id db = false ->
  let updatedStats := aggregate (owned_by uid (matches db ++ [m])) in
  post_match cast_Date available uid id b db =
  (Fulfilled {| status := 201; stats := Some updatedStats |},
   match users db !! uid with
   | Some u => {| matches := matches db ++ [m];
                  users := <[uid := User.set_stats u updatedStats]> (users db) |}
   | None => {| matches := matches db ++ [m]; users := users db |}
   end).
Proof.
  intros Hc2 Hnew Hst. pose proof (new_Match_passes cast_Date id uid b m Hnew) as Hc1.
  unfold negative_rounds in Hc2. unfold stored in Hst.
  unfold post_match, try_catch. rewrite Hc1, Hc2.
  unfold mbind, Promise_bind, save_Match, calculateUserStats,
    try_catch, mbind, Promise_bind, find_Match, findByIdAndUpdate_User, call, mret,
    Promise_ret, throw, available.
  rewrite Hnew.
  assert (Hid : Match._id m = id) by (eapply new_Match_id; eassumption).
  rewrite Hid, Hst. cbn [matches users].
  destruct (users db !! uid); reflexivity.
Qed.

(** DELETE /api/user/me/matches/:id when the datastore answers every
    call and the account has such a match. *)
Lemma delete_match_available (uid id : ObjectId) (db : DB) :
  has_match uid id db = true ->
  exists m l1 l2,
    matches db = l1 ++ m :: l2 /\ Match.userId m = uid /\ Match._id m = id /\
    let updatedStats := aggregate (owned_by uid (l1 ++ l2)) in
    delete_match available uid id db =
    (Fulfilled {| status := 200; stats := Some updatedStats |},
     match users db !! uid with
     | Some u => {| matches := l1 ++ l2;
                    users := <[uid := User.set_stats u updatedStats]> (users db) |}
     | None => {| matches := l1 ++ l2; users := users db |}
     end).
Proof.
  intros Hhas. apply remove_first_Some in Hhas. destruct Hhas as (m & r & Hrm).
  destruct (remove_first_spec _ _ _ _ Hrm) as (Hp & l1 & l2 & Hl & ->).
  apply andb_prop in Hp. destruct Hp as [Hi Hu].
  apply N.eqb_eq in Hi. apply N.eqb_eq in Hu.
  exists m, l1, l2. split; [assumption|]. split; [assumption|]. split; [assumption|].
  cbv zeta.
  unfold delete_match, try_catch, mbind, Promise_bind, findOneAndDelete_Match,
    calculateUserStats, try_catch, mbind, Promise_bind, find_Match,
    findByIdAndUpdate_User, call, mret, Promise_ret, throw, available.
  rewrite Hrm. cbn [matches users].
  destruct (users db !! uid); reflexivity.
Qed.



(** A stored number is one that [parseInt] could read. *)
Lemma cast_min0_readable (x : option Number.t) (n : N) :
  (x ≫= parseInt) ≫= cast_min0 = Some n -> unreadable x = false.
Proof.
  intros H. destruct (cast_min0_defined x n H) as (_ & z & Hz & Hpos & _).
  unfold unreadable. rewrite Hz. apply Z.ltb_ge. assumption.
Qed.

(** The casts and the validators of [matchSchema] refuse a document with
    a date that does not cast, with a matchType or an outcome that its
    enum does not have, or with a number that [parseInt] reads as NaN or
    as a negative integer. *)
Lemma new_Match_refused (cast_Date : string -> option Date) (id uid : ObjectId) (b : Body.t) :
  Body.date b ≫= cast_Date = None \/
  Body.matchType b ≫= cast_MatchType = None \/
  Body.outcome b ≫= cast_Outcome = None \/
  unreadable (Body.roundsWon b) || unreadable (Body.roundsLost b)
    || unreadable (Body.damage b) || unreadable (Body.kills b)
    || unreadable (Body.deaths b) || unreadable (Body.assists b) = true ->
  new_Match cast_Date id uid b = None.
Proof.
  intros Hbad.
  destruct (new_Match cast_Date id uid b) as [m|] eqn:H; [exfalso|reflexivity].
  unfold new_Match in H.
  apply bind_Some in H. destruct H as (date & Hdate & H).
  apply bind_Some in H. destruct H as (time & Htime & H).
  apply bind_Some in H. destruct H as (matchType & HmatchType & H).
  apply bind_Some in H. destruct H as (outcome & Houtcome & H).
  apply bind_Some in H. destruct H as (map & Hmap & H).
  apply bind_Some in H. destruct H as (roundsWon & HroundsWon & H).
  apply bind_Some in H. destruct H as (roundsLost & HroundsLost & H).
  apply bind_Some in H. destruct H as (damage & Hdamage & H).
  apply bind_Some in H. destruct H as (kills & Hkills & H).
  apply bind_Some in H. destruct H as (deaths & Hdeaths & H).
  apply bind_Some in H. destruct H as (assists & Hassists & _).
  destruct Hbad as [Hd|[Hty|[Hout|Hneg]]]; [|congruence|congruence|].
  - apply bind_Some in Hdate. destruct Hdate as (s & Hs & Hc).
    unfold required in Hs. destruct (Body.date b) as [s'|]; [|discriminate].
    destruct (String.eqb s' ""); [discriminate|]. injection Hs as ->.
    cbn [mbind option_bind] in Hd. congruence.
  - rewrite (cast_min0_readable _ _ HroundsWon), (cast_min0_readable _ _ HroundsLost),
      (cast_min0_readable _ _ Hdamage), (cast_min0_readable _ _ Hkills),
      (cast_min0_readable _ _ Hdeaths), (cast_min0_readable _ _ Hassists) in Hneg.
    discriminate.
Qed.

(** A document that the casts or the validators refuse is answered 500
    once the checks of the route are passed; nothing is stored. *)
Lemma post_match_refused (cast_Date : string -> option Date) (rejects : Call -> bool) (uid id : ObjectId) (b : Body.t) (db : DB) :
  missing_field b = false ->
  negative_rounds b = false ->
  new_Match cast_Date id uid b = None ->
  post_match cast_Date rejects uid id b db = (Fulfilled (json 500), db).
Proof.
  intros Hc1 Hc2 Hnew.
  unfold missing_field in Hc1. unfold negative_rounds in Hc2.
  unfold post_match, try_catch. rewrite Hc1, Hc2.
  unfold mbind, Promise_bind, save_Match, call, mret, Promise_ret.
  rewrite Hnew. destruct (rejects Match_save); reflexivity.
Qed.

(** The answers to a body that is not stored.  A missing field is
    answered 400, and so is a number of rounds below 0, which the route
    compares with 0 as it came, before [parseInt] reads it: also a number
    of rounds between -1 and 0.  A body past these two checks with a date
    that does not cast to a Date, a matchType or an outcome that is none
    of the values of its enum, or a number from which [parseInt] reads NaN
    or a negative integer (the damage, the kills, the deaths or the
    assists from -1 down) is answered 500 and not 400.  In each case
    nothing is stored. *)
Theorem post_match_invalid (cast_Date : string -> option Date) (rejects : Call -> bool) (uid id : ObjectId) (b : Body.t) (db : DB) :
  (missing_field b = true \/ negative_rounds b = true ->
   post_match cast_Date rejects uid id b db = (Fulfilled (json 400), db)) /\
  (missing_field b = false ->
   negative_rounds b = false ->
   Body.date b ≫= cast_Date = None \/
   Body.matchType b ≫= cast_MatchType = None \/
   Body.outcome b ≫= cast_Outcome = None \/
   unreadable (Body.roundsWon b) || unreadable (Body.roundsLost b)
     || unreadable (Body.damage b) || unreadable (Body.kills b)
     || unreadable (Body.deaths b) || unreadable (Body.assists b) = true ->
   post_match cast_Date rejects uid id b db = (Fulfilled (json 500), db)).
Proof.
  split.
  - intros Hbad. unfold post_match, try_catch.
    fold (missing_field b). fold (negative_rounds b).
    destruct (missing_field b); [reflexivity|].
    destruct Hbad as [Hm|Hn]; [discriminate|]. rewrite Hn. reflexivity.
  - intros Hc1 Hc2 Hbad. apply post_match_refused; [assumption..|].
    apply new_Match_refused. assumption.
Qed.

(** No account deletes the match of another: when the account has no
    match with the [_id], whoever else has one, the request is answered
    404 (500 when the datastore rejects the call) and the datastore is as
    it was. *)
Theorem delete_match_not_owned (rejects : Call -> bool) (uid id : ObjectId) (db : DB) :
  has_match uid id db = false ->
  delete_match rejects uid id db =
  (Fulfilled (json (if rejects Match_findOneAndDelete then 500 else 404)), db).
Proof.
  intros H. apply remove_first_None in H.
  unfold delete_match, try_catch, mbind, Promise_bind, findOneAndDelete_Match, call,
    mret, Promise_ret.
  destruct (rejects Match_findOneAndDelete); [reflexivity|].
  rewrite H. reflexivity.
Qed.

(** Every request is answered: with 200, 201, 400, 404 or 500, and with a
    summary exactly when the status is 200 or 201.  A request answered
    400 or 404 has written nothing, and when the datastore rejects no call
    so has a request answered 500. *)
Theorem handle_answers (cast_Date : string -> option Date) (rejects : Call -> bool) (r : Request) (db : DB) :
  exists res,
    fst (handle cast_Date rejects r db) = Fulfilled res /\
    In (status res) [200; 201; 400; 404; 500]%N /\
    (is_Some (stats res) <-> status res = 200%N \/ status res = 201%N) /\
    (status res = 400%N \/ status res = 404%N -> snd (handle cast_Date rejects r db) = db) /\
    ((forall c, rejects c = false) -> status res = 500%N -> snd (handle cast_Date rejects r db) = db).
Proof.
  assert (Hall : (snd (handle cast_Date rejects r db) = db /\
                  exists code, (code = 400 \/ code = 404 \/ code = 500)%N /\
                    fst (handle cast_Date rejects r db) = Fulfilled (json code)) \/
                 (fst (handle cast_Date rejects r db) = Fulfilled (json 500) /\
                  exists c, rejects c = true) \/
                 exists code s, (code = 200 \/ code = 201)%N /\
                   fst (handle cast_Date rejects r db) = Fulfilled {| status := code; stats := Some s |}).
  { destruct r as [uid id b|uid id|uid]; cbn [handle].
    - destruct (post_match_run cast_Date rejects uid id b db) as [[Hs [Hf|Hf]]|(m & _ & Hrun)].
      + left. split; [assumption|]. exists 400%N. tauto.
      + left. split; [assumption|]. exists 500%N. tauto.
      + right. destruct (rejects Match_find || rejects User_findByIdAndUpdate) eqn:Hrej;
          cbv zeta in Hrun; rewrite Hrun.
        * left. split; [reflexivity|]. apply orb_prop in Hrej. destruct Hrej; eauto.
        * right. eexists 201%N, _. split; [tauto|reflexivity].
    - destruct (delete_match_run rejects uid id db)
        as [[Hs [Hf|Hf]]|(m & l1 & l2 & _ & _ & Hrun)].
      + left. split; [assumption|]. exists 404%N. tauto.
      + left. split; [assumption|]. exists 500%N. tauto.
      + right. destruct (rejects Match_find || rejects User_findByIdAndUpdate) eqn:Hrej;
          cbv zeta in Hrun; rewrite Hrun.
        * left. split; [reflexivity|]. apply orb_prop in Hrej. destruct Hrej; eauto.
        * right. eexists 200%N, _. split; [tauto|reflexivity].
    - destruct (delete_stats_run rejects uid db) as [[Hs [Hf|Hf]]|(u & _ & Hrun)].
      + left. split; [assumption|]. exists 404%N. tauto.
      + left. split; [assumption|]. exists 500%N. tauto.
      + right. destruct (rejects User_save) eqn:Hrej; cbv zeta in Hrun; rewrite Hrun.
        * left. split; [reflexivity|]. eauto.
        * right. eexists 200%N, _. split; [tauto|reflexivity]. }
  destruct Hall as [[Hs (code & Hc & Hf)]|[[Hf (c & Hrej)]|(code & s & Hc & Hf)]].
  - exists (json code). split; [assumption|]. cbn [json status stats].
    split; [cbn [In]; intuition|].
    split; [split; [intros [x Hx]; discriminate|
                    intros [H|H]; destruct Hc as [Hc|[Hc|Hc]]; rewrite Hc in H; discriminate]|].
    split; intros; assumption.
  - exists (json 500). split; [assumption|]. cbn [json status stats].
    split; [cbn [In]; intuition|].
    split; [split; [intros [x Hx]; discriminate|intros [H|H]; discriminate]|].
    split; [intros [H|H]; discriminate|].
    intros Hno. rewrite Hno in Hrej. discriminate.
  - eexists. split; [eassumption|]. cbn [status stats].
    split; [cbn [In]; destruct Hc as [-> | ->]; intuition|].
    split; [split; [intros _; tauto|intros _; eexists; reflexivity]|].
    split; [intros [H|H]; destruct Hc as [Hc|Hc]; rewrite Hc in H; discriminate|].
    intros _ H. destruct Hc as [Hc|Hc]; rewrite Hc in H; discriminate.
Qed.

(** The summary in an answer is the aggregate of the matches the account
    has once the request is done, and it is the summary then stored for
    the account, if the account exists. *)
Theorem answered_summary (cast_Date : string -> option Date) (rejects : Call -> bool) (r : Request) (db db' : DB)
    (res : Response) (s : User.Stats) :
  handle cast_Date rejects r db = (Fulfilled res, db') ->
  stats res = Some s ->
  s = aggregate (owned_by (account r) (matches db')) /\
  (forall u, users db' !! account r = Some u -> User.stats u = s).
Proof.
  intros Hrun Hs. destruct r as [uid id b|uid id|uid]; cbn [handle account] in *.
  - destruct (post_match_run cast_Date rejects uid id b db) as [[_ [Hf|Hf]]|(m & _ & Hpost)].
    { rewrite Hrun in Hf. injection Hf as ->. discriminate. }
    { rewrite Hrun in Hf. injection Hf as ->. discriminate. }
    destruct (rejects Match_find || rejects User_findByIdAndUpdate);
      cbv zeta in Hpost; rewrite Hrun in Hpost.
    { injection Hpost as [= -> _]. discriminate. }
    injection Hpost as [= -> ->]. cbn [stats] in Hs. injection Hs as <-.
    destruct (users db !! uid) as [u|] eqn:Hu; cbn [matches users].
    + split; [reflexivity|]. intros u'. rewrite lookup_insert_eq. intros [= <-]. reflexivity.
    + split; [reflexivity|]. intros u'. rewrite Hu. discriminate.
  - destruct (delete_match_run rejects uid id db)
      as [[_ [Hf|Hf]]|(m & l1 & l2 & _ & _ & Hdel)].
    { rewrite Hrun in Hf. injection Hf as ->. discriminate. }
    { rewrite Hrun in Hf. injection Hf as ->. discriminate. }
    destruct (rejects Match_find || rejects User_findByIdAndUpdate);
      cbv zeta in Hdel; rewrite Hrun in Hdel.
    { injection Hdel as [= -> _]. discriminate. }
    injection Hdel as [= -> ->]. cbn [stats] in Hs. injection Hs as <-.
    destruct (users db !! uid) as [u|] eqn:Hu; cbn [matches users].
    + split; [reflexivity|]. intros u'. rewrite lookup_insert_eq. intros [= <-]. reflexivity.
    + split; [reflexivity|]. intros u'. rewrite Hu. discriminate.
  - destruct (delete_stats_run rejects uid db) as [[_ [Hf|Hf]]|(u & Hu & Hreset)].
    { rewrite Hrun in Hf. injection Hf as ->. discriminate. }
    { rewrite Hrun in Hf. injection Hf as ->. discriminate. }
    destruct (rejects User_save); cbv zeta in Hreset; rewrite Hrun in Hreset.
    { injection Hreset as [= -> _]. discriminate. }
    injection Hreset as [= -> ->]. cbn [stats] in Hs. injection Hs as <-.
    cbn [matches users]. rewrite owned_by_deleteMany.
    destruct (decide (uid = uid)); [|congruence].
    split; [reflexivity|]. intros u'. rewrite lookup_insert_eq. intros [= <-]. reflexivity.
Qed.

Lemma owned_by_singleton (uid : ObjectId) (m m' : Match.t) (l1 l2 : list Match.t) :
  Match.userId m' = uid ->
  owned_by uid (l1 ++ m' :: l2) = [m] ->
  owned_by uid (l1 ++ l2) = [].
Proof.
  intros Hm'. rewrite !owned_by_app, owned_by_cons.
  destruct (decide (Match.userId m' = uid)); [|congruence].
  intros H. destruct (owned_by uid l1) as [|x [|y l]]; cbn [app] in *.
  - injection H as _ ->. reflexivity.
  - injection H as _ H. discriminate.
  - injection H as _ H. destruct l; discriminate.
Qed.

Lemma has_match_owned (uid id : ObjectId) (db : DB) (m : Match.t) :
  m ∈ owned_by uid (matches db) -> Match._id m = id -> has_match uid id db = true.
Proof.
  unfold owned_by, has_match. intros Hin Hid.
  apply list_elem_of_filter in Hin. destruct Hin as [Hu Hin].
  apply existsb_exists. exists m. split.
  - apply list_elem_of_In. assumption.
  - rewrite Hid, Hu, !N.eqb_refl. reflexivity.
Qed.

(** Deleting the only match of an account gives the all-zero summary:
    the request is answered 200 with it, the account has no match left
    and the summary stored for it is the all-zero one. *)
Theorem delete_only_match (uid id : ObjectId) (db : DB) (m : Match.t) :
  owned_by uid (matches db) = [m] ->
  Match._id m = id ->
  let db' := snd (delete_match available uid id db) in
  fst (delete_match available uid id db) =
    Fulfilled {| status := 200; stats := Some empty_stats |} /\
  owned_by uid (matches db') = [] /\
  (forall u, users db !! uid = Some u ->
             users db' !! uid = Some (User.set_stats u empty_stats)).
Proof.
  intros Hown Hid. cbv zeta.
  assert (Hhas : has_match uid id db = true).
  { apply (has_match_owned uid id db m); [|assumption]. rewrite Hown. apply list_elem_of_here. }
  destruct (delete_match_available uid id db Hhas) as (m' & l1 & l2 & Hl & Hu & _ & Hrun).
  cbv zeta in Hrun. rewrite Hrun. cbn [fst snd].
  rewrite Hl in Hown. apply (owned_by_singleton uid m m' l1 l2 Hu) in Hown.
  rewrite Hown. cbn [aggregate].
  split; [reflexivity|].
  destruct (users db !! uid) as [u|] eqn:Hlook; cbn [matches users].
  - split; [assumption|]. intros u' [= <-]. apply lookup_insert_eq.
  - split; [assumption|]. intros u'. discriminate.
Qed.

(** Resetting twice is resetting once: with every call answered, the
    second reset is answered as the first was and leaves the datastore as
    the first left it. *)
Theorem delete_stats_twice (uid : ObjectId) (db : DB) :
  let once := delete_stats available uid db in
  delete_stats available uid (snd once) = once.
Proof.
  cbv zeta.
  unfold delete_stats, try_catch, mbind, Promise_bind, findById_User,
    deleteMany_Match, save_User, call, mret, Promise_ret, available.
  destruct (users db !! uid) as [u|] eqn:Hu; cbn [snd users matches]; [|rewrite Hu; reflexivity].
  rewrite lookup_insert_eq. cbn [matches users].
  rewrite list_filter_filter, insert_insert_eq.
  f_equal. f_equal. apply list_filter_iff. tauto.
Qed.

(** * The token *)

Lemma split_without (c : Ascii.ascii) (s : string) :
  without c s = true -> split c s = [s].
Proof.
  induction s as [|a s IH]; [reflexivity|]. cbn [without split].
  intros H. apply andb_prop in H. destruct H as [Ha Hs].
  apply negb_true_iff in Ha. rewrite Ha, (IH Hs). reflexivity.
Qed.

Lemma split_app (c : Ascii.ascii) (w t : string) :
  without c w = true -> split c (w ++ String c t)%string = w :: split c t.
Proof.
  induction w as [|a w IH]; cbn [without].
  - intros _. change (EmptyString ++ String c t)%string with (String c t).
    cbn [split]. rewrite Ascii.eqb_refl. reflexivity.
  - intros H. apply andb_prop in H. destruct H as [Ha Hw].
    apply negb_true_iff in Ha.
    change (String a w ++ String c t)%string with (String a (w ++ String c t)).
    cbn [split]. rewrite Ha, (IH Hw). reflexivity.
Qed.

Lemma append_String_nonempty (w : string) (c : Ascii.ascii) (t : string) :
  String.eqb (w ++ String c t)%string EmptyString = false.
Proof. destruct w; reflexivity. Qed.

(** The middleware reads the token as what follows the first space of
    the header, whatever stands before it: the header that the pages send,
    [Bearer] and the token, has the token verified and, when it is valid,
    the route called with its payload; a header with any other first word
    is treated alike.  Without a header, with a header that has no space
    and with nothing after the space the answer is 401; with a token that
    is not valid it is 403. *)
Theorem authenticateToken_header (jwt_verify : string -> option Claims.t)
    (scheme token : string) :
  without " " scheme = true ->
  without " " token = true ->
  let verdict :=
    if String.eqb token EmptyString then Denied 401
    else match jwt_verify token with
         | Some decoded => Next decoded
         | None => Denied 403
         end in
  authenticateToken jwt_verify (Some (bearer token)) = verdict /\
  authenticateToken jwt_verify (Some (scheme ++ " " ++ token)%string) = verdict /\
  authenticateToken jwt_verify (Some scheme) = Denied 401 /\
  authenticateToken jwt_verify None = Denied 401.
Proof.
  intros Hs Ht.
  assert (Hgen : forall w, without " " w = true ->
            authenticateToken jwt_verify (Some (w ++ " " ++ token)%string) =
            if String.eqb token EmptyString then Denied 401
            else match jwt_verify token with
                 | Some decoded => Next decoded
                 | None => Denied 403
                 end).
  { intros w Hw. unfold authenticateToken.
    change (w ++ " " ++ token)%string with (w ++ String " " token)%string.
    rewrite append_String_nonempty, (split_app _ _ _ Hw), (split_without _ _ Ht).
    cbn [lookup list_lookup]. destruct (String.eqb token EmptyString); [reflexivity|].
    destruct (jwt_verify token); reflexivity. }
  cbv zeta. split; [|split; [|split]].
  - apply (Hgen "Bearer"%string). reflexivity.
  - apply Hgen. assumption.
  - unfold authenticateToken. destruct (String.eqb scheme EmptyString); [reflexivity|].
    rewrite (split_without _ _ Hs). reflexivity.
  - reflexivity.
Qed.

(** * The routes for the account *)

Lemma findOne_User_spec (rejects_user : UserCall -> bool) (cast_userId : string -> string)
    (userId : string) (db db' : DB) (_id : ObjectId) (user : User.t) :
  findOne_User rejects_user cast_userId userId db = (Fulfilled (Some (_id, user)), db') ->
  db' = db /\ users db !! _id = Some user /\ User.userId user = cast_userId userId.
Proof.
  unfold findOne_User, call_user. destruct (rejects_user User_findOne); [discriminate|].
  intros [= H <-]. split; [reflexivity|].
  apply head_Some_elem_of, list_elem_of_filter in H. destruct H as [Hid Hin].
  apply elem_of_map_to_list in Hin. split; assumption.
Qed.

Lemma findOne_User_kept (rejects_user : UserCall -> bool) (cast_userId : string -> string)
    (userId : string) (db : DB) :
  snd (findOne_User rejects_user cast_userId userId db) = db.
Proof.
  unfold findOne_User, call_user. destruct (rejects_user User_findOne); reflexivity.
Qed.

(** What POST /api/login does, step by step. *)
Lemma login_run (rejects_user : UserCall -> bool)
    (cast_userId : string -> string) (jwt_sign : Claims.t -> string) (bcrypt_compare : string -> string -> bool)
    (userId password : option string) (db : DB) :
  (exists code msg,
     (code = 400%N \/ code = 500%N \/
      (code = 401%N /\ msg = "Invalid credentials"%string)) /\
     login rejects_user cast_userId jwt_sign bcrypt_compare userId password db =
     (Fulfilled (answer code msg), db)) \/
  exists _id user name pass,
    userId = Some name /\ password = Some pass /\
    users db !! _id = Some user /\ User.userId user = cast_userId name /\
    bcrypt_compare pass (User.password user) = true /\
    login rejects_user cast_userId jwt_sign bcrypt_compare userId password db =
    (Fulfilled
       {| Reply.status := 200;
          Reply.message := Some "Login successful!"%string;
          Reply.token :=
            Some (jwt_sign {| Claims.userId := User.userId user; Claims.id := _id;
                              Claims.username := User.username user |});
          Reply.userId := Some (User.userId user);
          Reply.username := Some (User.username user);
          Reply.isPublic := Some (User.isPublic user);
          Reply.stats := Some (User.stats user) |}, db).
Proof.
  unfold login, try_catch.
  destruct (falsy userId || falsy password) eqn:Hf.
  { left. eexists 400%N, _. split; [tauto|reflexivity]. }
  destruct userId as [name|]; [|discriminate].
  destruct password as [pass|]; [|cbn in Hf; rewrite orb_true_r in Hf; discriminate].
  unfold mbind, Promise_bind.
  pose proof (findOne_User_kept rejects_user cast_userId name db) as Hk.
  destruct (findOne_User rejects_user cast_userId name db) as [[found|] db1] eqn:Hfind;
    cbn [snd] in Hk; subst db1.
  2:{ left. eexists 500%N, _. split; [tauto|reflexivity]. }
  destruct found as [[_id user]|].
  2:{ left. eexists 401%N, _. split; [right; right; split; reflexivity|reflexivity]. }
  apply findOne_User_spec in Hfind. destruct Hfind as (_ & Hlook & Hname).
  destruct (bcrypt_compare pass (User.password user)) eqn:Hpw; cbn [negb].
  2:{ left. eexists 401%N, _. split; [right; right; split; reflexivity|reflexivity]. }
  right. exists _id, user, name, pass. repeat split; assumption.
Qed.

(** The login route gives a token, and the summary, only for the
    password of an account: when the answer has a token or a summary, an
    account with the given userId is stored, [bcrypt.compare] has accepted
    the password against its hash, and the token is the signed payload of
    that account with its [_id].  The answers 401 for an unknown userId
    and for a wrong password are the same, and the route writes nothing. *)
Theorem login_checks_password (rejects_user : UserCall -> bool)
    (cast_userId : string -> string) (jwt_sign : Claims.t -> string) (bcrypt_compare : string -> string -> bool)
    (userId password : option string) (db : DB) :
  let run := login rejects_user cast_userId jwt_sign bcrypt_compare userId password db in
  snd run = db /\
  exists rep,
    fst run = Fulfilled rep /\
    (Reply.status rep = 401%N -> rep = answer 401 "Invalid credentials") /\
    (is_Some (Reply.token rep) \/ is_Some (Reply.stats rep) ->
     exists _id user name pass,
       userId = Some name /\ password = Some pass /\
       users db !! _id = Some user /\ User.userId user = cast_userId name /\
       bcrypt_compare pass (User.password user) = true /\
       Reply.status rep = 200%N /\
       Reply.token rep =
         Some (jwt_sign {| Claims.userId := User.userId user; Claims.id := _id;
                           Claims.username := User.username user |}) /\
       Reply.stats rep = Some (User.stats user)).
Proof.
  cbv zeta.
  destruct (login_run rejects_user cast_userId jwt_sign bcrypt_compare userId password db)
    as [(code & msg & Hc & ->)|(_id & user & name & pass & Hn & Hp & Hlook & Hname & Hpw & ->)];
    cbn [fst snd]; (split; [reflexivity|]); eexists; (split; [reflexivity|]).
  - cbn [answer Reply.status Reply.token Reply.stats]. split.
    + intros ->. destruct Hc as [Hc|[Hc|[_ ->]]]; [discriminate..|reflexivity].
    + intros [[x Hx]|[x Hx]]; discriminate.
  - cbn [Reply.status Reply.token Reply.stats]. split; [discriminate|]. intros _.
    exists _id, user, name, pass. repeat split; assumption.
Qed.

(** A token from the login route, sent in the header as the pages send
    it, has each route behind the middleware run for the account that
    logged in: the token is the signed payload of an account with the
    userId given to the login, and once [jwt.verify] reads that payload
    back from it, the handler is called with the [_id] of that account.
    This holds for a token that is not empty and has no space. *)
Theorem login_then_authenticated (rejects_user : UserCall -> bool)
    (cast_userId : string -> string) (jwt_sign : Claims.t -> string) (jwt_verify : string -> option Claims.t)
    (bcrypt_compare : string -> string -> bool)
    (userId password : option string) (db : DB) (rep : Reply.t) (t : string) :
  fst (login rejects_user cast_userId jwt_sign bcrypt_compare userId password db) = Fulfilled rep ->
  Reply.token rep = Some t ->
  without " " t = true ->
  t <> EmptyString ->
  exists _id user,
    users db !! _id = Some user /\
    Some (User.userId user) = cast_userId <$> userId /\
    let payload := {| Claims.userId := User.userId user; Claims.id := _id;
                      Claims.username := User.username user |} in
    t = jwt_sign payload /\
    (jwt_verify t = Some payload ->
     forall (R : Type) (denied : N -> R) (handler : ObjectId -> Promise R),
       authenticated jwt_verify denied (Some (bearer t)) handler = handler _id).
Proof.
  intros Hrun Htok Hspace Hne.
  destruct (login_run rejects_user cast_userId jwt_sign bcrypt_compare userId password db)
    as [(code & msg & _ & Hl)|(_id & user & name & pass & -> & _ & Hlook & Hname & _ & Hl)];
    rewrite Hl in Hrun; cbn [fst] in Hrun; injection Hrun as <-; [discriminate|].
  cbn [Reply.token] in Htok. injection Htok as Ht. symmetry in Ht.
  exists _id, user. split; [assumption|]. split; [cbn [fmap option_fmap option_map]; congruence|].
  cbv zeta. split; [assumption|].
  intros Hverify R denied handler. unfold authenticated.
  assert (Hauth : authenticateToken jwt_verify (Some (bearer t)) =
                  Next {| Claims.userId := User.userId user; Claims.id := _id;
                          Claims.username := User.username user |}).
  { unfold authenticateToken, bearer.
    change ("Bearer " ++ t)%string with ("Bearer" ++ String " " t)%string.
    rewrite append_String_nonempty, (split_app " " "Bearer" t eq_refl),
      (split_without _ _ Hspace).
    cbn [lookup list_lookup].
    destruct (String.eqb t EmptyString) eqn:E; [apply String.eqb_eq in E; contradiction|].
    rewrite Hverify. reflexivity. }
  rewrite Hauth. reflexivity.
Qed.

(** ** The privacy setting and the public profile *)

Lemma put_privacy_run (rejects : Call -> bool) (uid : ObjectId) (isPublic : option bool) (db : DB) :
  (snd (put_privacy rejects uid isPublic db) = db /\
   exists code msg, (code = 400 \/ code = 404 \/ code = 500)%N /\
     fst (put_privacy rejects uid isPublic db) = Fulfilled (answer code msg)) \/
  exists u b rep,
    isPublic = Some b /\ users db !! uid = Some u /\
    Reply.status rep = 200%N /\ Reply.isPublic rep = Some b /\
    put_privacy rejects uid isPublic db =
    (Fulfilled rep, {| matches := matches db; users := <[uid := set_isPublic u b]> (users db) |}).
Proof.
  unfold put_privacy, try_catch, mbind, Promise_bind, findById_User, save_User, call,
    mret, Promise_ret.
  destruct isPublic as [b|]; [|left; split; [reflexivity|]; eexists 400%N, _; split; [tauto|reflexivity]].
  destruct (rejects User_findById);
    [left; split; [reflexivity|]; eexists 500%N, _; split; [tauto|reflexivity]|].
  destruct (users db !! uid) as [u|] eqn:Hu;
    [|left; split; [reflexivity|]; eexists 404%N, _; split; [tauto|reflexivity]].
  destruct (rejects User_save);
    [left; split; [reflexivity|]; eexists 500%N, _; split; [tauto|reflexivity]|].
  right. eexists u, b, _. repeat split; reflexivity.
Qed.

(** What is set is what is read: once PUT /api/user/me/privacy has
    stored a setting for an account, GET /api/user/me/privacy answers 200
    with that setting.  The request changes no match and no summary, and
    no document of another account. *)
Theorem privacy_round_trip (uid : ObjectId) (b : bool) (db : DB) (u : User.t) :
  users db !! uid = Some u ->
  let db' := snd (put_privacy available uid (Some b) db) in
  (exists rep, fst (get_privacy available uid db') = Fulfilled rep /\
               Reply.status rep = 200%N /\ Reply.isPublic rep = Some b) /\
  matches db' = matches db /\
  (forall uid', User.stats <$> users db' !! uid' = User.stats <$> users db !! uid') /\
  (forall uid', uid' <> uid -> users db' !! uid' = users db !! uid').
Proof.
  intros Hu. cbv zeta.
  unfold put_privacy, get_privacy, try_catch, mbind, Promise_bind, findById_User,
    save_User, call, mret, Promise_ret, available.
  rewrite Hu. cbn [snd users matches]. rewrite lookup_insert_eq. cbn [fst].
  split; [eexists; repeat split|]. split; [reflexivity|]. split.
  - intros uid'. destruct (decide (uid = uid')) as [<-|Hne].
    + rewrite lookup_insert_eq, Hu. reflexivity.
    + rewrite lookup_insert_ne by assumption. reflexivity.
  - intros uid' Hne. apply lookup_insert_ne. congruence.
Qed.

(** What GET /api/user/:userId does, step by step. *)
Lemma get_user_run (rejects : Call -> bool) (rejects_user : UserCall -> bool)
    (cast_userId : string -> string) (userId : string) (db : DB) :
  (exists code msg, (code = 403 \/ code = 404 \/ code = 500)%N /\
     get_user rejects rejects_user cast_userId userId db = (Fulfilled (answer code msg), db)) \/
  exists _id user,
    users db !! _id = Some user /\ User.userId user = cast_userId userId /\
    User.isPublic user = true /\
    get_user rejects rejects_user cast_userId userId db =
    (Fulfilled
       {| Reply.status := 200; Reply.message := None; Reply.token := None;
          Reply.userId := Some (User.userId user);
          Reply.username := Some (User.username user);
          Reply.isPublic := None;
          Reply.stats := Some (User.stats user) |}, db).
Proof.
  unfold get_user, try_catch, mbind, Promise_bind.
  pose proof (findOne_User_kept rejects_user cast_userId userId db) as Hk.
  destruct (findOne_User rejects_user cast_userId userId db) as [[found|] db1] eqn:Hfind;
    cbn [snd] in Hk; subst db1.
  2:{ left. eexists 500%N, _. split; [tauto|reflexivity]. }
  destruct found as [[_id user]|].
  2:{ left. eexists 404%N, _. split; [tauto|reflexivity]. }
  apply findOne_User_spec in Hfind. destruct Hfind as (_ & Hlook & Hname).
  destruct (User.isPublic user) eqn:Hpub; cbn [negb].
  2:{ left. eexists 403%N, _. split; [tauto|reflexivity]. }
  unfold find_Match, call, mret, Promise_ret.
  destruct (rejects Match_find).
  { left. eexists 500%N, _. split; [tauto|reflexivity]. }
  right. exists _id, user. repeat split; assumption.
Qed.

(** The public profile shows the summary of a public account only: when
    GET /api/user/:userId answers with a summary, an account with that
    userId is stored, its profile is public and the summary is the one
    stored for it.  The route writes nothing. *)
Theorem get_user_public_only (rejects : Call -> bool) (rejects_user : UserCall -> bool)
    (cast_userId : string -> string) (userId : string) (db : DB) :
  let run := get_user rejects rejects_user cast_userId userId db in
  snd run = db /\
  exists rep,
    fst run = Fulfilled rep /\
    (is_Some (Reply.stats rep) ->
     exists _id user,
       users db !! _id = Some user /\ User.userId user = cast_userId userId /\
       User.isPublic user = true /\
       Reply.status rep = 200%N /\
       Reply.stats rep = Some (User.stats user)).
Proof.
  cbv zeta.
  destruct (get_user_run rejects rejects_user cast_userId userId db)
    as [(code & msg & _ & ->)|(_id & user & Hlook & Hname & Hpub & ->)];
    cbn [fst snd]; (split; [reflexivity|]); eexists; (split; [reflexivity|]).
  - intros [x Hx]. discriminate.
  - intros _. exists _id, user. cbn [Reply.status Reply.stats]. repeat split; assumption.
Qed.

(** Once an account has set its profile to private, the public profile
    of its userId is answered 403, provided no other account has the same
    userId (the schema declares it unique) and the userId is cast to
    itself in the filter. *)
Theorem private_profile_hidden (cast_userId : string -> string) (uid : ObjectId) (db : DB)
    (u : User.t) :
  users db !! uid = Some u ->
  (forall uid' u', users db !! uid' = Some u' ->
                   User.userId u' = User.userId u -> uid' = uid) ->
  cast_userId (User.userId u) = User.userId u ->
  let db' := snd (put_privacy available uid (Some false) db) in
  get_user available available_user cast_userId (User.userId u) db' =
  (Fulfilled (answer 403 "This player profile is private"), db').
Proof.
  intros Hu Huniq Hcast. cbv zeta.
  unfold put_privacy, try_catch, mbind, Promise_bind, findById_User,
    save_User, call, mret, Promise_ret, available.
  rewrite Hu. cbn [snd].
  set (db' := {| matches := matches db; users := <[uid := set_isPublic u false]> (users db) |}).
  unfold get_user, try_catch, mbind, Promise_bind, findOne_User, call_user, available_user.
  rewrite Hcast.
  destruct (head (filter (fun iu : ObjectId * User.t => User.userId (snd iu) = User.userId u)
                         (map_to_list (users db')))) as [[_id user]|] eqn:Hhead.
  - assert (Hin := Hhead). apply head_Some_elem_of, list_elem_of_filter in Hin.
    destruct Hin as [Hname Hin]. apply elem_of_map_to_list in Hin.
    cbn [snd] in Hname. cbn [db' users] in Hin.
    destruct (decide (uid = _id)) as [<-|Hne].
    + rewrite lookup_insert_eq in Hin. injection Hin as <-. reflexivity.
    + rewrite lookup_insert_ne in Hin by assumption.
      exfalso. apply Hne. symmetry. eapply Huniq; eassumption.
  - exfalso. apply head_None in Hhead.
    assert (Hin : (uid, set_isPublic u false) ∈
                  filter (fun iu : ObjectId * User.t => User.userId (snd iu) = User.userId u)
                         (map_to_list (users db'))).
    { apply list_elem_of_filter. split; [reflexivity|].
      apply elem_of_map_to_list. cbn [db' users]. apply lookup_insert_eq. }
    rewrite Hhead in Hin. apply not_elem_of_nil in Hin. assumption.
Qed.

(** ** Deleting the account *)

Lemma delete_account_run (rejects : Call -> bool) (rejects_user : UserCall -> bool)
    (uid : ObjectId) (db : DB) :
  (snd (delete_account rejects rejects_user uid db) = db /\
   exists code msg, (code = 404 \/ code = 500)%N /\
     fst (delete_account rejects rejects_user uid db) = Fulfilled (answer code msg)) \/
  exists u, users db !! uid = Some u /\
    let remaining := filter (fun m => Match.userId m <> uid) (matches db) in
    if rejects_user User_findByIdAndDelete then
      delete_account rejects rejects_user uid db =
      (Fulfilled (answer 500 "Error deleting account"),
       {| matches := remaining; users := users db |})
    else
      delete_account rejects rejects_user uid db =
      (Fulfilled (answer 200 "Account deleted successfully!"),
       {| matches := remaining; users := delete uid (users db) |}).
Proof.
  unfold delete_account, try_catch, mbind, Promise_bind, findById_User,
    deleteMany_Match, findByIdAndDelete_User, call, call_user, mret, Promise_ret.
  destruct (rejects User_findById);
    [left; split; [reflexivity|]; eexists 500%N, _; split; [tauto|reflexivity]|].
  destruct (users db !! uid) as [u|] eqn:Hu;
    [|left; split; [reflexivity|]; eexists 404%N, _; split; [tauto|reflexivity]].
  destruct (rejects Match_deleteMany);
    [left; split; [reflexivity|]; eexists 500%N, _; split; [tauto|reflexivity]|].
  right. exists u. split; [reflexivity|]. cbv zeta.
  destruct (rejects_user User_findByIdAndDelete); reflexivity.
Qed.

(** DELETE /api/user/me answered 200 has removed the account and every
    match of it, and nothing else: the document and the matches of every
    other account are as they were.  Answered otherwise, it has left the
    User collection as it was. *)
Theorem delete_account_removes (rejects : Call -> bool) (rejects_user : UserCall -> bool)
    (uid : ObjectId) (db db' : DB) (rep : Reply.t) :
  delete_account rejects rejects_user uid db = (Fulfilled rep, db') ->
  (Reply.status rep = 200%N ->
   users db' !! uid = None /\ owned_by uid (matches db') = []) /\
  (Reply.status rep <> 200%N -> users db' = users db) /\
  (forall uid', uid' <> uid ->
     users db' !! uid' = users db !! uid' /\
     owned_by uid' (matches db') = owned_by uid' (matches db)).
Proof.
  intros Hrun.
  destruct (delete_account_run rejects rejects_user uid db)
    as [[Hs (code & msg & Hc & Hf)]|(u & Hu & Hdel)].
  - rewrite Hrun in Hs, Hf. cbn [fst snd] in Hs, Hf. subst db'. injection Hf as ->.
    cbn [answer Reply.status]. split; [|split].
    + intros H. destruct Hc as [Hc|Hc]; rewrite Hc in H; discriminate.
    + reflexivity.
    + intros uid' _. split; reflexivity.
  - cbv zeta in Hdel.
    destruct (rejects_user User_findByIdAndDelete); rewrite Hrun in Hdel;
      injection Hdel as [= -> ->]; cbn [answer Reply.status matches users].
    + split; [discriminate|]. split; [reflexivity|].
      intros uid' Hne. split; [reflexivity|]. rewrite owned_by_deleteMany.
      destruct (decide (uid' = uid)); [contradiction|reflexivity].
    + split; [|split].
      * intros _. split; [apply lookup_delete_eq|].
        rewrite owned_by_deleteMany. destruct (decide (uid = uid)); [reflexivity|congruence].
      * intros H. congruence.
      * intros uid' Hne. split; [apply lookup_delete_ne; congruence|].
        rewrite owned_by_deleteMany.
        destruct (decide (uid' = uid)); [contradiction|reflexivity].
Qed.

(** The add-match route does not ask whether the account exists: for an
    [id] without a document in the User collection (a deleted account
    whose token is still valid) a body with no number of rounds below 0
    that passes the casts and the validators (its date casts to a Date,
    its numbers are read by [parseInt] as integers that are not negative)
    is answered 201 with the summary of the account's matches, the match
    is stored, and no summary is. *)
Theorem post_match_without_account (cast_Date : string -> option Date) (uid id : ObjectId) (b : Body.t) (db : DB) (m : Match.t) :
  users db !! uid = None ->
  negative_rounds b = false ->
  new_Match cast_Date id uid b = Some m ->
  stored id db = false ->
  post_match cast_Date available uid id b db =
  (Fulfilled {| status := 201;
                stats := Some (aggregate (owned_by uid (matches db ++ [m]))) |},
   {| matches := matches db ++ [m]; users := users db |}).
Proof.
  intros Hu Hc2 Hnew Hst. rewrite (post_match_available cast_Date uid id b db m Hc2 Hnew Hst).
  cbv zeta. rewrite Hu. reflexivity.
Qed.

(** ** Signing up *)

Lemma taken_spec (userId : string) (db : DB) :
  taken userId db = true <->
  exists i u, users db !! i = Some u /\ User.userId u = userId.
Proof.
  unfold taken. rewrite existsb_exists. split.
  - intros ([i u] & Hin & Heq). apply list_elem_of_In, elem_of_map_to_list in Hin.
    apply String.eqb_eq in Heq. eauto.
  - intros (i & u & Hl & Heq). exists (i, u). split.
    + apply list_elem_of_In, elem_of_map_to_list. assumption.
    + apply String.eqb_eq. assumption.
Qed.

(** What POST /api/signup does, step by step. *)
Lemma signup_run (rejects : Call -> bool) (rejects_user : UserCall -> bool)
    (cast_userId : string -> string) (jwt_sign : Claims.t -> string)
    (trim hashPassword : string -> string) (validates : User.t -> bool)
    (_id : ObjectId) (userId username password : option string) (db : DB) :
  (exists code msg, (code = 400 \/ code = 409 \/ code = 500)%N /\
     signup rejects rejects_user cast_userId jwt_sign trim hashPassword validates
       _id userId username password db = (Fulfilled (answer code msg), db)) \/
  exists name uname pass,
    userId = Some name /\ username = Some uname /\ password = Some pass /\
    users db !! _id = None /\
    taken (trim name) db = false /\
    validates (new_User trim name uname (hashPassword pass)) = true /\
    signup rejects rejects_user cast_userId jwt_sign trim hashPassword validates
      _id userId username password db =
    (Fulfilled
       {| Reply.status := 201;
          Reply.message := Some "Account created successfully!"%string;
          Reply.token :=
            Some (jwt_sign {| Claims.userId := trim name; Claims.id := _id;
                              Claims.username := trim uname |});
          Reply.userId := Some (trim name);
          Reply.username := Some (trim uname);
          Reply.isPublic := Some true;
          Reply.stats := Some signup_stats |},
     {| matches := matches db;
        users := <[_id := new_User trim name uname (hashPassword pass)]> (users db) |}).
Proof.
  unfold signup.
  destruct (falsy userId || falsy username || falsy password) eqn:Hf.
  { left. eexists 400%N, _. split; [tauto|reflexivity]. }
  destruct userId as [name|]; [|discriminate].
  destruct username as [uname|]; [|cbn in Hf; rewrite orb_true_r in Hf; discriminate].
  destruct password as [pass|]; [|cbn in Hf; rewrite orb_true_r in Hf; discriminate].
  pose proof (findOne_User_kept rejects_user cast_userId name db) as Hk.
  destruct (findOne_User rejects_user cast_userId name db) as [[found|] db1];
    cbn [snd] in Hk; subst db1.
  2:{ left. eexists 500%N, _. split; [tauto|reflexivity]. }
  destruct found as [existingUser|].
  { left. eexists 409%N, _. split; [tauto|reflexivity]. }
  cbv zeta. unfold insert_User.
  destruct (rejects User_save).
  { left. eexists 500%N, _. split; [tauto|reflexivity]. }
  destruct (validates (new_User trim name uname (hashPassword pass))) eqn:Hv; cbn [negb].
  2:{ left. eexists 500%N, _. split; [tauto|reflexivity]. }
  cbn [new_User User.userId].
  destruct (taken (trim name) db) eqn:Ht.
  { left. eexists 409%N, _. split; [tauto|reflexivity]. }
  destruct (users db !! _id) eqn:Hid.
  { left. eexists 409%N, _. split; [tauto|reflexivity]. }
  right. exists name, uname, pass. repeat split; assumption.
Qed.

(** Signing up stores the account or nothing.  Answered 201, it has
    stored one new document under an [_id] that had none: with the userId
    and the username trimmed, the hash of the password and never the
    password as given, a public profile and the summary of no match; the
    answer has that summary and the signed payload of the account; no
    match and no other document has changed.  Answered otherwise, it has
    written nothing. *)
Theorem signup_creates (rejects : Call -> bool) (rejects_user : UserCall -> bool)
    (cast_userId : string -> string) (jwt_sign : Claims.t -> string)
    (trim hashPassword : string -> string) (validates : User.t -> bool)
    (_id : ObjectId) (userId username password : option string) (db db' : DB)
    (rep : Reply.t) :
  signup rejects rejects_user cast_userId jwt_sign trim hashPassword validates
    _id userId username password db = (Fulfilled rep, db') ->
  (Reply.status rep <> 201%N -> db' = db) /\
  (Reply.status rep = 201%N ->
   exists name uname pass user,
     userId = Some name /\ username = Some uname /\ password = Some pass /\
     users db !! _id = None /\
     matches db' = matches db /\
     users db' = <[_id := user]> (users db) /\
     User.userId user = trim name /\
     User.username user = trim uname /\
     User.password user = hashPassword pass /\
     User.isPublic user = true /\
     User.stats user = aggregate [] /\
     Reply.stats rep = Some (User.stats user) /\
     Reply.token rep =
       Some (jwt_sign {| Claims.userId := User.userId user; Claims.id := _id;
                         Claims.username := User.username user |})).
Proof.
  intros Hrun.
  destruct (signup_run rejects rejects_user cast_userId jwt_sign trim hashPassword validates
              _id userId username password db)
    as [(c & msg & Hc & Hs)|(name & uname & pass & Hn & Hu & Hp & Hfree & _ & _ & Hs)];
    rewrite Hs in Hrun; injection Hrun as [= <- <-].
  - split; [reflexivity|]. cbn [answer Reply.status]. intros H.
    destruct Hc as [Hc|[Hc|Hc]]; rewrite Hc in H; discriminate.
  - split; [intros H; contradiction H; reflexivity|]. intros _.
    exists name, uname, pass, (new_User trim name uname (hashPassword pass)).
    repeat split; assumption.
Qed.

(** Signing up keeps the userIds apart, whatever the datastore rejects
    and whatever the lookup before the insert has found. *)
Lemma signup_unique (rejects : Call -> bool) (rejects_user : UserCall -> bool)
    (cast_userId : string -> string) (jwt_sign : Claims.t -> string)
    (trim hashPassword : string -> string) (validates : User.t -> bool)
    (_id : ObjectId) (userId username password : option string) (db : DB) :
  unique_userIds db ->
  unique_userIds
    (snd (signup rejects rejects_user cast_userId jwt_sign trim hashPassword validates
            _id userId username password db)).
Proof.
  intros Huniq.
  destruct (signup_run rejects rejects_user cast_userId jwt_sign trim hashPassword validates
              _id userId username password db)
    as [(c & msg & _ & ->)|(name & uname & pass & _ & _ & _ & Hfree & Htaken & _ & ->)];
    cbn [snd]; [assumption|].
  assert (Hnone : forall i u, users db !! i = Some u -> User.userId u <> trim name).
  { intros i u Hl Heq. assert (H : taken (trim name) db = true) by (apply taken_spec; eauto).
    congruence. }
  intros i j u v. cbn [users].
  destruct (decide (_id = i)) as [<-|Hi], (decide (_id = j)) as [<-|Hj].
  - reflexivity.
  - rewrite lookup_insert_eq, lookup_insert_ne by assumption.
    intros [= <-] Hv Heq. cbn [new_User User.userId] in Heq.
    exfalso. apply (Hnone j v Hv). congruence.
  - rewrite lookup_insert_eq, lookup_insert_ne by assumption.
    intros Hu [= <-] Heq. cbn [new_User User.userId] in Heq.
    exfalso. apply (Hnone i u Hu). congruence.
  - rewrite !lookup_insert_ne by assumption. apply Huniq.
Qed.

(** ** The userIds of the accounts *)

(** A datastore whose documents all stand for documents of [db] under
    the same [_id] and with the same userId keeps the userIds apart. *)
Lemma unique_userIds_kept (db db' : DB) :
  (forall i v, users db' !! i = Some v ->
     exists u, users db !! i = Some u /\ User.userId u = User.userId v) ->
  unique_userIds db -> unique_userIds db'.
Proof.
  intros Hkept Huniq i j u v Hu Hv Heq.
  destruct (Hkept i u Hu) as (u0 & Hu0 & Hiu), (Hkept j v Hv) as (v0 & Hv0 & Hjv).
  apply (Huniq i j u0 v0 Hu0 Hv0). congruence.
Qed.

(** No request makes two accounts share a userId: when no two stored
    accounts have the same userId, none have after a request that signs
    up, adds or deletes a match, resets the statistics, sets the privacy
    or deletes the account, however it ends and whatever the datastore
    rejects meanwhile.  For the signup this rests on the unique index of
    the collection and not on the lookup that the route makes first. *)
Theorem userIds_stay_unique (lib : Libraries) (rejects : Call -> bool)
    (rejects_user : UserCall -> bool) (a : Action) (db : DB) :
  unique_userIds db ->
  unique_userIds (snd (perform lib rejects rejects_user a db)).
Proof.
  intros Huniq.
  destruct a as [_id userId username password|r|uid isPublic|uid]; cbn [perform].
  - pose proof (signup_unique rejects rejects_user (lib_cast_userId lib) (lib_jwt_sign lib)
                  (lib_trim lib) (lib_hashPassword lib) (lib_validates lib)
                  _id userId username password db Huniq) as H.
    destruct (signup _ _ _ _ _ _ _ _ _ _ _ db) as [[rep|] db1]; exact H.
  - assert (H : unique_userIds (snd (handle (lib_cast_Date lib) rejects r db))).
    { apply (unique_userIds_kept db); [|assumption]. intros i v Hv.
      destruct (handle_users (lib_cast_Date lib) rejects r db i) as [Hsame|(_ & u & s & Hu & Hset)];
        cbv zeta in *.
      - rewrite Hsame in Hv. eauto.
      - rewrite Hset in Hv. injection Hv as <-. eauto. }
    destruct (handle (lib_cast_Date lib) rejects r db) as [[res|] db1]; exact H.
  - assert (H : unique_userIds (snd (put_privacy rejects uid isPublic db))).
    { destruct (put_privacy_run rejects uid isPublic db)
        as [[-> _]|(u & b & rep & _ & Hu & _ & _ & ->)]; [assumption|].
      apply (unique_userIds_kept db); [|assumption]. intros i v. cbn [snd users].
      destruct (decide (uid = i)) as [<-|Hne].
      - rewrite lookup_insert_eq. intros [= <-]. eauto.
      - rewrite lookup_insert_ne by assumption. eauto. }
    destruct (put_privacy rejects uid isPublic db) as [[rep|] db1]; exact H.
  - assert (H : unique_userIds (snd (delete_account rejects rejects_user uid db))).
    { destruct (delete_account_run rejects rejects_user uid db)
        as [[-> _]|(u & Hu & Hdel)]; [assumption|].
      cbv zeta in Hdel.
      destruct (rejects_user User_findByIdAndDelete); rewrite Hdel; cbn [snd].
      - apply (unique_userIds_kept db); [|assumption]. cbn [users]. eauto.
      - apply (unique_userIds_kept db); [|assumption]. intros i v. cbn [users].
        destruct (decide (i = uid)) as [->|Hne].
        + rewrite lookup_delete_eq. discriminate.
        + rewrite lookup_delete_ne by congruence. eauto. }
    destruct (delete_account rejects rejects_user uid db) as [[rep|] db1]; exact H.
Qed.

(** ** The summary that the routes answer with *)





(** * The form that adds a match *)

(** ** The integers that the form sends, as the route reads them *)

Lemma binary_round_aux_opp (m e : Z) (l : location) :
  binary_round_aux Number.prec Number.emax true m e l =
  SFopp (binary_round_aux Number.prec Number.emax false m e l).
Proof.
  unfold binary_round_aux.
  destruct (shr_fexp Number.prec Number.emax m e l) as [mrs1 e1].
  destruct (shr_fexp Number.prec Number.emax _ e1 loc_Exact) as [mrs2 e2].
  destruct (shr_m mrs2); [reflexivity| |reflexivity].
  destruct (e2 <=? Number.emax - Number.prec); reflexivity.
Qed.

Lemma of_Z_neg (p : positive) :
  Number.of_Z (Z.neg p) = SFopp (Number.of_Z (Z.pos p)).
Proof.
  unfold Number.of_Z. cbn [binary_normalize]. unfold binary_round.
  destruct (shl_align p 0 _) as [mz ez]. apply binary_round_aux_opp.
Qed.

(** [x < 0] on the Number of an integer. *)
Lemma below_zero_of_Z (z : Z) :
  below_zero (Some (Number.of_Z z)) = (z <? 0).
Proof.
  cbn [below_zero]. unfold Number.gt. destruct z as [|p|p].
  - reflexivity.
  - pose proof (of_N_lower (N.pos p) ltac:(lia)) as H.
    unfold Number.of_N in H. cbn [Z.of_N] in H.
    destruct (Number.of_Z (Z.pos p)) as [s|s| |s m e];
      cbn [Number.at_least] in H; try tauto.
    + subst s. reflexivity.
    + destruct H as [-> _]. reflexivity.
  - rewrite of_Z_neg.
    pose proof (of_N_lower (N.pos p) ltac:(lia)) as H.
    unfold Number.of_N in H. cbn [Z.of_N] in H.
    destruct (Number.of_Z (Z.pos p)) as [s|s| |s m e];
      cbn [Number.at_least] in H; try tauto.
    + subst s. reflexivity.
    + destruct H as [-> _]. reflexivity.
Qed.

Lemma decade_up_spec (fuel : nat) (num den j : Z) :
  0 <= j -> den * 10 ^ j <= num ->
  let j' := decade_up fuel num den j in
  0 <= j' /\ den * 10 ^ j' <= num.
Proof.
  revert j. induction fuel as [|fuel IH]; intros j Hj Hle; cbn [decade_up].
  - split; assumption.
  - destruct (Z.leb_spec (den * 10 ^ (j + 1)) num) as [Hup|_].
    + apply IH; [lia|assumption].
    + split; assumption.
Qed.

(** The first digit of a Number that is at least 1 is not 0. *)
Lemma first_digit_pos (m : positive) (e : Z) :
  denominator e <= numerator m e -> 1 <= first_digit m e.
Proof.
  intros Hle. unfold first_digit.
  destruct (Z.leb_spec (denominator e) (numerator m e)) as [_|Hbad]; [|lia].
  assert (Hden : 0 < denominator e) by (apply Z.pow_pos_nonneg; lia).
  set (num := numerator m e) in *. set (den := denominator e) in *.
  set (fuel := Z.to_nat (Z.log2 num + Z.log2 den + 1)).
  destruct (decade_up_spec fuel num den 0 ltac:(lia) ltac:(rewrite Z.pow_0_r; lia))
    as [Hj Hup].
  set (a := 10 ^ decade_up fuel num den 0) in *.
  assert (Ha : 0 < a) by (apply Z.pow_pos_nonneg; lia).
  assert (Hd : 1 <= num * 1 / (den * a)).
  { apply Z.div_le_lower_bound; nia. }
  set (d := num * 1 / (den * a)) in *.
  destruct (_ && _); [|assumption].
  destruct (d =? 9); lia.
Qed.

(** From the Number of a negative integer [parseInt] reads a negative
    integer or, when the Number is not finite, NaN. *)
Lemma unreadable_of_Z (z : Z) :
  z < 0 -> unreadable (Some (Number.of_Z z)) = true.
Proof.
  intros Hz. destruct z as [|p|p]; try lia. rewrite of_Z_neg.
  pose proof (of_N_lower (N.pos p) ltac:(lia)) as H.
  unfold Number.of_N in H. cbn [Z.of_N] in H.
  destruct (Number.of_Z (Z.pos p)) as [s|s| |s m e];
    cbn [Number.at_least] in H; try tauto.
  destruct H as [-> Hone]. unfold unreadable. cbn [SFopp negb mbind option_bind parseInt].
  assert (Hge : denominator e <= numerator m e).
  { unfold numerator, denominator. destruct (digits2_pos_bounds m) as [Hlo _].
    destruct (Z.le_gt_cases 0 e) as [He|He].
    - replace (Z.max 0 e) with e by lia. replace (Z.max 0 (- e)) with 0 by lia.
      rewrite Z.pow_0_r.
      assert (0 < 2 ^ e) by (apply Z.pow_pos_nonneg; lia). nia.
    - replace (Z.max 0 e) with 0 by lia. replace (Z.max 0 (- e)) with (- e) by lia.
      rewrite Z.pow_0_r, Z.mul_1_r.
      assert (2 ^ (- e) <= 2 ^ (Z.pos (digits2_pos m) - 1)) by (apply Z.pow_le_mono_r; lia).
      lia. }
  assert (Hden : 0 < denominator e) by (apply Z.pow_pos_nonneg; lia).
  destruct (_ || _); cbn [cond_Zopp]; apply Z.ltb_lt.
  - pose proof (first_digit_pos m e Hge). lia.
  - assert (1 <= numerator m e / denominator e) by (apply Z.div_le_lower_bound; lia).
    lia.
Qed.

(** Past its two checks the route answers 201 or 500. *)
Lemma post_match_checked (cast_Date : string -> option Date) (rejects : Call -> bool) (uid id : ObjectId) (b : Body.t) (db : DB) :
  missing_field b = false ->
  negative_rounds b = false ->
  exists res, fst (post_match cast_Date rejects uid id b db) = Fulfilled res /\
              (status res = 201%N \/ status res = 500%N).
Proof.
  intros Hc1 Hc2. unfold missing_field in Hc1. unfold negative_rounds in Hc2.
  unfold post_match, try_catch. rewrite Hc1, Hc2.
  unfold mbind, Promise_bind, save_Match, calculateUserStats, try_catch,
    mbind, Promise_bind, find_Match, findByIdAndUpdate_User, call, mret,
    Promise_ret, throw.
  destruct (rejects Match_save); [eexists; split; [reflexivity|right; reflexivity]|].
  destruct (new_Match cast_Date id uid b); [|eexists; split; [reflexivity|right; reflexivity]].
  destruct (existsb _ _); [eexists; split; [reflexivity|right; reflexivity]|].
  destruct (rejects Match_find); [eexists; split; [reflexivity|right; reflexivity]|].
  destruct (rejects User_findByIdAndUpdate);
    [eexists; split; [reflexivity|right; reflexivity]|].
  cbn [users matches].
  destruct (users db !! uid); eexists; (split; [reflexivity|left; reflexivity]).
Qed.

(** What the form posts.  The page stops a negative number of rounds
    itself, and sends 0 for a number field left blank, so that of the two
    answers 400 of the route only the first can come back, and only for a
    text left empty.  A negative damage, kills, deaths or assists passes
    the page and the checks of the route and is answered 500. *)
Theorem form_posted (cast_Date : string -> option Date) (formData : Form.t) (b : Body.t)
    (rejects : Call -> bool) (uid id : ObjectId) (db : DB) :
  handleSubmit formData = Some b ->
  negative_rounds b = false /\
  missing_field b =
    (String.eqb (Form.date formData) EmptyString
     || String.eqb (Form.time formData) EmptyString
     || String.eqb (Form.matchType formData) EmptyString
     || String.eqb (Form.outcome formData) EmptyString
     || String.eqb (Form.map formData) EmptyString) /\
  (fst (post_match cast_Date rejects uid id b db) = Fulfilled (json 400) <->
   missing_field b = true) /\
  (missing_field b = false ->
   negative (Form.damage formData) || negative (Form.kills formData)
     || negative (Form.deaths formData) || negative (Form.assists formData) = true ->
   post_match cast_Date rejects uid id b db = (Fulfilled (json 500), db)).
Proof.
  unfold handleSubmit.
  destruct (negative (Form.roundsWon formData) || negative (Form.roundsLost formData)) eqn:Hr;
    [discriminate|].
  intros [= <-].
  assert (Hor : forall x, below_zero (Some (Number.of_Z (or_zero x))) = negative x).
  { intros [z|]; [apply below_zero_of_Z|reflexivity]. }
  assert (Hnr : negative_rounds (dataToSend formData) = false).
  { unfold negative_rounds, dataToSend. cbn [Body.roundsWon Body.roundsLost].
    rewrite !Hor. assumption. }
  assert (Hmf : missing_field (dataToSend formData) =
                (String.eqb (Form.date formData) EmptyString
                 || String.eqb (Form.time formData) EmptyString
                 || String.eqb (Form.matchType formData) EmptyString
                 || String.eqb (Form.outcome formData) EmptyString
                 || String.eqb (Form.map formData) EmptyString)).
  { unfold missing_field, dataToSend.
    cbn [Body.date Body.time Body.matchType Body.outcome Body.map Body.roundsWon
         Body.roundsLost Body.damage Body.kills Body.deaths Body.assists falsy undefined].
    rewrite !orb_false_r. reflexivity. }
  split; [assumption|]. split; [assumption|]. split.
  - split.
    + intros H400. destruct (missing_field (dataToSend formData)) eqn:Hm; [reflexivity|].
      exfalso.
      destruct (post_match_checked cast_Date rejects uid id (dataToSend formData) db Hm Hnr)
        as (res & Hres & Hst).
      rewrite H400 in Hres. injection Hres as <-. cbn [json status] in Hst.
      destruct Hst; discriminate.
    + intros Hm. unfold missing_field in Hm. unfold post_match, try_catch. rewrite Hm.
      reflexivity.
  - intros Hm Hneg. apply post_match_refused; [assumption..|].
    apply new_Match_refused. right. right. right. unfold dataToSend.
    cbn [Body.roundsWon Body.roundsLost Body.damage Body.kills Body.deaths Body.assists].
    assert (Hun : forall x, negative x = true ->
                            unreadable (Some (Number.of_Z (or_zero x))) = true).
    { intros [z|] Hx; [|discriminate]. apply unreadable_of_Z.
      cbn [negative] in Hx. apply Z.ltb_lt. assumption. }
    repeat (apply orb_prop in Hneg; destruct Hneg as [Hneg|Hneg]);
      rewrite (Hun _ Hneg), ?orb_true_r; reflexivity.
Qed.

(** * The properties on the sample data *)

Lemma other_matches_kept_witness :
  owned_by 2%N (matches (snd (handle sample_cast_Date available (DELETE_stats 1) shared_db))) =
  owned_by 2%N (matches shared_db).
Proof.
  apply (other_matches_kept sample_cast_Date available (DELETE_stats 1) shared_db 2%N).
  intros H. discriminate H.
Defined.


Lemma post_match_invalid_witness :
  post_match sample_cast_Date available 1 9 half_round_body sample_db =
    (Fulfilled (json 400), sample_db) /\
  post_match sample_cast_Date available 1 9 negative_kills_body sample_db =
    (Fulfilled (json 500), sample_db) /\
  post_match sample_cast_Date available 1 9 no_date_body sample_db =
    (Fulfilled (json 500), sample_db).
Proof.
  split; [|split].
  - apply (proj1 (post_match_invalid sample_cast_Date available 1 9 half_round_body sample_db)).
    right. vm_compute. reflexivity.
  - apply (proj2 (post_match_invalid sample_cast_Date available 1 9 negative_kills_body sample_db)).
    + vm_compute. reflexivity.
    + vm_compute. reflexivity.
    + right. right. right. vm_compute. reflexivity.
  - apply (proj2 (post_match_invalid sample_cast_Date available 1 9 no_date_body sample_db)).
    + vm_compute. reflexivity.
    + vm_compute. reflexivity.
    + left. vm_compute. reflexivity.
Defined.

(** What [parseInt] reads: the integer part of -0.5, 15.9 and -15.9, one
    digit of 1e21, 5e-7 and 1e23 (the Number nearest to which is below
    it), all of 2^60, and NaN of Infinity. *)
Example parseInt_samples :
  parseInt (Number.literal true 5 1) = Some 0 /\
  parseInt (Number.literal false 159 1) = Some 15 /\
  parseInt (Number.literal true 159 1) = Some (-15) /\
  parseInt (Number.of_Z (10 ^ 21)) = Some 1 /\
  parseInt (Number.literal false 5 7) = Some 5 /\
  parseInt (Number.literal false 1 6) = Some 0 /\
  parseInt (Number.of_Z (10 ^ 23)) = Some 1 /\
  parseInt (Number.of_Z (2 ^ 60)) = Some (2 ^ 60) /\
  parseInt (Number.of_Z (2 ^ 1024)) = None.
Proof. vm_compute. repeat split. Qed.

(** A damage of -0.5 passes the route and the validator, and the match is
    stored with the damage 0. *)
Example post_half_damage :
  let '(res, db') := post_match sample_cast_Date available 1 9 half_damage_body fresh_db in
  (status <$> (match res with Fulfilled r => Some r | Rejected => None end)) = Some 201%N /\
  Match.damage <$> matches db' = [0%N].
Proof. vm_compute. split; reflexivity. Qed.

Lemma delete_match_not_owned_witness :
  delete_match available 2 1 shared_db = (Fulfilled (json 404), shared_db).
Proof.
  apply (delete_match_not_owned available 2 1 shared_db).
  vm_compute. reflexivity.
Defined.

Lemma answered_summary_witness :
  aggregate [match_a] = aggregate (owned_by 1%N (matches posted_db)) /\
  (forall u, users posted_db !! 1%N = Some u -> User.stats u = aggregate [match_a]).
Proof.
  apply (answered_summary sample_cast_Date available (POST_match 1 1 sample_body) fresh_db posted_db
           {| status := 201; stats := Some (aggregate [match_a]) |} (aggregate [match_a])).
  - vm_compute. reflexivity.
  - reflexivity.
Defined.

Lemma delete_only_match_witness :
  fst (delete_match available 1 1 posted_db) =
    Fulfilled {| status := 200; stats := Some empty_stats |} /\
  owned_by 1%N (matches (snd (delete_match available 1 1 posted_db))) = [] /\
  (forall u, users posted_db !! 1%N = Some u ->
             users (snd (delete_match available 1 1 posted_db)) !! 1%N =
             Some (User.set_stats u empty_stats)).
Proof.
  apply (delete_only_match 1 1 posted_db match_a).
  - vm_compute. reflexivity.
  - reflexivity.
Defined.

Lemma authenticateToken_header_witness :
  authenticateToken sample_verify (Some (bearer "nolu")) =
    Next {| Claims.userId := "nolu"; Claims.id := 1%N; Claims.username := "Nolu" |} /\
  authenticateToken sample_verify (Some "Basic nolu"%string) =
    Next {| Claims.userId := "nolu"; Claims.id := 1%N; Claims.username := "Nolu" |} /\
  authenticateToken sample_verify (Some "Basic"%string) = Denied 401 /\
  authenticateToken sample_verify None = Denied 401.
Proof.
  apply (authenticateToken_header sample_verify "Basic" "nolu").
  - reflexivity.
  - reflexivity.
Defined.

Lemma login_then_authenticated_witness :
  exists _id user,
    users fresh_db !! _id = Some user /\
    Some (User.userId user) = sample_cast <$> Some "nolu"%string /\
    let payload := {| Claims.userId := User.userId user; Claims.id := _id;
                      Claims.username := User.username user |} in
    "nolu"%string = sample_sign payload /\
    (sample_verify "nolu" = Some payload ->
     forall (R : Type) (denied : N -> R) (handler : ObjectId -> Promise R),
       authenticated sample_verify denied (Some (bearer "nolu")) handler = handler _id).
Proof.
  apply (login_then_authenticated available_user sample_cast sample_sign sample_verify sample_compare
           (Some "nolu"%string) (Some "$2a$10$"%string) fresh_db
           {| Reply.status := 200;
              Reply.message := Some "Login successful!"%string;
              Reply.token := Some "nolu"%string;
              Reply.userId := Some "nolu"%string;
              Reply.username := Some "Nolu"%string;
              Reply.isPublic := Some true;
              Reply.stats := Some empty_stats |} "nolu").
  - vm_compute. reflexivity.
  - reflexivity.
  - reflexivity.
  - discriminate.
Defined.

Lemma privacy_round_trip_witness :
  (exists rep, fst (get_privacy available 1 private_db) = Fulfilled rep /\
               Reply.status rep = 200%N /\ Reply.isPublic rep = Some false) /\
  matches private_db = matches fresh_db /\
  (forall uid', User.stats <$> users private_db !! uid' =
                User.stats <$> users fresh_db !! uid') /\
  (forall uid', uid' <> 1%N -> users private_db !! uid' = users fresh_db !! uid').
Proof.
  apply (privacy_round_trip 1 false fresh_db sample_user).
  vm_compute. reflexivity.
Defined.

Lemma private_profile_hidden_witness :
  get_user available available_user sample_cast "nolu" private_db =
  (Fulfilled (answer 403 "This player profile is private"), private_db).
Proof.
  apply (private_profile_hidden sample_cast 1 fresh_db sample_user).
  - vm_compute. reflexivity.
  - intros uid' u' H _. destruct (decide (uid' = 1%N)) as [->|Hne]; [reflexivity|].
    cbn [fresh_db users] in H. rewrite lookup_singleton_ne in H by congruence. discriminate.
  - reflexivity.
Defined.

Lemma delete_account_removes_witness :
  (200%N = 200%N ->
   users {| matches := [match_d]; users := {[ 2%N := rival_user ]} |} !! 1%N = None /\
   owned_by 1%N (matches {| matches := [match_d]; users := {[ 2%N := rival_user ]} |}) = []) /\
  (200%N <> 200%N ->
   users {| matches := [match_d]; users := {[ 2%N := rival_user ]} |} = users shared_db) /\
  (forall uid', uid' <> 1%N ->
     users {| matches := [match_d]; users := {[ 2%N := rival_user ]} |} !! uid' =
       users shared_db !! uid' /\
     owned_by uid' (matches {| matches := [match_d]; users := {[ 2%N := rival_user ]} |}) =
       owned_by uid' (matches shared_db)).
Proof.
  apply (delete_account_removes available available_user 1 shared_db
           {| matches := [match_d]; users := {[ 2%N := rival_user ]} |}
           (answer 200 "Account deleted successfully!")).
  vm_compute. reflexivity.
Defined.

Lemma post_match_without_account_witness :
  post_match sample_cast_Date available 1 1 sample_body empty_db =
  (Fulfilled {| status := 201;
                stats := Some (aggregate (owned_by 1%N (matches empty_db ++ [match_a]))) |},
   {| matches := matches empty_db ++ [match_a]; users := users empty_db |}).
Proof.
  apply (post_match_without_account sample_cast_Date 1 1 sample_body empty_db match_a).
  - reflexivity.
  - vm_compute. reflexivity.
  - vm_compute. reflexivity.
  - reflexivity.
Defined.




Lemma signup_creates_witness :
  (201%N <> 201%N -> signed_up_db = empty_db) /\
  (201%N = 201%N ->
   exists name uname pass user,
     Some "nolu"%string = Some name /\ Some "Nolu"%string = Some uname /\
     Some "secret"%string = Some pass /\
     users empty_db !! 1%N = None /\
     matches signed_up_db = matches empty_db /\
     users signed_up_db = <[1%N := user]> (users empty_db) /\
     User.userId user = name /\
     User.username user = uname /\
     User.password user = sample_hash pass /\
     User.isPublic user = true /\
     User.stats user = aggregate [] /\
     Some signup_stats = Some (User.stats user) /\
     Some "nolu"%string =
       Some (sample_sign {| Claims.userId := User.userId user; Claims.id := 1%N;
                            Claims.username := User.username user |})).
Proof.
  apply (signup_creates available available_user sample_cast sample_sign
           (fun s => s) sample_hash (fun _ => true)
           1 (Some "nolu"%string) (Some "Nolu"%string) (Some "secret"%string)
           empty_db signed_up_db
           {| Reply.status := 201;
              Reply.message := Some "Account created successfully!"%string;
              Reply.token := Some "nolu"%string;
              Reply.userId := Some "nolu"%string;
              Reply.username := Some "Nolu"%string;
              Reply.isPublic := Some true;
              Reply.stats := Some signup_stats |}).
  vm_compute. reflexivity.
Defined.

Lemma signed_up_db_unique : unique_userIds signed_up_db.
Proof.
  intros i j u v Hu Hv _.
  assert (Hone : forall k w, users signed_up_db !! k = Some w -> k = 1%N).
  { intros k w H. destruct (decide (k = 1%N)) as [|Hne]; [assumption|].
    change (users signed_up_db) with
      (<[1%N := new_User (fun s => s) "nolu" "Nolu" (sample_hash "secret")]>
         (∅ : gmap ObjectId User.t)) in H.
    rewrite lookup_insert_ne, lookup_empty in H by congruence. discriminate. }
  rewrite (Hone i u Hu), (Hone j v Hv). reflexivity.
Qed.

Lemma userIds_stay_unique_witness :
  unique_userIds
    (snd (perform sample_lib available available_user
            (POST_signup 2 (Some "nolu"%string) (Some "Other"%string) (Some "secret"%string))
            signed_up_db)).
Proof.
  apply (userIds_stay_unique sample_lib available available_user
           (POST_signup 2 (Some "nolu"%string) (Some "Other"%string) (Some "secret"%string))
           signed_up_db).
  exact signed_up_db_unique.
Defined.

Lemma form_posted_witness :
  negative_rounds (dataToSend sample_form) = false /\
  missing_field (dataToSend sample_form) =
    (String.eqb (Form.date sample_form) EmptyString
     || String.eqb (Form.time sample_form) EmptyString
     || String.eqb (Form.matchType sample_form) EmptyString
     || String.eqb (Form.outcome sample_form) EmptyString
     || String.eqb (Form.map sample_form) EmptyString) /\
  (fst (post_match sample_cast_Date available 1 9 (dataToSend sample_form) sample_db) = Fulfilled (json 400) <->
   missing_field (dataToSend sample_form) = true) /\
  (missing_field (dataToSend sample_form) = false ->
   negative (Form.damage sample_form) || negative (Form.kills sample_form)
     || negative (Form.deaths sample_form) || negative (Form.assists sample_form) = true ->
   post_match sample_cast_Date available 1 9 (dataToSend sample_form) sample_db =
   (Fulfilled (json 500), sample_db)).
Proof.
  apply (form_posted sample_cast_Date sample_form (dataToSend sample_form) available 1 9 sample_db).
  reflexivity.
Defined.

(** * Rounding to the nearest Number *)

Lemma new_location_located (p q r : Z) :
  0 < p -> 0 <= r < p ->
  located (shr_record_of_loc q (new_location p r)) (q * p + r) p.
Proof.
  intros Hp Hr. unfold located. rewrite shr_record_of_loc_m.
  replace (q * p + r - q * p) with r by ring.
  split; [assumption|]. split; [lia|].
  unfold new_location. destruct (Z.even p) eqn:Hev.
  - unfold new_location_even. destruct (Z.eqb_spec r 0) as [->|Hr0].
    + cbn [shr_record_of_loc shr_r shr_s]. split; compare_cases.
    + destruct (Z.compare_spec (2 * r) p) as [H|H|H]; cbn [shr_record_of_loc shr_r shr_s];
        split; compare_cases.
  - assert (Hodd : Z.odd p = true) by (rewrite <- Z.negb_even, Hev; reflexivity).
    apply Z.odd_spec in Hodd. destruct Hodd as [h Hh].
    unfold new_location_odd. destruct (Z.eqb_spec r 0) as [->|Hr0].
    + cbn [shr_record_of_loc shr_r shr_s]. split; compare_cases.
    + destruct (Z.compare_spec (2 * r + 1) p) as [H|H|H]; cbn [shr_record_of_loc shr_r shr_s];
        split; compare_cases.
Qed.

Lemma shr_1_located (mrs : shr_record) (num den : Z) :
  0 <= shr_m mrs -> located mrs num den -> located (shr_1 mrs) num (2 * den).
Proof.
  destruct mrs as [m r s]. cbn [shr_m]. intros Hm (Hden & Hf & Hr & Hs).
  cbn [shr_m shr_r shr_s] in *.
  assert (Hrs : r || s = negb (num - m * den =? 0)).
  { rewrite Hs, Hr. compare_cases. }
  unfold located.
  destruct m as [|[p|p|]|p]; cbn [shr_1 shr_m shr_r shr_s]; try lia.
  - split; [lia|]. split; [lia|]. rewrite Hrs. split; compare_cases.
  - rewrite Pos2Z.inj_xI in *. split; [lia|]. split; [lia|]. rewrite Hrs.
    split; compare_cases.
  - rewrite Pos2Z.inj_xO in *. split; [lia|]. split; [lia|]. rewrite Hrs.
    split; compare_cases.
  - split; [lia|]. split; [lia|]. rewrite Hrs. split; compare_cases.
Qed.

Lemma shr_1_nonneg (mrs : shr_record) : 0 <= shr_m mrs -> 0 <= shr_m (shr_1 mrs).
Proof.
  intros H. rewrite shr_1_m by assumption. apply Z.div_pos; lia.
Qed.

Lemma iter_shr_1_located (n : positive) :
  forall (mrs : shr_record) (num den : Z),
    0 <= shr_m mrs -> located mrs num den ->
    0 <= shr_m (SpecFloat.iter_pos shr_1 n mrs) /\
    located (SpecFloat.iter_pos shr_1 n mrs) num (den * 2 ^ Z.pos n).
Proof.
  induction n as [n IH|n IH|]; intros mrs num den Hm Hl; cbn [SpecFloat.iter_pos].
  - pose proof (shr_1_nonneg mrs Hm) as H1.
    pose proof (shr_1_located mrs num den Hm Hl) as L1.
    destruct (IH _ _ _ H1 L1) as [H2 L2]. destruct (IH _ _ _ H2 L2) as [H3 L3].
    split; [assumption|].
    replace (den * 2 ^ Z.pos n~1) with (2 * den * 2 ^ Z.pos n * 2 ^ Z.pos n); [assumption|].
    rewrite pow2_xI. ring.
  - destruct (IH _ _ _ Hm Hl) as [H2 L2]. destruct (IH _ _ _ H2 L2) as [H3 L3].
    split; [assumption|].
    replace (den * 2 ^ Z.pos n~0) with (den * 2 ^ Z.pos n * 2 ^ Z.pos n); [assumption|].
    rewrite pow2_xO. ring.
  - split; [apply shr_1_nonneg; assumption|].
    replace (den * 2 ^ 1) with (2 * den) by (rewrite Z.pow_1_r; ring).
    apply shr_1_located; assumption.
Qed.

Lemma round_located (mrs : shr_record) (num den : Z) :
  located mrs num den ->
  let M := round_nearest_even (shr_m mrs) (loc_of_shr_record mrs) in
  - den <= 2 * (M * den - num) <= den.
Proof.
  destruct mrs as [m r s]. intros (Hden & Hf & Hr & Hs). cbn [shr_m shr_r shr_s] in *.
  cbv zeta. cbn [shr_m].
  destruct r, s; cbn [loc_of_shr_record round_nearest_even].
  - symmetry in Hr. apply Z.leb_le in Hr. lia.
  - symmetry in Hr. apply Z.leb_le in Hr. symmetry in Hs. apply negb_false_iff in Hs.
    apply Z.eqb_eq in Hs. destruct (Z.even m); lia.
  - symmetry in Hr. apply Z.leb_gt in Hr. lia.
  - symmetry in Hs. apply negb_false_iff in Hs. apply Z.eqb_eq in Hs. lia.
Qed.

Lemma shr_fexp_located (q e : Z) (l : location) (num den : Z) :
  0 < q ->
  located (shr_record_of_loc q l) num den ->
  let k := Z.max 0 (fexp Number.prec Number.emax (Zdigits2 q + e) - e) in
  snd (shr_fexp Number.prec Number.emax q e l) = e + k /\
  0 <= shr_m (fst (shr_fexp Number.prec Number.emax q e l)) /\
  located (fst (shr_fexp Number.prec Number.emax q e l)) num (den * 2 ^ k).
Proof.
  intros Hq Hl. cbv zeta. unfold shr_fexp, shr.
  assert (Hm : 0 <= shr_m (shr_record_of_loc q l)) by (rewrite shr_record_of_loc_m; lia).
  destruct (fexp Number.prec Number.emax (Zdigits2 q + e) - e) as [|n|n] eqn:Hn; cbn [fst snd].
  - rewrite Z.max_l by lia. rewrite Z.pow_0_r, Z.mul_1_r, Z.add_0_r. auto.
  - rewrite Z.max_r by lia.
    destruct (iter_shr_1_located n _ _ _ Hm Hl) as [H1 H2]. auto.
  - rewrite Z.max_l by lia. rewrite Z.pow_0_r, Z.mul_1_r, Z.add_0_r. auto.
Qed.

Lemma Zdigits2_eq (z k : Z) :
  0 < k -> 2 ^ (k - 1) <= z < 2 ^ k -> Zdigits2 z = k.
Proof.
  intros Hk [Hlo Hhi].
  assert (H1 : Zdigits2 z <= k) by (apply Zdigits2_le; lia).
  assert (H2 : k - 1 < Zdigits2 z) by (apply Zdigits2_ge; lia).
  lia.
Qed.

(** Rounding a mantissa of at least 53 bits with the position of a
    quotient to a Number: the Number is finite, and the quotient is at
    most half a unit of its last place away from it. *)
Lemma binary_round_aux_near (q e : Z) (l : location) (num den : Z) :
  0 < q ->
  located (shr_record_of_loc q l) num den ->
  53 <= Zdigits2 q ->
  let E := Zdigits2 q + e - 53 in
  -1074 <= E <= 970 ->
  exists (M : positive) (E' : Z),
    binary_round_aux Number.prec Number.emax false q e l = S754_finite false M E' /\
    2 ^ 52 <= Z.pos M < 2 ^ 53 /\
    (E' = E \/ E' = E + 1 /\ Z.pos M = 2 ^ 52) /\
    - (den * 2 ^ (E - e)) <=
      2 * (Z.pos M * 2 ^ (E' - E) * (den * 2 ^ (E - e)) - num) <= den * 2 ^ (E - e).
Proof.
  intros Hq Hl Hd E HE.
  assert (Hk : Z.max 0 (fexp Number.prec Number.emax (Zdigits2 q + e) - e) = E - e).
  { rewrite fexp_eq. unfold E. lia. }
  destruct (shr_fexp_located q e l num den Hq Hl) as (He1 & Hm1 & Hl1).
  cbv zeta in He1, Hl1. rewrite Hk in He1, Hl1.
  destruct (shr_fexp_spec q e l (Z.lt_le_incl _ _ Hq)) as [Hsm _].
  unfold binary_round_aux.
  destruct (shr_fexp Number.prec Number.emax q e l) as [mrs1 e1].
  cbn [fst snd] in *. subst e1.
  replace (e + (E - e)) with E in * by ring.
  set (k := E - e) in *.
  assert (Hk0 : 0 <= k) by (unfold k, E; lia).
  set (m1 := shr_m mrs1) in *.
  assert (Hm1b : 2 ^ 52 <= m1 < 2 ^ 53).
  { pose proof (Zdigits2_bounds q Hq) as [Hlo Hhi].
    assert (Hp : 0 < 2 ^ k) by (apply Z.pow_pos_nonneg; lia).
    replace (Zdigits2 q - 1) with (52 + k) in Hlo by (unfold k, E; lia).
    replace (Zdigits2 q) with (53 + k) in Hhi by (unfold k, E; lia).
    rewrite pow2_split in Hlo, Hhi by lia.
    rewrite Hsm. split.
    - apply Z.div_le_lower_bound; [assumption|]. lia.
    - apply Z.div_lt_upper_bound; [assumption|]. lia. }
  pose proof (round_located mrs1 num (den * 2 ^ k) Hl1) as Hnear. cbv zeta in Hnear.
  pose proof (round_nearest_even_bounds m1 (loc_of_shr_record mrs1)) as HM1.
  fold m1 in Hnear.
  set (M1 := round_nearest_even m1 (loc_of_shr_record mrs1)) in *.
  assert (HM1pos : 0 <= M1) by lia.
  destruct (shr_fexp_spec M1 E loc_Exact HM1pos) as [Hsm2 He2].
  destruct (shr_fexp Number.prec Number.emax M1 E loc_Exact) as [mrs2 e2].
  cbn [fst snd] in *.
  change (2 ^ 52) with 4503599627370496 in Hm1b.
  change (2 ^ 53) with 9007199254740992 in Hm1b.
  destruct (Z.eq_dec M1 9007199254740992) as [Hfull|Hless].
  - assert (HdM : Zdigits2 M1 = 54) by (rewrite Hfull; reflexivity).
    rewrite HdM, fexp_eq in He2.
    assert (He2' : e2 = E + 1) by lia.
    rewrite He2' in *. replace (E + 1 - E) with 1 in Hsm2 by ring.
    rewrite Hfull in Hsm2. change (9007199254740992 / 2 ^ 1) with (Z.pos 4503599627370496) in Hsm2.
    rewrite Hsm2.
    destruct (Z.leb_spec (E + 1) (Number.emax - Number.prec)) as [_|Hbad];
      [|unfold Number.emax, Number.prec in Hbad; lia].
    exists 4503599627370496%positive, (E + 1). split; [reflexivity|].
    split; [split; [discriminate|reflexivity]|]. split; [right; split; reflexivity|].
    replace (E + 1 - E) with 1 by ring. rewrite Z.pow_1_r.
    replace (4503599627370496 * 2) with M1 by lia. assumption.
  - assert (HdM : Zdigits2 M1 = 53).
    { apply Zdigits2_eq; [lia|]. change (2 ^ (53 - 1)) with 4503599627370496.
      change (2 ^ 53) with 9007199254740992. lia. }
    rewrite HdM, fexp_eq in He2.
    assert (He2' : e2 = E) by lia.
    rewrite He2' in *. replace (E - E) with 0 in * by ring.
    rewrite Z.pow_0_r, Z.div_1_r in Hsm2. rewrite Hsm2.
    destruct M1 as [|M|M]; try lia.
    destruct (Z.leb_spec E (Number.emax - Number.prec)) as [_|Hbad];
      [|unfold Number.emax, Number.prec in Hbad; lia].
    exists M, E. split; [reflexivity|].
    split; [change (2 ^ 52) with 4503599627370496; change (2 ^ 53) with 9007199254740992; lia|].
    split; [left; reflexivity|].
    replace (E - E) with 0 by ring. rewrite Z.pow_0_r, Z.mul_1_r. assumption.
Qed.

(** The quotient of two positive integers as a Number: the Number is
    finite, and the quotient of the integers is at most half a unit of its
    last place away from it. *)
Lemma SFdiv_near (n p : positive) :
  let D := Z.pos (digits2_pos n) - Z.pos (digits2_pos p) in
  -1000 <= D <= 51 ->
  exists (M : positive) (E' : Z),
    SFdiv Number.prec Number.emax (S754_finite false n 0) (S754_finite false p 0) =
      S754_finite false M E' /\
    2 ^ 52 <= Z.pos M < 2 ^ 53 /\
    D - 53 <= E' <= D - 51 /\
    (let E := Zdigits2 (Z.pos n * 2 ^ (53 - D) / Z.pos p) + (D - 53) - 53 in
     E' = E \/ E' = E + 1 /\ Z.pos M = 2 ^ 52) /\
    - Z.pos p <= 2 * (Z.pos M * Z.pos p - Z.pos n * 2 ^ (- E')) <= Z.pos p.
Proof.
  intros D HD. cbn [SFdiv xorb]. unfold SFdiv_core_binary. cbn [Zdigits2].
  rewrite !Z.add_0_r. fold D. rewrite fexp_eq.
  replace (Z.min (Z.max (D - 53) (-1074)) (0 - 0)) with (D - 53) by lia.
  set (s := 0 - 0 - (D - 53)).
  assert (Hs : 2 <= s) by (unfold s; lia).
  set (m' := match s with Z.pos _ => Z.shiftl (Z.pos n) s | 0 => Z.pos n | Z.neg _ => 0 end).
  assert (Hm' : m' = Z.pos n * 2 ^ s).
  { unfold m'. destruct s as [|k|k] eqn:Es; [lia| |lia].
    apply Z.shiftl_mul_pow2. lia. }
  clearbody m'.
  pose proof (Z_div_mod m' (Z.pos p) ltac:(lia)) as Hdm.
  destruct (Z.div_eucl m' (Z.pos p)) as [q r]. destruct Hdm as [Hq Hr].
  assert (Hps : 0 < 2 ^ s) by (apply Z.pow_pos_nonneg; lia).
  destruct (digits2_pos_bounds n) as [Hnlo Hnhi].
  destruct (digits2_pos_bounds p) as [Hplo Hphi].
  set (dn := Z.pos (digits2_pos n)) in *. set (dp := Z.pos (digits2_pos p)) in *.
  assert (Hdn : 0 < dn) by (unfold dn; lia).
  assert (Hdp : 0 < dp) by (unfold dp; lia).
  assert (Hs' : s = 53 + dp - dn) by (unfold s, D; lia).
  (* 2^52 <= q < 2^54 *)
  assert (Hqlo : 2 ^ 52 <= q).
  { assert (H1 : 2 ^ (52 + dp) <= m').
    { rewrite Hm'. replace (52 + dp) with (dn - 1 + s) by lia.
      rewrite pow2_split by lia. nia. }
    rewrite pow2_split in H1 by lia.
    assert (Hp52 : 0 < 2 ^ 52) by (apply Z.pow_pos_nonneg; lia).
    destruct (Z_lt_le_dec q (2 ^ 52)) as [Hlt|]; [exfalso|assumption].
    assert (q + 1 <= 2 ^ 52) by lia.
    assert (m' < Z.pos p * (q + 1)) by lia.
    assert (Z.pos p * (q + 1) <= Z.pos p * 2 ^ 52) by (apply Z.mul_le_mono_nonneg_l; lia).
    assert (Z.pos p * 2 ^ 52 < 2 ^ dp * 2 ^ 52) by (apply Z.mul_lt_mono_pos_r; lia).
    lia. }
  assert (Hqhi : q < 2 ^ 54).
  { assert (H1 : m' < 2 ^ (54 + (dp - 1))).
    { rewrite Hm'. replace (54 + (dp - 1)) with (dn + s) by lia.
      rewrite pow2_split by lia. apply Z.mul_lt_mono_pos_r; assumption. }
    rewrite pow2_split in H1 by lia.
    assert (Hp1 : 0 < 2 ^ (dp - 1)) by (apply Z.pow_pos_nonneg; lia).
    destruct (Z_lt_le_dec q (2 ^ 54)) as [|Hge]; [assumption|exfalso].
    assert (2 ^ 54 * 2 ^ (dp - 1) <= q * Z.pos p).
    { apply Z.mul_le_mono_nonneg; lia. }
    lia. }
  assert (Hq0 : 0 < q) by (change (2 ^ 52) with 4503599627370496 in Hqlo; lia).
  assert (Hdq : 53 <= Zdigits2 q <= 54).
  { split.
    - assert (52 < Zdigits2 q) by (apply Zdigits2_ge; lia). lia.
    - apply Zdigits2_le; lia. }
  assert (Hloc : located (shr_record_of_loc q (new_location (Z.pos p) r)) m' (Z.pos p)).
  { rewrite Hq. replace (Z.pos p * q + r) with (q * Z.pos p + r) by ring.
    apply new_location_located; lia. }
  destruct (binary_round_aux_near q (D - 53) (new_location (Z.pos p) r) m' (Z.pos p)
              Hq0 Hloc ltac:(lia) ltac:(lia))
    as (M & E' & Hround & HM & HE' & Hnear).
  assert (Hqdiv : Z.pos n * 2 ^ (53 - D) / Z.pos p = q).
  { replace (53 - D) with s by (unfold s; lia). rewrite <- Hm'.
    symmetry. apply Z.div_unique with (r := r); [lia|assumption]. }
  exists M, E'. split; [assumption|]. split; [assumption|].
  split; [destruct HE' as [HE'|[HE' _]]; lia|].
  split; [rewrite Hqdiv; exact HE'|].
  assert (HE'r : Zdigits2 q + (D - 53) - 53 <= E' <= Zdigits2 q + (D - 53) - 53 + 1)
    by (destruct HE' as [HE'|[HE' _]]; lia).
  clear HE'. rename HE'r into HE'.
  set (E := Zdigits2 q + (D - 53) - 53) in *.
  set (k := E - (D - 53)) in *.
  set (j := E' - E) in *.
  assert (Hk : 0 <= k <= 1) by (unfold k, E; lia).
  assert (Hj : 0 <= j <= 1) by (unfold j; lia).
  assert (Hw : s = - E' + (k + j)) by (unfold k, j, E, s in *; lia).
  assert (HW : 0 < 2 ^ (- E')) by (apply Z.pow_pos_nonneg; lia).
  rewrite Hm', Hw in Hnear. rewrite (pow2_split (- E') (k + j)) in Hnear by lia.
  rewrite (pow2_split k j) in Hnear by lia.
  set (W := 2 ^ (- E')) in *.
  assert (Hk2 : 2 ^ k = 1 \/ 2 ^ k = 2).
  { destruct (Z.eq_dec k 0) as [->|]; [left; reflexivity|right].
    replace k with 1 by lia. reflexivity. }
  assert (Hj2 : 2 ^ j = 1 \/ 2 ^ j = 2).
  { destruct (Z.eq_dec j 0) as [->|]; [left; reflexivity|right].
    replace j with 1 by lia. reflexivity. }
  destruct Hk2 as [Hk2|Hk2], Hj2 as [Hj2|Hj2]; rewrite Hk2, Hj2 in Hnear; lia.
Qed.

(** ** Reading back what toFixed wrote *)

Lemma toFixed_quotient (n p : positive) (f : N) :
  Z.pos p = 10 ^ Z.of_N f ->
  Z.pos p < 128 ->
  Z.pos n <= 2 ^ 44 * Z.pos p ->
  Number.toFixed
    (SFdiv Number.prec Number.emax (S754_finite false n 0) (S754_finite false p 0)) f =
  Number.Decimal false (Z.pos n) f.
Proof.
  intros Hp Hp128 Hn.
  destruct (digits2_pos_bounds n) as [Hnlo Hnhi].
  destruct (digits2_pos_bounds p) as [Hplo Hphi].
  set (dn := Z.pos (digits2_pos n)) in *. set (dp := Z.pos (digits2_pos p)) in *.
  assert (Hdn : 0 < dn) by (unfold dn; lia).
  assert (Hdp : 0 < dp <= 7).
  { split; [unfold dp; lia|].
    destruct (Z_le_gt_dec dp 7) as [|Hgt]; [assumption|exfalso].
    assert (2 ^ 7 <= 2 ^ (dp - 1)) by (apply Z.pow_le_mono_r; lia).
    change (2 ^ 7) with 128 in *. lia. }
  assert (HD : dn - dp <= 44).
  { destruct (Z_le_gt_dec (dn - dp) 44) as [|Hgt]; [assumption|exfalso].
    assert (H1 : 2 ^ (44 + dp) <= 2 ^ (dn - 1)) by (apply Z.pow_le_mono_r; lia).
    rewrite pow2_split in H1 by lia.
    assert (H2 : 2 ^ 44 * Z.pos p < 2 ^ 44 * 2 ^ dp).
    { apply Z.mul_lt_mono_pos_l; [reflexivity|assumption]. }
    lia. }
  destruct (SFdiv_near n p ltac:(fold dn dp; lia)) as (M & E' & -> & HM & HE' & _ & Hnear).
  fold dn dp in HE'.
  assert (HE7 : E' <= -7) by lia.
  unfold Number.toFixed, Number.ge_1e21.
  destruct (Z.leb_spec 0 E') as [Hbad|_]; [lia|].
  assert (HW : 2 ^ 7 <= 2 ^ (- E')) by (apply Z.pow_le_mono_r; lia).
  change (2 ^ 7) with 128 in HW.
  set (W := 2 ^ (- E')) in *.
  destruct (Z.leb_spec (10 ^ 21 * W) (Z.pos M)) as [Hbig|_].
  { exfalso. change (2 ^ 53) with 9007199254740992 in HM.
    change (10 ^ 21) with 1000000000000000000000 in Hbig. lia. }
  f_equal. unfold Number.scaled_digits. rewrite <- Hp.
  destruct (Z.leb_spec 0 E') as [Hbad|_]; [lia|]. fold W.
  symmetry. apply Z.div_unique with (r := 2 * (Z.pos M * Z.pos p) + W - 2 * W * Z.pos n); lia.
Qed.

Lemma scaled_digits_nonneg (m : positive) (e : Z) (f : N) :
  0 <= Number.scaled_digits m e f.
Proof.
  unfold Number.scaled_digits.
  assert (0 < 10 ^ Z.of_N f) by (apply Z.pow_pos_nonneg; lia).
  destruct (0 <=? e) eqn:He.
  - apply Z.leb_le in He. assert (0 < 2 ^ e) by (apply Z.pow_pos_nonneg; lia). nia.
  - apply Z.leb_gt in He. assert (0 < 2 ^ (- e)) by (apply Z.pow_pos_nonneg; lia).
    apply Z.div_pos; nia.
Qed.

Lemma scaled_digits_bounded (m : positive) (e : Z) (f : N) (K : Z) :
  0 <= K ->
  Z.pos (digits2_pos m) + e <= K ->
  Number.scaled_digits m e f <= 2 ^ K * 10 ^ Z.of_N f.
Proof.
  intros HK Hb. unfold Number.scaled_digits.
  assert (HP : 0 < 10 ^ Z.of_N f) by (apply Z.pow_pos_nonneg; lia).
  set (P := 10 ^ Z.of_N f) in *.
  destruct (digits2_pos_bounds m) as [_ Hm].
  set (d := Z.pos (digits2_pos m)) in *.
  assert (Hd : 0 < d) by (unfold d; lia).
  destruct (Z.leb_spec 0 e) as [He|He].
  - assert (H1 : Z.pos m * 2 ^ e < 2 ^ K).
    { assert (H2 : 2 ^ (d + e) <= 2 ^ K) by (apply Z.pow_le_mono_r; lia).
      rewrite pow2_split in H2 by lia.
      assert (0 < 2 ^ e) by (apply Z.pow_pos_nonneg; lia). nia. }
    nia.
  - set (W := 2 ^ (- e)).
    assert (HW : 0 < W) by (apply Z.pow_pos_nonneg; lia).
    assert (H1 : Z.pos m < 2 ^ K * W).
    { destruct (Z_le_gt_dec d (K - e)) as [Hle|Hgt]; [|lia].
      assert (H2 : 2 ^ d <= 2 ^ (K + - e)) by (apply Z.pow_le_mono_r; lia).
      rewrite pow2_split in H2 by lia. fold W in H2. lia. }
    assert (0 < 2 ^ K) by (apply Z.pow_pos_nonneg; lia).
    assert (H3 : (2 * (Z.pos m * P) + W) / (2 * W) < 2 ^ K * P + 1); [|lia].
    apply Z.div_lt_upper_bound; [lia|]. nia.
Qed.

Lemma bounded_by_below_1e21 (m : positive) (e : Z) :
  Z.pos (digits2_pos m) + e <= 69 -> Number.ge_1e21 m e = false.
Proof.
  intros Hb. unfold Number.ge_1e21.
  destruct (digits2_pos_bounds m) as [_ Hm].
  set (d := Z.pos (digits2_pos m)) in *.
  assert (Hd : 0 < d) by (unfold d; lia).
  change (10 ^ 21) with 1000000000000000000000.
  destruct (Z.leb_spec 0 e) as [He|He].
  - apply Z.leb_gt.
    assert (H2 : 2 ^ (d + e) <= 2 ^ 69) by (apply Z.pow_le_mono_r; lia).
    rewrite pow2_split in H2 by lia.
    assert (0 < 2 ^ e) by (apply Z.pow_pos_nonneg; lia).
    change (2 ^ 69) with 590295810358705651712 in H2. nia.
  - apply Z.leb_gt. set (W := 2 ^ (- e)).
    assert (HW : 0 < W) by (apply Z.pow_pos_nonneg; lia).
    assert (H2 : 2 ^ d <= 2 ^ (69 + - e)) by (apply Z.pow_le_mono_r; lia).
    rewrite pow2_split in H2 by lia. fold W in H2.
    change (2 ^ 69) with 590295810358705651712 in H2. nia.
Qed.

(** A Number that is not negative and below 2^44, written with at most
    two decimals and read back, is written again as it was written: the
    text of the Number read back is the text it was read from. *)
Lemma toFixed_round_to (f : N) (x : Number.t) :
  (f <= 2)%N ->
  nonnegative x = true ->
  Number.bounded_by 44 x ->
  Number.toFixed (Number.round_to f x) f = Number.toFixed x f.
Proof.
  intros Hf Hx Hb. unfold Number.round_to.
  destruct x as [s|s| |s m e]; try contradiction.
  - reflexivity.
  - cbn [nonnegative] in Hx. apply negb_true_iff in Hx. subst s.
    cbn [Number.bounded_by] in Hb.
    cbn [Number.toFixed]. rewrite (bounded_by_below_1e21 m e) by lia.
    pose proof (scaled_digits_nonneg m e f) as Hn0.
    pose proof (scaled_digits_bounded m e f 44 ltac:(lia) Hb) as Hn.
    destruct (Number.scaled_digits m e f) as [|n|n] eqn:Hsd; [reflexivity| |lia].
    cbn [Number.parseFloat]. unfold Number.literal, Number.of_fraction.
    assert (HP : Z.pos (Z.to_pos (10 ^ Z.of_N f)) = 10 ^ Z.of_N f).
    { apply Z2Pos.id. apply Z.pow_pos_nonneg; lia. }
    assert (HP128 : 10 ^ Z.of_N f < 128).
    { assert (10 ^ Z.of_N f <= 10 ^ 2) by (apply Z.pow_le_mono_r; lia).
      change (10 ^ 2) with 100 in *. lia. }
    apply toFixed_quotient; [assumption|lia|lia].
Qed.

(** ** Signs *)

Lemma binary_round_aux_nonnegative (m e : Z) (l : location) :
  0 <= m -> nonnegative (binary_round_aux Number.prec Number.emax false m e l) = true.
Proof.
  intros Hm. unfold binary_round_aux.
  destruct (shr_fexp_spec m e l Hm) as [Hs1 _].
  destruct (shr_fexp Number.prec Number.emax m e l) as [mrs1 e1]. cbn [fst snd] in Hs1.
  pose proof (round_nearest_even_bounds (shr_m mrs1) (loc_of_shr_record mrs1)) as HM.
  assert (H1 : 0 <= shr_m mrs1).
  { rewrite Hs1. apply Z_div_nonneg_nonneg; [assumption|]. apply Z.pow_nonneg. lia. }
  assert (HM0 : 0 <= round_nearest_even (shr_m mrs1) (loc_of_shr_record mrs1)) by lia.
  destruct (shr_fexp_spec _ e1 loc_Exact HM0) as [Hs2 _].
  destruct (shr_fexp Number.prec Number.emax
              (round_nearest_even (shr_m mrs1) (loc_of_shr_record mrs1)) e1 loc_Exact)
    as [mrs2 e2].
  cbn [fst snd] in Hs2.
  assert (H2 : 0 <= shr_m mrs2).
  { rewrite Hs2. apply Z_div_nonneg_nonneg; [assumption|]. apply Z.pow_nonneg. lia. }
  destruct (shr_m mrs2) as [|M|M]; [reflexivity| |lia].
  destruct (e2 <=? Number.emax - Number.prec); reflexivity.
Qed.

Lemma of_N_nonnegative (a : N) : nonnegative (Number.of_N a) = true.
Proof.
  unfold Number.of_N, Number.of_Z, binary_normalize.
  destruct a as [|p]; [reflexivity|]. cbn [Z.of_N].
  unfold binary_round. destruct (shl_align p 0 _) as [mz ez].
  apply binary_round_aux_nonnegative. lia.
Qed.

Lemma div_nonnegative (x y : Number.t) :
  nonnegative x = true -> nonnegative y = true ->
  Number.is_finite x = true -> Number.is_zero y = false ->
  nonnegative (Number.div x y) = true.
Proof.
  intros Hx Hy Hfx Hzy. unfold Number.div.
  destruct x as [sx|sx| |sx mx ex]; try discriminate;
    destruct y as [sy|sy| |sy my ey]; try discriminate; cbn [nonnegative] in Hx, Hy;
    try (apply negb_true_iff in Hx; subst sx);
    try (apply negb_true_iff in Hy; subst sy);
    cbn [SFdiv nonnegative xorb]; try reflexivity.
  pose proof (SFdiv_core_binary_spec mx ex my ey) as H. cbv zeta in H.
  destruct (SFdiv_core_binary Number.prec Number.emax (Z.pos mx) ex (Z.pos my) ey)
    as [[q e'] l].
  destruct H as (Hq & _). apply binary_round_aux_nonnegative. assumption.
Qed.

Lemma mul_nonnegative (x y : Number.t) :
  nonnegative x = true -> nonnegative y = true ->
  Number.is_finite x = true -> Number.is_finite y = true ->
  nonnegative (Number.mul x y) = true.
Proof.
  intros Hx Hy Hfx Hfy. unfold Number.mul.
  destruct x as [sx|sx| |sx mx ex]; try discriminate;
    destruct y as [sy|sy| |sy my ey]; try discriminate; cbn [nonnegative] in Hx, Hy;
    try (apply negb_true_iff in Hx; subst sx);
    try (apply negb_true_iff in Hy; subst sy);
    cbn [SFmul nonnegative xorb]; try reflexivity.
  apply binary_round_aux_nonnegative. lia.
Qed.

(** ** The cards *)

Lemma div_of_N_shown (f a b : N) :
  (f <= 2)%N -> (a < 2 ^ 42)%N -> (0 < b)%N ->
  Number.toFixed (Number.round_to f (Number.div (Number.of_N a) (Number.of_N b))) f =
  Number.toFixed (Number.div (Number.of_N a) (Number.of_N b)) f.
Proof.
  intros Hf Ha Hb. apply toFixed_round_to; [assumption| |].
  - apply div_nonnegative.
    + apply of_N_nonnegative.
    + apply of_N_nonnegative.
    + apply of_N_finite. unfold exact_limit. lia.
    + apply of_N_nonzero. assumption.
  - apply (div_of_N_upper a b 42); [|lia|assumption].
    apply N2Z.inj_lt in Ha. rewrite N2Z.inj_pow in Ha. exact Ha.
Qed.

(** The cards show each ratio rounded once.  For a record set that is
    not empty, with fewer than 2^42 kills and 2^42 damage in all, at most
    2^53 deaths and rounds and fewer than 2^32 records, what the
    dashboard and the home page write for the stored summary is what
    [toFixed] writes for the quotient of the summary's totals itself: the
    text that [calculateUserStats] had before [parseFloat] read it.
    Writing the Number read back does not round a second time. *)
Theorem cards_show_ratios (ms : list Match.t) :
  ms <> [] ->
  (sum_over Match.kills ms < 2 ^ 42)%N ->
  (sum_over Match.damage ms < 2 ^ 42)%N ->
  (sum_over Match.deaths ms <= 2 ^ 53)%N ->
  (sum_over (fun m => Match.roundsWon m + Match.roundsLost m) ms <= 2 ^ 53)%N ->
  (N.of_nat (length ms) < 2 ^ 32)%N ->
  let s := aggregate ms in
  stat_cards s =
  {| Cards.kdRatio :=
       if Number.gt (User.deaths s) Number.zero
       then Number.toFixed (Number.div (User.kills s) (User.deaths s)) 2
       else Number.toFixed (User.kills s) 2;
     Cards.damagePerRound :=
       if Number.gt (User.totalRounds s) Number.zero
       then Number.toFixed (Number.div (User.totalDamage s) (User.totalRounds s)) 0
       else Number.Decimal false 0 0;
     Cards.winPercentage :=
       Number.toFixed
         (Number.mul (Number.div (User.wins s) (User.totalGames s)) (Number.of_N 100)) 1;
     Cards.killsPerRound :=
       if Number.gt (User.totalRounds s) Number.zero
       then Number.toFixed (Number.div (User.kills s) (User.totalRounds s)) 2
       else Number.Decimal false 0 2 |}.
Proof.
  intros Hne Hk Hdmg Hd Hr Hlen. cbv zeta.
  assert (Hagg : aggregate ms =
                 derive (fold_left accumulate ms totals0)
                        (Number.of_N (N.of_nat (length ms)))).
  { destruct ms; [congruence|reflexivity]. }
  assert (Hlen0 : (0 < N.of_nat (length ms))%N).
  { destruct ms; [congruence|cbn [length]; lia]. }
  rewrite Hagg. unfold stat_cards.
  cbn [derive User.kdRatio User.damagePerRound User.winPercentage User.killsPerRound
       User.kills User.deaths User.totalRounds User.totalDamage User.wins User.totalGames].
  fold exact_limit in Hd, Hr.
  rewrite (totalKills_exact ms) by (unfold exact_limit; lia).
  rewrite (totalDeaths_exact ms) by assumption.
  rewrite (totalDamage_exact ms) by (unfold exact_limit; lia).
  rewrite (totalRounds_exact ms) by assumption.
  rewrite (wins_exact ms) by (unfold exact_limit; lia).
  rewrite !gt_of_N.
  pose proof (count_where_le is_Win ms) as Hw.
  f_equal.
  - destruct (0 <? sum_over Match.deaths ms)%N eqn:Hpos; [|reflexivity].
    apply div_of_N_shown; [lia|assumption|apply N.ltb_lt; assumption].
  - destruct (0 <? sum_over Match.rounds ms)%N eqn:Hpos; [|reflexivity].
    apply div_of_N_shown; [lia|assumption|apply N.ltb_lt; assumption].
  - apply toFixed_round_to; [lia| |].
    + apply mul_nonnegative.
      * apply div_nonnegative;
          [apply of_N_nonnegative|apply of_N_nonnegative|
           apply of_N_finite; unfold exact_limit; lia|apply of_N_nonzero; assumption].
      * apply of_N_nonnegative.
      * apply bounded_by_finite with (K := 34).
        apply (div_of_N_upper _ _ 32); [|lia|assumption].
        assert (H : (count_where is_Win ms < 2 ^ 32)%N) by lia.
        apply N2Z.inj_lt in H. rewrite N2Z.inj_pow in H. exact H.
      * apply of_N_finite. unfold exact_limit. lia.
    + apply bounded_by_weaken with (K := 34 + 8 + 1); [lia|].
      apply SFmul_upper; [| |lia].
      * apply (div_of_N_upper _ _ 32); [|lia|assumption].
        assert (H : (count_where is_Win ms < 2 ^ 32)%N) by lia.
        apply N2Z.inj_lt in H. rewrite N2Z.inj_pow in H. exact H.
      * apply (of_N_upper 100 7); [reflexivity|lia].
  - destruct (0 <? sum_over Match.rounds ms)%N eqn:Hpos; [|reflexivity].
    apply div_of_N_shown; [lia|assumption|apply N.ltb_lt; assumption].
Qed.

(** ** The match history *)

Lemma of_N_0 : Number.of_N 0 = Number.zero.
Proof. reflexivity. Qed.

Lemma of_N_positive (a : N) :
  (0 < a <= exact_limit)%N ->
  exists m e, Number.of_N a = S754_finite false m e.
Proof.
  intros [Hpos Hle].
  pose proof (of_N_nonnegative a) as Hs.
  pose proof (of_N_finite a Hle) as Hf.
  pose proof (of_N_nonzero a Hpos) as Hz.
  destruct (Number.of_N a) as [s|s| |s m e]; try discriminate.
  cbn [nonnegative] in Hs. apply negb_true_iff in Hs. subst s. eauto.
Qed.

Lemma Math_round_finite (x : Number.t) (K : Z) :
  0 <= K <= 1022 ->
  Number.bounded_by K x -> Number.is_finite (Math_round x) = true.
Proof.
  intros HK Hb. destruct x as [s|s| |s m e]; try contradiction; [reflexivity|].
  cbn [Number.bounded_by] in Hb. unfold Math_round.
  destruct (Z.leb_spec 0 e) as [He|He]; [reflexivity|].
  set (W := 2 ^ (- e)).
  assert (HW : 2 <= W).
  { change 2 with (2 ^ 1). apply Z.pow_le_mono_r; lia. }
  destruct (digits2_pos_bounds m) as [_ Hm].
  set (d := Z.pos (digits2_pos m)) in *.
  assert (Hd : 0 < d) by (unfold d; lia).
  assert (HmW : Z.pos m < 2 ^ K * W).
  { assert (H2 : 2 ^ d <= 2 ^ (K + - e)) by (apply Z.pow_le_mono_r; lia).
    rewrite pow2_split in H2 by lia. fold W in H2. lia. }
  assert (HpK : 0 < 2 ^ K) by (apply Z.pow_pos_nonneg; lia).
  set (n := (2 * cond_Zopp s (Z.pos m) + W) / (2 * W)).
  assert (Hn : - 2 ^ K <= n <= 2 ^ K).
  { unfold n. split.
    - apply Z.div_le_lower_bound; [lia|]. destruct s; cbn [cond_Zopp]; nia.
    - assert (H3 : (2 * cond_Zopp s (Z.pos m) + W) / (2 * W) < 2 ^ K + 1); [|lia].
      apply Z.div_lt_upper_bound; [lia|]. destruct s; cbn [cond_Zopp]; nia. }
  assert (Hpow : 2 ^ K < 2 ^ (K + 1)) by (apply Z.pow_lt_mono_r; lia).
  destruct n as [|p|p] eqn:En; [reflexivity| |].
  - unfold Number.of_Z, binary_normalize.
    apply bounded_by_finite with (K := K + 1 + 1).
    apply binary_round_upper; [|lia|lia].
    rewrite Z.add_0_r. change (Z.pos (digits2_pos p)) with (Zdigits2 (Z.pos p)).
    apply Zdigits2_le; lia.
  - unfold Number.of_Z, binary_normalize.
    apply bounded_by_finite with (K := K + 1 + 1).
    apply binary_round_upper; [|lia|lia].
    rewrite Z.add_0_r. change (Z.pos (digits2_pos p)) with (Zdigits2 (Z.pos p)).
    apply Zdigits2_le; lia.
Qed.

(** The page divides by the rounds without asking whether there are any,
    where the server does ask: for a stored match without a round (the
    validation lets it pass) the cell of the damage per round is NaN when
    the match has no damage and Infinity when it has, while the summary of
    that match alone has damagePerRound 0.  For a match with a round the
    cell is a finite Number.  (A match with at most 2^53 damage and
    rounds.) *)
Theorem damage_cell_not_guarded (m : Match.t) :
  (Match.damage m <= 2 ^ 53)%N ->
  (Match.rounds m <= 2 ^ 53)%N ->
  (Match.rounds m = 0%N ->
   damage_cell m = (if (Match.damage m =? 0)%N then S754_nan else S754_infinity false) /\
   User.damagePerRound (aggregate [m]) = Number.zero) /\
  ((0 < Match.rounds m)%N -> Number.is_finite (damage_cell m) = true).
Proof.
  intros Hd Hr. fold exact_limit in Hd, Hr. unfold damage_cell, rounds_virtual.
  assert (Hadd : Number.add (Number.of_N (Match.roundsWon m)) (Number.of_N (Match.roundsLost m)) =
                 Number.of_N (Match.rounds m)).
  { apply add_of_N. exact Hr. }
  split.
  - intros H0. split.
    + rewrite Hadd, H0, of_N_0.
      destruct (N.eqb_spec (Match.damage m) 0) as [->|Hne]; [reflexivity|].
      destruct (of_N_positive (Match.damage m) ltac:(lia)) as (mm & e & ->). reflexivity.
    + cbn [aggregate fold_left accumulate derive User.damagePerRound totalRounds totals0].
      rewrite Hadd, H0, of_N_0. reflexivity.
  - intros Hpos. rewrite Hadd.
    apply Math_round_finite with (K := 56); [lia|].
    apply (div_of_N_upper _ _ 54); [|lia|assumption].
    apply N2Z.inj_le in Hd. rewrite exact_limit_Z in Hd.
    assert (2 ^ 53 < 2 ^ 54) by (apply Z.pow_lt_mono_r; lia). lia.
Qed.

Lemma toFixed_of_N (a f : N) :
  (a <= exact_limit)%N ->
  Number.toFixed (Number.of_N a) f = Number.Decimal false (Z.of_N a * 10 ^ Z.of_N f) f.
Proof.
  intros Ha. destruct a as [|p]; [reflexivity|].
  assert (Hp : Z.pos p <= 2 ^ 53).
  { apply N2Z.inj_le in Ha. rewrite exact_limit_Z in Ha. exact Ha. }
  destruct (of_Z_exact p Hp) as (M & HM & Hof). cbv zeta in HM.
  unfold Number.of_N. cbn [Z.of_N]. rewrite Hof.
  pose proof (of_N_upper (N.pos p) 54) as Hup.
  unfold Number.of_N in Hup. cbn [Z.of_N] in Hup. rewrite Hof in Hup.
  assert (Hb : Number.bounded_by 55 (S754_finite false M (Z.pos (digits2_pos p) - 53))).
  { apply Hup; [|lia]. assert (2 ^ 53 < 2 ^ 54) by (apply Z.pow_lt_mono_r; lia). lia. }
  cbn [Number.bounded_by] in Hb.
  unfold Number.toFixed. rewrite bounded_by_below_1e21 by lia.
  f_equal. unfold Number.scaled_digits.
  set (E := Z.pos (digits2_pos p) - 53) in *.
  assert (HP : 0 < 10 ^ Z.of_N f) by (apply Z.pow_pos_nonneg; lia).
  destruct (Z.leb_spec E 0) as [HE|HE].
  - destruct (Z.leb_spec 0 E) as [HE0|HE0].
    + assert (E = 0) by lia. replace E with 0 in * by lia.
      rewrite Z.pow_0_r in *. lia.
    + set (W := 2 ^ (- E)) in *.
      assert (HW : 0 < W) by (apply Z.pow_pos_nonneg; lia).
      rewrite HM. symmetry.
      apply Z.div_unique with (r := W); [lia|]. ring.
  - destruct (Z.leb_spec 0 E) as [HE0|HE0]; [|lia]. rewrite HM. reflexivity.
Qed.

(** ** Quotients that are integers *)

(** A quotient of integers that is an integer below 2^51 is that integer
    as a Number. *)
Lemma SFdiv_exact (k p : positive) :
  Z.pos k < 2 ^ 51 ->
  Z.pos p < 2 ^ 900 ->
  SFdiv Number.prec Number.emax (S754_finite false (k * p) 0) (S754_finite false p 0) =
  Number.of_Z (Z.pos k).
Proof.
  intros Hk Hp.
  destruct (digits2_pos_bounds k) as [Hklo Hkhi].
  destruct (digits2_pos_bounds p) as [Hplo Hphi].
  destruct (digits2_pos_bounds (k * p)) as [Hnlo Hnhi].
  set (dk := Z.pos (digits2_pos k)) in *. set (dp := Z.pos (digits2_pos p)) in *.
  set (dn := Z.pos (digits2_pos (k * p))) in *.
  assert (Hdk : 0 < dk <= 51).
  { split; [unfold dk; lia|].
    destruct (Z_le_gt_dec dk 51) as [|Hgt]; [assumption|exfalso].
    assert (2 ^ 51 <= 2 ^ (dk - 1)) by (apply Z.pow_le_mono_r; lia). lia. }
  assert (Hdp : 0 < dp <= 900).
  { split; [unfold dp; lia|].
    destruct (Z_le_gt_dec dp 900) as [|Hgt]; [assumption|exfalso].
    assert (2 ^ 900 <= 2 ^ (dp - 1)) by (apply Z.pow_le_mono_r; lia). lia. }
  assert (Hdn : dp + dk - 1 <= dn <= dp + dk).
  { rewrite Pos2Z.inj_mul in Hnlo, Hnhi. split.
    - destruct (Z_le_gt_dec (dp + dk - 1) dn) as [|Hgt]; [assumption|exfalso].
      assert (H1 : 2 ^ dn <= 2 ^ (dk - 1 + (dp - 1))) by (apply Z.pow_le_mono_r; lia).
      rewrite pow2_split in H1 by lia.
      assert (2 ^ (dk - 1) * 2 ^ (dp - 1) <= Z.pos k * Z.pos p).
      { apply Z.mul_le_mono_nonneg; [apply Z.pow_nonneg|assumption|apply Z.pow_nonneg|assumption]; lia. }
      lia.
    - destruct (Z_le_gt_dec dn (dp + dk)) as [|Hgt]; [assumption|exfalso].
      assert (H1 : 2 ^ (dk + dp) <= 2 ^ (dn - 1)) by (apply Z.pow_le_mono_r; lia).
      rewrite pow2_split in H1 by lia.
      assert (Z.pos k * Z.pos p < 2 ^ dk * 2 ^ dp).
      { apply Z.mul_lt_mono_nonneg; lia. }
      lia. }
  assert (HD : let D := Z.pos (digits2_pos (k * p)) - Z.pos (digits2_pos p) in -1000 <= D <= 51).
  { cbv zeta. fold dn dp. lia. }
  destruct (SFdiv_near (k * p) p HD) as (M & E' & -> & HM & HE' & Hexp & Hnear).
  fold dn dp in HE', Hexp. cbv zeta in Hexp.
  set (D := dn - dp) in *.
  assert (Hq : Z.pos (k * p) * 2 ^ (53 - D) / Z.pos p = Z.pos k * 2 ^ (53 - D)).
  { rewrite Pos2Z.inj_mul.
    replace (Z.pos k * Z.pos p * 2 ^ (53 - D)) with (Z.pos k * 2 ^ (53 - D) * Z.pos p) by ring.
    apply Z.div_mul. lia. }
  rewrite Hq, Zdigits2_mul_pow2 in Hexp by (unfold D; lia).
  change (Zdigits2 (Z.pos k)) with dk in Hexp.
  replace (dk + (53 - D) + (D - 53) - 53) with (dk - 53) in Hexp by ring.
  assert (HW : 0 < 2 ^ (- E')) by (apply Z.pow_pos_nonneg; lia).
  rewrite Pos2Z.inj_mul in Hnear.
  assert (HMk : Z.pos M = Z.pos k * 2 ^ (- E')) by nia.
  assert (HE : E' = dk - 53).
  { destruct Hexp as [|[HE1 HM52]]; [assumption|exfalso].
    rewrite HM52, HE1 in HMk.
    replace (- (dk - 53 + 1)) with (52 - dk) in HMk by ring.
    assert (H1 : 2 ^ 52 = 2 ^ (dk + (52 - dk))) by (f_equal; lia).
    rewrite pow2_split in H1 by lia. nia. }
  assert (Hk53 : Z.pos k <= 2 ^ 53).
  { assert (2 ^ 51 < 2 ^ 53) by (apply Z.pow_lt_mono_r; lia). lia. }
  destruct (of_Z_exact k Hk53) as (M0 & HM0 & ->). cbv zeta in HM0. fold dk in HM0 |- *.
  destruct (Z.leb_spec (dk - 53) 0) as [_|Hbad]; [|lia].
  rewrite HE in *. f_equal. lia.
Qed.

(** The quotient of two Numbers with full mantissas has a full mantissa. *)
Lemma SFdiv_canonical (mx my : positive) (ex ey : Z) :
  Z.pos (digits2_pos mx) = 53 ->
  Z.pos (digits2_pos my) = 53 ->
  -1020 <= ex - ey <= 1020 ->
  exists (M : positive) (E' : Z),
    SFdiv Number.prec Number.emax (S754_finite false mx ex) (S754_finite false my ey) =
      S754_finite false M E' /\
    2 ^ 52 <= Z.pos M < 2 ^ 53.
Proof.
  intros Hdx Hdy HD. cbn [SFdiv xorb]. unfold SFdiv_core_binary. cbn [Zdigits2].
  rewrite Hdx, Hdy, fexp_eq.
  replace (53 + ex - (53 + ey)) with (ex - ey) by ring.
  replace (Z.min (Z.max (ex - ey - 53) (-1074)) (ex - ey)) with (ex - ey - 53) by lia.
  replace (ex - ey - (ex - ey - 53)) with 53 by ring.
  assert (Hm' : Z.shiftl (Z.pos mx) 53 = Z.pos mx * 2 ^ 53) by (apply Z.shiftl_mul_pow2; lia).
  rewrite Hm'.
  pose proof (Z_div_mod (Z.pos mx * 2 ^ 53) (Z.pos my) ltac:(lia)) as Hdm.
  destruct (Z.div_eucl (Z.pos mx * 2 ^ 53) (Z.pos my)) as [q r]. destruct Hdm as [Hq Hr].
  destruct (digits2_pos_bounds mx) as [Hxlo Hxhi].
  destruct (digits2_pos_bounds my) as [Hylo Hyhi].
  rewrite Hdx in Hxlo, Hxhi. rewrite Hdy in Hylo, Hyhi.
  change (2 ^ (53 - 1)) with 4503599627370496 in *.
  change (2 ^ 53) with 9007199254740992 in *.
  assert (Hqb : 4503599627370496 <= q < 18014398509481984) by nia.
  assert (Hq0 : 0 < q) by lia.
  assert (Hdq : 53 <= Zdigits2 q <= 54).
  { split.
    - assert (52 < Zdigits2 q) by (apply Zdigits2_ge; [lia|change (2 ^ 52) with 4503599627370496; lia]).
      lia.
    - apply Zdigits2_le; [lia|]. change (2 ^ 54) with 18014398509481984. lia. }
  assert (Hloc : located (shr_record_of_loc q (new_location (Z.pos my) r))
                   (Z.pos mx * 9007199254740992) (Z.pos my)).
  { rewrite Hq. replace (Z.pos my * q + r) with (q * Z.pos my + r) by ring.
    apply new_location_located; lia. }
  destruct (binary_round_aux_near q (ex - ey - 53) (new_location (Z.pos my) r)
              (Z.pos mx * 9007199254740992) (Z.pos my) Hq0 Hloc ltac:(lia) ltac:(lia))
    as (M & E' & Hround & HM & _).
  exists M, E'. split; [assumption|].
  change (2 ^ 52) with 4503599627370496 in HM. change (2 ^ 53) with 9007199254740992 in HM.
  assumption.
Qed.

Lemma of_N_canonical (a : N) :
  (0 < a <= exact_limit)%N ->
  exists m e, Number.of_N a = S754_finite false m e /\
              Z.pos (digits2_pos m) = 53 /\ -52 <= e <= 1.
Proof.
  intros [Hpos Hle]. destruct a as [|p]; [lia|].
  assert (Hp : Z.pos p <= 2 ^ 53).
  { apply N2Z.inj_le in Hle. rewrite exact_limit_Z in Hle. exact Hle. }
  destruct (of_Z_exact p Hp) as (M & HM & Hof). cbv zeta in HM.
  destruct (digits2_pos_bounds p) as [Hlo Hhi].
  set (d := Z.pos (digits2_pos p)) in *.
  assert (Hd : 0 < d <= 54).
  { split; [unfold d; lia|].
    destruct (Z_le_gt_dec d 54) as [|Hgt]; [assumption|exfalso].
    assert (2 ^ 54 <= 2 ^ (d - 1)) by (apply Z.pow_le_mono_r; lia).
    assert (2 ^ 53 < 2 ^ 54) by (apply Z.pow_lt_mono_r; lia). lia. }
  exists M, (d - 53). split; [exact Hof|]. split; [|lia].
  change (Z.pos (digits2_pos M)) with (Zdigits2 (Z.pos M)).
  destruct (Z.leb_spec (d - 53) 0) as [HE|HE].
  - rewrite HM, Zdigits2_mul_pow2 by lia. change (Zdigits2 (Z.pos p)) with d. lia.
  - assert (d = 54) by lia.
    assert (Hp53 : Z.pos p = 2 ^ 53).
    { replace (d - 1) with 53 in Hlo by lia. lia. }
    replace (d - 53) with 1 in HM by lia. rewrite Z.pow_1_r in HM.
    apply Zdigits2_eq; [lia|]. change (2 ^ (53 - 1)) with 4503599627370496.
    change (2 ^ 53) with 9007199254740992 in *. lia.
Qed.

(** For the quotient of two counts, [Math.round] and
    [parseFloat] of [toFixed(0)] are the same Number. *)
Lemma Math_round_div_of_N (a b : N) :
  (a < 2 ^ 48)%N -> (0 < b <= exact_limit)%N ->
  Math_round (Number.div (Number.of_N a) (Number.of_N b)) =
  Number.round_to 0 (Number.div (Number.of_N a) (Number.of_N b)).
Proof.
  intros Ha [Hb0 Hb].
  destruct (of_N_canonical b (conj Hb0 Hb)) as (mb & eb & Hofb & Hdb & Heb).
  destruct (N.eq_dec a 0%N) as [->|Ha0].
  { rewrite of_N_0, Hofb. reflexivity. }
  assert (Hale : (a <= exact_limit)%N).
  { unfold exact_limit. change (2 ^ 53)%N with 9007199254740992%N.
    change (2 ^ 48)%N with 281474976710656%N in Ha. lia. }
  destruct (of_N_canonical a ltac:(lia)) as (ma & ea & Hofa & Hda & Hea).
  pose proof (div_of_N_upper a b 48) as Hup.
  assert (Hbound : Number.bounded_by 50 (Number.div (Number.of_N a) (Number.of_N b))).
  { apply Hup; [|lia|assumption].
    apply N2Z.inj_lt in Ha. rewrite N2Z.inj_pow in Ha. exact Ha. }
  rewrite Hofa, Hofb in *. unfold Number.div in *.
  destruct (SFdiv_canonical ma mb ea eb Hda Hdb ltac:(lia)) as (M & E' & Hdiv & HM).
  rewrite Hdiv in *. cbn [Number.bounded_by] in Hbound.
  assert (HdM : Z.pos (digits2_pos M) = 53).
  { change (Z.pos (digits2_pos M)) with (Zdigits2 (Z.pos M)).
    apply Zdigits2_eq; [lia|]. exact HM. }
  assert (HE' : E' < 0) by lia.
  unfold Number.round_to, Number.toFixed, Math_round.
  rewrite bounded_by_below_1e21 by lia.
  destruct (Z.leb_spec 0 E') as [Hbad|_]; [lia|].
  pose proof (scaled_digits_nonneg M E' 0) as Hn0.
  pose proof (scaled_digits_bounded M E' 0 50 ltac:(lia) ltac:(lia)) as Hn.
  unfold Number.scaled_digits in *. change (10 ^ Z.of_N 0) with 1 in *.
  destruct (Z.leb_spec 0 E') as [Hbad|_]; [lia|]. rewrite !Z.mul_1_r in *.
  cbn [cond_Zopp].
  destruct ((2 * Z.pos M + 2 ^ (- E')) / (2 * 2 ^ (- E'))) as [|n|n]; [reflexivity| |lia].
  cbn [Number.parseFloat]. unfold Number.literal, Number.of_fraction.
  change (Z.to_pos (10 ^ Z.of_N 0)) with 1%positive.
  rewrite <- (SFdiv_exact n 1).
  - rewrite Pos.mul_1_r. reflexivity.
  - assert (2 ^ 50 < 2 ^ 51) by (apply Z.pow_lt_mono_r; lia). lia.
  - assert (2 ^ 0 < 2 ^ 900) by (apply Z.pow_lt_mono_r; lia). lia.
Qed.

(** The damage per round in the row of a match with at least a round is
    the damagePerRound of the summary of that match alone: the page rounds
    with [Math.round], the server with [toFixed(0)], and for these
    quotients both give the same Number.  (A match with fewer than 2^48
    damage and at most 2^53 rounds.) *)
Theorem damage_cell_is_damagePerRound (m : Match.t) :
  (Match.damage m < 2 ^ 48)%N ->
  (0 < Match.rounds m <= 2 ^ 53)%N ->
  damage_cell m = User.damagePerRound (aggregate [m]).
Proof.
  intros Hd [Hr0 Hr]. fold exact_limit in Hr. unfold damage_cell, rounds_virtual.
  assert (Hadd : Number.add (Number.of_N (Match.roundsWon m)) (Number.of_N (Match.roundsLost m)) =
                 Number.of_N (Match.rounds m)).
  { apply add_of_N. exact Hr. }
  assert (Hd' : (Match.damage m <= exact_limit)%N).
  { unfold exact_limit. change (2 ^ 53)%N with 9007199254740992%N.
    change (2 ^ 48)%N with 281474976710656%N in Hd. lia. }
  cbn [aggregate fold_left accumulate derive User.damagePerRound totalRounds totalDamage
       totals0].
  rewrite Hadd. change Number.zero with (Number.of_N 0).
  rewrite !add_of_N by (rewrite N.add_0_l; assumption).
  rewrite !N.add_0_l, gt_of_N.
  assert (H : (0 <? Match.rounds m)%N = true) by (apply N.ltb_lt; assumption).
  rewrite H. apply Math_round_div_of_N; [assumption|split; assumption].
Qed.

(** The cell of the K/D of a match is a number with two decimals, never
    Infinity or NaN: without a death it is the kills with two zeros
    after the point, and in both cases it is the text that, read as a
    Number, is the kdRatio stored for an account with this match alone.
    (A match with at most 2^53 kills and deaths; without a death, fewer
    than 2^51 kills.) *)
Theorem kd_cell_two_decimals (m : Match.t) :
  (Match.kills m <= 2 ^ 53)%N ->
  (Match.deaths m <= 2 ^ 53)%N ->
  (exists n, kd_cell m = Number.Decimal false n 2) /\
  (Match.deaths m = 0%N ->
   kd_cell m = Number.Decimal false (Z.of_N (Match.kills m) * 100) 2) /\
  ((0 < Match.deaths m)%N \/ (Match.kills m < 2 ^ 51)%N ->
   Number.parseFloat (kd_cell m) = User.kdRatio (aggregate [m])).
Proof.
  intros Hk Hd. fold exact_limit in Hk, Hd. unfold kd_cell. cbv zeta. rewrite gt_of_N.
  assert (Hzero : Number.toFixed (Number.of_N (Match.kills m)) 2 =
                  Number.Decimal false (Z.of_N (Match.kills m) * 100) 2).
  { apply (toFixed_of_N (Match.kills m) 2). assumption. }
  assert (Hkd : User.kdRatio (aggregate [m]) =
                if (0 <? Match.deaths m)%N
                then Number.round_to 2
                       (Number.div (Number.of_N (Match.kills m)) (Number.of_N (Match.deaths m)))
                else Number.of_N (Match.kills m)).
  { cbn [aggregate fold_left accumulate derive User.kdRatio totalKills totalDeaths totals0].
    change Number.zero with (Number.of_N 0).
    rewrite !add_of_N by (rewrite N.add_0_l; assumption).
    rewrite !N.add_0_l, gt_of_N. reflexivity. }
  split; [|split].
  - destruct (0 <? Match.deaths m)%N eqn:Hpos; [|eauto].
    apply N.ltb_lt in Hpos.
    pose proof (div_nonnegative (Number.of_N (Match.kills m)) (Number.of_N (Match.deaths m))
                  (of_N_nonnegative _) (of_N_nonnegative _) (of_N_finite _ Hk)
                  (of_N_nonzero _ Hpos)) as Hs.
    assert (Hb : Number.bounded_by 56
                   (Number.div (Number.of_N (Match.kills m)) (Number.of_N (Match.deaths m)))).
    { apply (div_of_N_upper _ _ 54); [|lia|assumption].
      apply N2Z.inj_le in Hk. rewrite exact_limit_Z in Hk.
      assert (2 ^ 53 < 2 ^ 54) by (apply Z.pow_lt_mono_r; lia). lia. }
    destruct (Number.div (Number.of_N (Match.kills m)) (Number.of_N (Match.deaths m)))
      as [s|s| |s mm e]; try contradiction.
    + eexists. reflexivity.
    + cbn [nonnegative] in Hs. apply negb_true_iff in Hs. subst s.
      cbn [Number.bounded_by] in Hb. unfold Number.toFixed.
      rewrite bounded_by_below_1e21 by lia. eexists. reflexivity.
  - intros H0. rewrite H0. cbn [N.ltb N.compare]. assumption.
  - intros Hcase. rewrite Hkd.
    destruct (0 <? Match.deaths m)%N eqn:Hpos; [reflexivity|].
    apply N.ltb_ge in Hpos. destruct Hcase as [Hbad|Hlt]; [lia|].
    rewrite Hzero. destruct (Match.kills m) as [|k]; [reflexivity|].
    cbn [Z.of_N Z.mul Number.parseFloat]. unfold Number.literal, Number.of_fraction.
    change (Z.to_pos (10 ^ Z.of_N 2)) with 100%positive.
    unfold Number.of_N. cbn [Z.of_N].
    apply SFdiv_exact.
    + apply N2Z.inj_lt in Hlt. rewrite N2Z.inj_pow in Hlt. exact Hlt.
    + assert (2 ^ 7 < 2 ^ 900) by (apply Z.pow_lt_mono_r; lia).
      change (2 ^ 7) with 128 in *. lia.
Qed.

(** ** The pages on the sample data *)

Lemma cards_show_ratios_witness :
  stat_cards (aggregate [match_a; match_b]) =
  (let s := aggregate [match_a; match_b] in
   {| Cards.kdRatio :=
        if Number.gt (User.deaths s) Number.zero
        then Number.toFixed (Number.div (User.kills s) (User.deaths s)) 2
        else Number.toFixed (User.kills s) 2;
      Cards.damagePerRound :=
        if Number.gt (User.totalRounds s) Number.zero
        then Number.toFixed (Number.div (User.totalDamage s) (User.totalRounds s)) 0
        else Number.Decimal false 0 0;
      Cards.winPercentage :=
        Number.toFixed
          (Number.mul (Number.div (User.wins s) (User.totalGames s)) (Number.of_N 100)) 1;
      Cards.killsPerRound :=
        if Number.gt (User.totalRounds s) Number.zero
        then Number.toFixed (Number.div (User.kills s) (User.totalRounds s)) 2
        else Number.Decimal false 0 2 |}).
Proof.
  apply (cards_show_ratios [match_a; match_b]).
  - discriminate.
  - vm_compute. reflexivity.
  - vm_compute. reflexivity.
  - vm_compute. discriminate.
  - vm_compute. discriminate.
  - vm_compute. reflexivity.
Defined.

(** The cards of the two sample matches: 1.05, 224, 50.0 and 0.92. *)
Example cards_sample :
  stat_cards (aggregate [match_a; match_b]) =
  {| Cards.kdRatio := Number.Decimal false 105 2;
     Cards.damagePerRound := Number.Decimal false 224 0;
     Cards.winPercentage := Number.Decimal false 500 1;
     Cards.killsPerRound := Number.Decimal false 92 2 |}.
Proof. vm_compute. reflexivity. Qed.

Lemma damage_cell_not_guarded_witness :
  damage_cell match_no_round =
    (if (Match.damage match_no_round =? 0)%N then S754_nan else S754_infinity false) /\
  User.damagePerRound (aggregate [match_no_round]) = Number.zero.
Proof.
  refine (proj1 (damage_cell_not_guarded match_no_round _ _) _).
  - vm_compute. discriminate.
  - vm_compute. discriminate.
  - reflexivity.
Defined.

(** Math.round as the pages meet it: 3200 / 13 is shown as 246, and the
    halves go up: 2.5 to 3, -2.5 to -2, -0.5 to -0. *)
Example Math_round_samples :
  Number.to_Z (damage_cell match_a) = Some 246 /\
  damage_cell match_idle = S754_nan /\
  Number.to_Z (Math_round (Number.literal false 25 1)) = Some 3 /\
  Number.to_Z (Math_round (Number.literal true 25 1)) = Some (-2) /\
  Math_round (Number.literal true 5 1) = S754_zero true.
Proof. vm_compute. repeat split. Qed.

Lemma kd_cell_two_decimals_witness :
  Number.parseFloat (kd_cell match_a) = User.kdRatio (aggregate [match_a]).
Proof.
  refine (proj2 (proj2 (kd_cell_two_decimals match_a _ _)) _).
  - vm_compute. discriminate.
  - vm_compute. discriminate.
  - left. reflexivity.
Defined.

(** The row of a match without a death shows its kills as the K/D. *)
Example kd_cell_no_death :
  kd_cell match_idle = Number.Decimal false 0 2 /\
  kd_cell (sample 12 Win 7 0 2 900 13 4) = Number.Decimal false 700 2.
Proof. vm_compute. split; reflexivity. Qed.

Lemma damage_cell_is_damagePerRound_witness :
  damage_cell match_a = User.damagePerRound (aggregate [match_a]).
Proof.
  apply (damage_cell_is_damagePerRound match_a).
  - vm_compute. reflexivity.
  - vm_compute. split; [reflexivity|discriminate].
Defined.

(** * The ratios of the summary *)

(** ** Rounding to a Number or to Infinity *)

(** Rounding a mantissa of at least 53 bits with the position of a
    quotient: the result is the nearest Number, the quotient at most half
    a unit of its last place away from it, or Infinity when the exponent
    of that Number would be above 971. *)
Lemma binary_round_aux_cases (q e : Z) (l : location) (num den : Z) :
  0 < q ->
  located (shr_record_of_loc q l) num den ->
  53 <= Zdigits2 q ->
  let E := Zdigits2 q + e - 53 in
  -1074 <= E ->
  exists (M : positive) (E' : Z),
    2 ^ 52 <= Z.pos M < 2 ^ 53 /\
    (E' = E \/ E' = E + 1 /\ Z.pos M = 2 ^ 52) /\
    - (den * 2 ^ (E - e)) <=
      2 * (Z.pos M * 2 ^ (E' - E) * (den * 2 ^ (E - e)) - num) <= den * 2 ^ (E - e) /\
    binary_round_aux Number.prec Number.emax false q e l =
      if E' <=? 971 then S754_finite false M E' else S754_infinity false.
Proof.
  intros Hq Hl Hd E HE.
  assert (Hk : Z.max 0 (fexp Number.prec Number.emax (Zdigits2 q + e) - e) = E - e).
  { rewrite fexp_eq. unfold E. lia. }
  destruct (shr_fexp_located q e l num den Hq Hl) as (He1 & Hm1 & Hl1).
  cbv zeta in He1, Hl1. rewrite Hk in He1, Hl1.
  destruct (shr_fexp_spec q e l (Z.lt_le_incl _ _ Hq)) as [Hsm _].
  unfold binary_round_aux.
  destruct (shr_fexp Number.prec Number.emax q e l) as [mrs1 e1].
  cbn [fst snd] in *. subst e1.
  replace (e + (E - e)) with E in * by ring.
  set (k := E - e) in *.
  assert (Hk0 : 0 <= k) by (unfold k, E; lia).
  set (m1 := shr_m mrs1) in *.
  assert (Hm1b : 2 ^ 52 <= m1 < 2 ^ 53).
  { pose proof (Zdigits2_bounds q Hq) as [Hlo Hhi].
    assert (Hp : 0 < 2 ^ k) by (apply Z.pow_pos_nonneg; lia).
    replace (Zdigits2 q - 1) with (52 + k) in Hlo by (unfold k, E; lia).
    replace (Zdigits2 q) with (53 + k) in Hhi by (unfold k, E; lia).
    rewrite pow2_split in Hlo, Hhi by lia.
    rewrite Hsm. split.
    - apply Z.div_le_lower_bound; [assumption|]. lia.
    - apply Z.div_lt_upper_bound; [assumption|]. lia. }
  pose proof (round_located mrs1 num (den * 2 ^ k) Hl1) as Hnear. cbv zeta in Hnear.
  pose proof (round_nearest_even_bounds m1 (loc_of_shr_record mrs1)) as HM1.
  fold m1 in Hnear.
  set (M1 := round_nearest_even m1 (loc_of_shr_record mrs1)) in *.
  assert (HM1pos : 0 <= M1) by lia.
  destruct (shr_fexp_spec M1 E loc_Exact HM1pos) as [Hsm2 He2].
  destruct (shr_fexp Number.prec Number.emax M1 E loc_Exact) as [mrs2 e2].
  cbn [fst snd] in *.
  change (2 ^ 52) with 4503599627370496 in Hm1b.
  change (2 ^ 53) with 9007199254740992 in Hm1b.
  change (Number.emax - Number.prec) with 971.
  destruct (Z.eq_dec M1 9007199254740992) as [Hfull|Hless].
  - assert (HdM : Zdigits2 M1 = 54) by (rewrite Hfull; reflexivity).
    rewrite HdM, fexp_eq in He2.
    assert (He2' : e2 = E + 1) by lia.
    rewrite He2' in *. replace (E + 1 - E) with 1 in Hsm2 by ring.
    rewrite Hfull in Hsm2. change (9007199254740992 / 2 ^ 1) with (Z.pos 4503599627370496) in Hsm2.
    rewrite Hsm2.
    exists 4503599627370496%positive, (E + 1).
    split; [split; [discriminate|reflexivity]|]. split; [right; split; reflexivity|].
    split; [|reflexivity].
    replace (E + 1 - E) with 1 by ring. rewrite Z.pow_1_r.
    replace (4503599627370496 * 2) with M1 by lia. assumption.
  - assert (HdM : Zdigits2 M1 = 53).
    { apply Zdigits2_eq; [lia|]. change (2 ^ (53 - 1)) with 4503599627370496.
      change (2 ^ 53) with 9007199254740992. lia. }
    rewrite HdM, fexp_eq in He2.
    assert (He2' : e2 = E) by lia.
    rewrite He2' in *. replace (E - E) with 0 in * by ring.
    rewrite Z.pow_0_r, Z.div_1_r in Hsm2. rewrite Hsm2.
    destruct M1 as [|M|M]; try lia.
    exists M, E.
    split; [change (2 ^ 52) with 4503599627370496; change (2 ^ 53) with 9007199254740992; lia|].
    split; [left; reflexivity|]. split; [|reflexivity].
    replace (E - E) with 0 by ring. rewrite Z.pow_0_r, Z.mul_1_r. assumption.
Qed.

(** ** Totals of counts *)

Lemma located_exact (q : Z) : located (shr_record_of_loc q loc_Exact) q 1.
Proof.
  unfold located. cbn [shr_record_of_loc shr_m shr_r shr_s].
  replace (q - q * 1) with 0 by ring. repeat split; lia.
Qed.

Lemma shl_align_snd (m : positive) (e e' : Z) :
  e' <= e -> snd (shl_align m e e') = e'.
Proof.
  intros H. unfold shl_align. destruct (e' - e) as [|d|d] eqn:Hd; cbn [snd]; lia.
Qed.

(** A positive integer mantissa of a Number from 1 on rounds to a Number
    of 53 bits or to Infinity. *)
Lemma binary_round_count (mx : positive) (ex : Z) :
  1 <= Z.pos (digits2_pos mx) + ex ->
  count_like (binary_round Number.prec Number.emax false mx ex).
Proof.
  intros Hone. unfold binary_round.
  pose proof (shl_align_spec mx ex (fexp Number.prec Number.emax (Z.pos (digits2_pos mx) + ex)))
    as [Hd Hle].
  rewrite fexp_eq in *.
  replace (Z.max (Z.pos (digits2_pos mx) + ex - 53) (-1074))
    with (Z.pos (digits2_pos mx) + ex - 53) in * by lia.
  set (d := Z.pos (digits2_pos mx)) in *.
  assert (Hez : snd (shl_align mx ex (d + ex - 53)) <= d + ex - 53).
  { unfold shl_align. destruct (d + ex - 53 - ex) as [|k|k] eqn:Hk; cbn [snd]; lia. }
  destruct (shl_align mx ex (d + ex - 53)) as [mz ez]. cbn [fst snd] in *.
  change (Z.pos (digits2_pos mz)) with (Zdigits2 (Z.pos mz)) in Hd.
  destruct (binary_round_aux_cases (Z.pos mz) ez loc_Exact (Z.pos mz) 1
              ltac:(lia) (located_exact _) ltac:(lia) ltac:(lia))
    as (M & E' & HM & HE' & _ & ->).
  destruct (E' <=? 971) eqn:Hfin; cbn [count_like]; [|reflexivity].
  apply Z.leb_le in Hfin. split; [reflexivity|]. split.
  - change (Z.pos (digits2_pos M)) with (Zdigits2 (Z.pos M)).
    apply Zdigits2_eq; [lia|]. exact HM.
  - destruct HE' as [HE'|[HE' _]]; lia.
Qed.

Lemma of_N_count (a : N) : count_like (Number.of_N a).
Proof.
  destruct a as [|p]; [reflexivity|].
  unfold Number.of_N, Number.of_Z. cbn [Z.of_N binary_normalize].
  apply binary_round_count. lia.
Qed.

Lemma add_count (x y : Number.t) :
  count_like x -> count_like y -> count_like (Number.add x y).
Proof.
  unfold Number.add.
  destruct x as [sx|sx| |sx mx ex], y as [sy|sy| |sy my ey]; cbn [count_like SFadd];
    intros Hx Hy; try tauto; try (subst; reflexivity); try assumption.
  destruct Hx as (-> & Hdx & Hex), Hy as (-> & Hdy & Hey). cbn [cond_Zopp].
  set (ez := Z.min ex ey).
  pose proof (shl_align_spec mx ex ez) as [Hsx _].
  pose proof (shl_align_spec my ey ez) as [Hsy _].
  rewrite (shl_align_snd mx ex ez) in Hsx by (unfold ez; lia).
  rewrite (shl_align_snd my ey ez) in Hsy by (unfold ez; lia).
  set (mx' := fst (shl_align mx ex ez)) in *.
  set (my' := fst (shl_align my ey ez)) in *.
  change (Z.pos mx' + Z.pos my') with (Z.pos (mx' + my')).
  cbn [binary_normalize]. apply binary_round_count.
  assert (Hmono : Zdigits2 (Z.pos mx') <= Zdigits2 (Z.pos (mx' + my'))).
  { apply Zdigits2_mono. lia. }
  cbn [Zdigits2] in Hmono. lia.
Qed.

Lemma accumulate_count (t : Totals) (m : Match.t) :
  count_like (totalKills t) /\ count_like (totalDeaths t) ->
  count_like (totalKills (accumulate t m)) /\ count_like (totalDeaths (accumulate t m)).
Proof.
  intros [Hk Hd]. cbn [accumulate totalKills totalDeaths].
  split; apply add_count; assumption || apply of_N_count.
Qed.

Lemma fold_accumulate_count (ms : list Match.t) (t : Totals) :
  count_like (totalKills t) /\ count_like (totalDeaths t) ->
  count_like (totalKills (fold_left accumulate ms t)) /\
  count_like (totalDeaths (fold_left accumulate ms t)).
Proof.
  revert t. induction ms as [|m ms IH]; intros t Ht; [exact Ht|].
  cbn [fold_left]. apply IH. apply accumulate_count. exact Ht.
Qed.

(** ** The quotient of two totals *)

(** The quotient of two Numbers of 53 bits: the nearest Number, the
    quotient at most half a unit of its last place away from it, or
    Infinity. *)
Lemma SFdiv_count (mx my : positive) (ex ey : Z) :
  Z.pos (digits2_pos mx) = 53 ->
  Z.pos (digits2_pos my) = 53 ->
  -1021 <= ex - ey ->
  exists (M : positive) (k j : Z),
    0 <= k <= 1 /\ 0 <= j <= 1 /\
    2 ^ 52 <= Z.pos M < 2 ^ 53 /\
    - (Z.pos my * 2 ^ k) <=
      2 * (Z.pos M * 2 ^ j * (Z.pos my * 2 ^ k) - Z.pos mx * 2 ^ 53) <= Z.pos my * 2 ^ k /\
    SFdiv Number.prec Number.emax (S754_finite false mx ex) (S754_finite false my ey) =
      if ex - ey - 53 + k + j <=? 971
      then S754_finite false M (ex - ey - 53 + k + j)
      else S754_infinity false.
Proof.
  intros Hdx Hdy HD. cbn [SFdiv xorb]. unfold SFdiv_core_binary. cbn [Zdigits2].
  rewrite Hdx, Hdy, fexp_eq.
  replace (53 + ex - (53 + ey)) with (ex - ey) by ring.
  replace (Z.min (Z.max (ex - ey - 53) (-1074)) (ex - ey)) with (ex - ey - 53) by lia.
  replace (ex - ey - (ex - ey - 53)) with 53 by ring.
  assert (Hm' : Z.shiftl (Z.pos mx) 53 = Z.pos mx * 2 ^ 53) by (apply Z.shiftl_mul_pow2; lia).
  rewrite Hm'.
  pose proof (Z_div_mod (Z.pos mx * 2 ^ 53) (Z.pos my) ltac:(lia)) as Hdm.
  destruct (Z.div_eucl (Z.pos mx * 2 ^ 53) (Z.pos my)) as [q r]. destruct Hdm as [Hq Hr].
  destruct (digits2_pos_bounds mx) as [Hxlo Hxhi].
  destruct (digits2_pos_bounds my) as [Hylo Hyhi].
  rewrite Hdx in Hxlo, Hxhi. rewrite Hdy in Hylo, Hyhi.
  change (2 ^ (53 - 1)) with 4503599627370496 in *.
  change (2 ^ 53) with 9007199254740992 in *.
  assert (Hqb : 4503599627370496 <= q < 18014398509481984) by nia.
  assert (Hq0 : 0 < q) by lia.
  assert (Hdq : 53 <= Zdigits2 q <= 54).
  { split.
    - assert (52 < Zdigits2 q) by (apply Zdigits2_ge; [lia|change (2 ^ 52) with 4503599627370496; lia]).
      lia.
    - apply Zdigits2_le; [lia|]. change (2 ^ 54) with 18014398509481984. lia. }
  assert (Hloc : located (shr_record_of_loc q (new_location (Z.pos my) r))
                   (Z.pos mx * 9007199254740992) (Z.pos my)).
  { rewrite Hq. replace (Z.pos my * q + r) with (q * Z.pos my + r) by ring.
    apply new_location_located; lia. }
  destruct (binary_round_aux_cases q (ex - ey - 53) (new_location (Z.pos my) r)
              (Z.pos mx * 9007199254740992) (Z.pos my) Hq0 Hloc ltac:(lia) ltac:(lia))
    as (M & E' & HM & HE' & Hnear & Hround).
  set (E := Zdigits2 q + (ex - ey - 53) - 53) in *.
  exists M, (E - (ex - ey - 53)), (E' - E).
  split; [unfold E; lia|]. split; [destruct HE' as [HE'|[HE' _]]; lia|].
  split; [change (2 ^ 52) with 4503599627370496; exact HM|].
  split; [exact Hnear|].
  replace (ex - ey - 53 + (E - (ex - ey - 53)) + (E' - E)) with E' by ring.
  exact Hround.
Qed.

(** The quotient of a finite total by a total above 0 is finite. *)
Lemma div_count_finite (x y : Number.t) :
  count_like x -> count_like y ->
  Number.is_finite x = true -> Number.gt y Number.zero = true ->
  Number.is_finite (Number.div x y) = true.
Proof.
  unfold Number.div.
  destruct x as [sx|sx| |sx mx ex], y as [sy|sy| |sy my ey];
    cbn [count_like Number.is_finite]; intros Hx Hy Hfin Hgt;
    try discriminate; try tauto; try reflexivity.
  destruct Hx as (-> & Hdx & Hex), Hy as (-> & Hdy & Hey).
  destruct (Z_le_gt_dec (ex - ey) 1022) as [Hle|Hgt'].
  - apply bounded_by_finite with (K := 1024).
    eapply bounded_by_weaken; [|apply SFdiv_finite_upper]; lia.
  - destruct (SFdiv_count mx my ex ey Hdx Hdy ltac:(lia))
      as (M & k & j & Hk & Hj & HM & Hnear & ->).
    destruct (Z.leb_spec (ex - ey - 53 + k + j) 971) as [_|Hover]; [reflexivity|exfalso].
    assert (k = 1) by lia. assert (j = 1) by lia. subst k j.
    destruct (digits2_pos_bounds mx) as [_ Hxhi].
    destruct (digits2_pos_bounds my) as [Hylo _].
    rewrite Hdx in Hxhi. rewrite Hdy in Hylo.
    change (2 ^ (53 - 1)) with 4503599627370496 in *.
    change (2 ^ 53) with 9007199254740992 in *.
    change (2 ^ 52) with 4503599627370496 in *.
    change (2 ^ 1) with 2 in *. nia.
Qed.

(** The kills and the deaths of a summary are totals of counts. *)
Lemma aggregate_count (ms : list Match.t) :
  count_like (User.kills (aggregate ms)) /\ count_like (User.deaths (aggregate ms)).
Proof.
  destruct ms as [|m ms]; [split; reflexivity|].
  cbn [aggregate derive User.kills User.deaths].
  apply fold_accumulate_count. split; reflexivity.
Qed.

(** kdRatio is finite when the total of the kills is, and only then. *)
Lemma kdRatio_finite (ms : list Match.t) :
  Number.is_finite (User.kdRatio (aggregate ms)) =
  Number.is_finite (User.kills (aggregate ms)).
Proof.
  destruct (aggregate_count ms) as [Hk Hd].
  assert (H : User.kdRatio (aggregate ms) =
    if Number.gt (User.deaths (aggregate ms)) Number.zero
    then Number.round_to 2 (Number.div (User.kills (aggregate ms)) (User.deaths (aggregate ms)))
    else User.kills (aggregate ms)).
  { destruct ms as [|m ms]; reflexivity. }
  rewrite H. clear H.
  set (kills := User.kills (aggregate ms)) in *.
  set (deaths := User.deaths (aggregate ms)) in *. clearbody kills deaths.
  destruct (Number.gt deaths Number.zero) eqn:Hgt; [|reflexivity].
  destruct (Number.is_finite kills) eqn:Hfin.
  - apply round_to_finite; [lia|]. apply div_count_finite; assumption.
  - destruct kills as [sx|sx| |sx mx ex]; try discriminate; [|contradiction].
    destruct deaths as [sy|sy| |sy my ey]; try discriminate; try contradiction;
      reflexivity.
Qed.

(** ** The quotient of two exact totals, rounded *)

(** The Number of a count up to 2^53 has the value of the count. *)
Lemma of_N_value (a : N) :
  (0 < a <= exact_limit)%N ->
  exists m e, Number.of_N a = S754_finite false m e /\
              Z.pos (digits2_pos m) = 53 /\ -52 <= e <= 1 /\
              Z.pos m * 2 ^ (e + 52) = Z.of_N a * 2 ^ 52.
Proof.
  intros [Hpos Hle]. destruct a as [|p]; [lia|].
  assert (Hp : Z.pos p <= 2 ^ 53).
  { apply N2Z.inj_le in Hle. rewrite exact_limit_Z in Hle. exact Hle. }
  destruct (of_Z_exact p Hp) as (M & HM & Hof). cbv zeta in HM.
  destruct (digits2_pos_bounds p) as [Hlo Hhi].
  set (d := Z.pos (digits2_pos p)) in *.
  assert (Hd : 0 < d <= 54).
  { split; [unfold d; lia|].
    destruct (Z_le_gt_dec d 54) as [|Hgt]; [assumption|exfalso].
    assert (2 ^ 54 <= 2 ^ (d - 1)) by (apply Z.pow_le_mono_r; lia).
    assert (2 ^ 53 < 2 ^ 54) by (apply Z.pow_lt_mono_r; lia). lia. }
  exists M, (d - 53). split; [exact Hof|].
  change (Z.pos (digits2_pos M)) with (Zdigits2 (Z.pos M)). cbn [Z.of_N].
  destruct (Z.leb_spec (d - 53) 0) as [HE|HE].
  - split; [|split; [lia|]].
    + rewrite HM, Zdigits2_mul_pow2 by lia. change (Zdigits2 (Z.pos p)) with d. lia.
    + rewrite HM. rewrite <- Z.mul_assoc, <- pow2_split by lia.
      f_equal. f_equal. lia.
  - assert (d = 54) by lia.
    assert (Hp53 : Z.pos p = 2 ^ 53).
    { replace (d - 1) with 53 in Hlo by lia. lia. }
    replace (d - 53) with 1 in * by lia. rewrite Z.pow_1_r in HM.
    split; [|split; [lia|]].
    + apply Zdigits2_eq; [lia|]. change (2 ^ (53 - 1)) with 4503599627370496.
      change (2 ^ 53) with 9007199254740992 in *. lia.
    + change (2 ^ (1 + 52)) with (2 * 2 ^ 52). lia.
Qed.

(** Cancelling a positive factor on both sides of a chain. *)
Lemma chain_cancel (c x y z : Z) :
  0 < c -> c * x <= c * y <= c * z -> x <= y <= z.
Proof. intros Hc [H1 H2]. split; nia. Qed.

(** The quotient of two counts up to 2^53, the divisor not 0, as a
    Number: the quotient of the counts is at most half a unit of its last
    place away from it. *)
Lemma div_of_N_nearest (a b : N) :
  (0 < a <= exact_limit)%N -> (0 < b <= exact_limit)%N ->
  exists (M : positive) (E : Z),
    Number.div (Number.of_N a) (Number.of_N b) = S754_finite false M E /\
    2 ^ 52 <= Z.pos M < 2 ^ 53 /\ -108 <= E <= 2 /\
    - (Z.of_N b * 2 ^ Z.max 0 E) <=
      2 * (Z.pos M * 2 ^ Z.max 0 E * Z.of_N b - Z.of_N a * 2 ^ Z.max 0 (- E)) <=
      Z.of_N b * 2 ^ Z.max 0 E.
Proof.
  intros Ha Hb.
  destruct (of_N_value a Ha) as (mx & ex & -> & Hdx & Hex & Hvx).
  destruct (of_N_value b Hb) as (my & ey & -> & Hdy & Hey & Hvy).
  unfold Number.div.
  destruct (SFdiv_count mx my ex ey Hdx Hdy ltac:(lia))
    as (M & k & j & Hk & Hj & HM & Hnear & ->).
  set (E := ex - ey - 53 + k + j) in *.
  destruct (Z.leb_spec E 971) as [_|Hbad]; [|unfold E in Hbad; lia].
  exists M, E. split; [reflexivity|]. split; [exact HM|]. split; [unfold E; lia|].
  set (A := Z.of_N a) in *. set (B := Z.of_N b) in *.
  set (t := k + j).
  assert (Ht : 0 <= t <= 2) by (unfold t; lia).
  assert (Hg : 0 <= t - E) by (unfold t, E; lia).
  assert (Hkt : 2 ^ k <= 2 ^ t) by (apply Z.pow_le_mono_r; unfold t; lia).
  assert (Hjk : 2 ^ j * 2 ^ k = 2 ^ t) by (unfold t; rewrite pow2_split by lia; ring).
  (* the chain, multiplied by 2^(ey + 52) and divided by 2^52 *)
  assert (Hy0 : 0 < 2 ^ (ey + 52)) by (apply Z.pow_pos_nonneg; lia).
  assert (H52 : 0 < 2 ^ 52) by (apply Z.pow_pos_nonneg; lia).
  assert (HB : 0 < B) by (unfold B; lia).
  assert (Hx : Z.pos mx * 2 ^ 53 * 2 ^ (ey + 52) = 2 ^ 52 * (A * 2 ^ (t - E))).
  { replace (53 + (ey + 52)) with (ex + 52 + (t - E)) by (unfold t, E; lia).
    replace (Z.pos mx * 2 ^ 53 * 2 ^ (ey + 52)) with (Z.pos mx * 2 ^ (53 + (ey + 52)))
      by (rewrite (pow2_split 53 (ey + 52)) by lia; ring).
    replace (53 + (ey + 52)) with (ex + 52 + (t - E)) by (unfold t, E; lia).
    rewrite (pow2_split (ex + 52) (t - E)) by lia.
    rewrite Z.mul_assoc, Hvx. ring. }
  assert (Hchain : - (B * 2 ^ k) <= 2 * (Z.pos M * 2 ^ t * B - A * 2 ^ (t - E)) <= B * 2 ^ k).
  { apply (chain_cancel (2 ^ 52)); [assumption|].
    assert (E1 : 2 ^ 52 * - (B * 2 ^ k) = - (Z.pos my * 2 ^ k) * 2 ^ (ey + 52)).
    { replace (- (Z.pos my * 2 ^ k) * 2 ^ (ey + 52))
        with (- (Z.pos my * 2 ^ (ey + 52) * 2 ^ k)) by ring.
      rewrite Hvy. ring. }
    assert (E2 : 2 ^ 52 * (B * 2 ^ k) = Z.pos my * 2 ^ k * 2 ^ (ey + 52)).
    { replace (Z.pos my * 2 ^ k * 2 ^ (ey + 52))
        with (Z.pos my * 2 ^ (ey + 52) * 2 ^ k) by ring.
      rewrite Hvy. ring. }
    assert (E3 : 2 ^ 52 * (2 * (Z.pos M * 2 ^ t * B - A * 2 ^ (t - E))) =
                 2 * (Z.pos M * 2 ^ j * (Z.pos my * 2 ^ k) - Z.pos mx * 2 ^ 53) * 2 ^ (ey + 52)).
    { replace (2 * (Z.pos M * 2 ^ j * (Z.pos my * 2 ^ k) - Z.pos mx * 2 ^ 53) * 2 ^ (ey + 52))
        with (2 * (Z.pos M * (2 ^ j * 2 ^ k) * (Z.pos my * 2 ^ (ey + 52))
                   - Z.pos mx * 2 ^ 53 * 2 ^ (ey + 52))) by ring.
      rewrite Hvy, Hx, Hjk. ring. }
    rewrite E1, E2, E3.
    destruct Hnear as [H1 H2]. split; apply Z.mul_le_mono_nonneg_r; lia. }
  assert (Hchain' : - (B * 2 ^ t) <= 2 * (Z.pos M * 2 ^ t * B - A * 2 ^ (t - E)) <= B * 2 ^ t).
  { assert (B * 2 ^ k <= B * 2 ^ t) by (apply Z.mul_le_mono_nonneg_l; lia). lia. }
  destruct (Z.le_gt_cases E 0) as [HE|HE].
  - replace (Z.max 0 E) with 0 by lia. replace (Z.max 0 (- E)) with (- E) by lia.
    rewrite Z.pow_0_r, !Z.mul_1_r.
    apply (chain_cancel (2 ^ t)); [apply Z.pow_pos_nonneg; lia|].
    replace (t - E) with (t + - E) in Hchain' by ring.
    rewrite (pow2_split t (- E)) in Hchain' by lia.
    replace (2 ^ t * - B) with (- (B * 2 ^ t)) by ring.
    replace (2 ^ t * B) with (B * 2 ^ t) by ring.
    replace (2 ^ t * (2 * (Z.pos M * B - A * 2 ^ (- E))))
      with (2 * (Z.pos M * 2 ^ t * B - A * (2 ^ t * 2 ^ (- E)))) by ring.
    exact Hchain'.
  - replace (Z.max 0 E) with E by lia. replace (Z.max 0 (- E)) with 0 by lia.
    rewrite Z.pow_0_r, !Z.mul_1_r.
    apply (chain_cancel (2 ^ (t - E))); [apply Z.pow_pos_nonneg; lia|].
    assert (Hsplit : 2 ^ t = 2 ^ (t - E) * 2 ^ E).
    { rewrite <- pow2_split by lia. f_equal. lia. }
    rewrite Hsplit in Hchain'.
    replace (2 ^ (t - E) * - (B * 2 ^ E)) with (- (B * (2 ^ (t - E) * 2 ^ E))) by ring.
    replace (2 ^ (t - E) * (B * 2 ^ E)) with (B * (2 ^ (t - E) * 2 ^ E)) by ring.
    replace (2 ^ (t - E) * (2 * (Z.pos M * 2 ^ E * B - A)))
      with (2 * (Z.pos M * (2 ^ (t - E) * 2 ^ E) * B - A * 2 ^ (t - E))) by ring.
    exact Hchain'.
Qed.

(** The quotient of two counts up to 2^53, rounded by [toFixed] and read
    back, is the quotient rounded to that many decimal places. *)
Lemma round_to_quotient (f a b : N) :
  (f <= 2)%N -> (a <= exact_limit)%N -> (0 < b <= exact_limit)%N ->
  rounded_quotient f a b
    (Number.round_to f (Number.div (Number.of_N a) (Number.of_N b))).
Proof.
  intros Hf Ha Hb. unfold rounded_quotient.
  assert (HP : 1 <= 10 ^ Z.of_N f <= 100).
  { split.
    - assert (0 < 10 ^ Z.of_N f) by (apply Z.pow_pos_nonneg; lia). lia.
    - change 100 with (10 ^ 2). apply Z.pow_le_mono_r; lia. }
  set (P := 10 ^ Z.of_N f) in *.
  destruct (N.eq_dec a 0%N) as [->|Ha0].
  { exists 0. split; [lia|]. split.
    - destruct (of_N_value b Hb) as (my & ey & -> & _). reflexivity.
    - cbn [Z.of_N]. replace (0 * Z.of_N b - P * 0) with 0 by ring.
      replace (2 * P * 0) with 0 by ring. cbn [Z.abs]. rewrite Z.mul_0_r.
      assert (0 <= 2 ^ 52 * Z.of_N b) by (apply Z.mul_nonneg_nonneg; [apply Z.pow_nonneg|]; lia).
      lia. }
  destruct (div_of_N_nearest a b ltac:(lia) Hb) as (M & E & -> & HM & HE & Hnear).
  set (A := Z.of_N a) in *. set (B := Z.of_N b) in *.
  assert (HA : 0 < A) by (unfold A; lia).
  assert (HB : 0 < B) by (unfold B; lia).
  assert (HdM : Z.pos (digits2_pos M) = 53).
  { change (Z.pos (digits2_pos M)) with (Zdigits2 (Z.pos M)).
    apply Zdigits2_eq; [lia|]. exact HM. }
  unfold Number.round_to, Number.toFixed.
  rewrite bounded_by_below_1e21 by lia.
  pose proof (scaled_digits_nonneg M E f) as Hn0.
  exists (Number.scaled_digits M E f). split; [exact Hn0|]. split; [reflexivity|].
  unfold Number.scaled_digits in *. fold P in Hn0 |- *.
  change (2 ^ 52) with 4503599627370496 in *.
  change (2 ^ 53) with 9007199254740992 in *.
  destruct (Z.leb_spec 0 E) as [HE0|HE0].
  - replace (Z.max 0 E) with E in Hnear by lia.
    replace (Z.max 0 (- E)) with 0 in Hnear by lia.
    rewrite Z.pow_0_r, Z.mul_1_r in Hnear.
    assert (HW : 1 <= 2 ^ E) by (assert (0 < 2 ^ E) by (apply Z.pow_pos_nonneg; lia); lia).
    set (W := 2 ^ E) in *. set (X := Z.pos M * W * B - A) in *.
    replace (Z.pos M * W * P * B - P * A) with (P * X) by (unfold X; ring).
    rewrite Z.abs_mul, (Z.abs_eq P) by lia.
    assert (HX : 2 * Z.abs X <= B * W) by lia.
    assert (HAlow : 4503599627370496 * (B * W) <= 2 * A + B * W).
    { assert (4503599627370496 * (B * W) <= Z.pos M * W * B) by nia. lia. }
    assert (H1 : 9007199254740992 * (P * Z.abs X) <= P * (4503599627370496 * (B * W))) by nia.
    assert (H2 : P * (4503599627370496 * (B * W)) <= P * (2 * A + B * W)) by nia.
    assert (H3 : P * (B * W) <= 4503599627370496 * B + P * A).
    { assert (B * W <= 4 * A).
      { assert (2 * (B * W) <= 4503599627370496 * (B * W)) by nia. lia. }
      nia. }
    nia.
  - replace (Z.max 0 E) with 0 in Hnear by lia.
    replace (Z.max 0 (- E)) with (- E) in Hnear by lia.
    rewrite Z.pow_0_r, !Z.mul_1_r in Hnear.
    assert (HW : 2 <= 2 ^ (- E)).
    { change 2 with (2 ^ 1) at 1. apply Z.pow_le_mono_r; lia. }
    set (W := 2 ^ (- E)) in *.
    set (n := (2 * (Z.pos M * P) + W) / (2 * W)) in *.
    pose proof (Z.div_mod (2 * (Z.pos M * P) + W) (2 * W) ltac:(lia)) as Hdiv.
    pose proof (Z.mod_pos_bound (2 * (Z.pos M * P) + W) (2 * W) ltac:(lia)) as Hmod.
    fold n in Hdiv.
    set (r := (2 * (Z.pos M * P) + W) mod (2 * W)) in *.
    (* |n W - M P| <= W / 2 and |M B - A W| <= B / 2 *)
    assert (Hn : - W <= 2 * (n * W - Z.pos M * P) <= W) by lia.
    assert (Hq : - B <= 2 * (Z.pos M * B - A * W) <= B) by lia.
    assert (Hkey : W * (n * B - P * A) = B * (n * W - Z.pos M * P) + P * (Z.pos M * B - A * W))
      by ring.
    assert (HAlow : 4503599627370496 * B <= 2 * (A * W) + B) by nia.
    assert (Habs : 2 * (W * Z.abs (n * B - P * A)) <= B * W + P * B).
    { rewrite <- (Z.abs_eq W) at 1 by lia. rewrite <- Z.abs_mul, Hkey.
      assert (Hb1 : 2 * Z.abs (B * (n * W - Z.pos M * P)) <= B * W).
      { rewrite Z.abs_mul, (Z.abs_eq B) by lia.
        assert (2 * Z.abs (n * W - Z.pos M * P) <= W) by lia. nia. }
      assert (Hb2 : 2 * Z.abs (P * (Z.pos M * B - A * W)) <= P * B).
      { rewrite Z.abs_mul, (Z.abs_eq P) by lia.
        assert (2 * Z.abs (Z.pos M * B - A * W) <= B) by lia. nia. }
      pose proof (Z.abs_triangle (B * (n * W - Z.pos M * P)) (P * (Z.pos M * B - A * W))).
      lia. }
    (* P B 2^52 <= 2 P A W + P B: divide the goal, times W, by W *)
    assert (Hgoal : W * (9007199254740992 * Z.abs (n * B - P * A)) <=
                    W * (4503599627370496 * B + 2 * P * A)).
    { assert (H1 : 9007199254740992 * (W * Z.abs (n * B - P * A)) <=
                   4503599627370496 * (B * W + P * B)) by lia.
      assert (H2 : 4503599627370496 * (P * B) <= P * (2 * (A * W) + B)) by nia.
      assert (H3 : P * B <= 2 * P * A * W).
      { assert (B <= 2 * A * W) by nia. nia. }
      nia. }
    apply Z.mul_le_mono_pos_l with (p := W); [lia|exact Hgoal].
Qed.

(** The relation leaves one Number where the quotient is not half-way
    between two decimals: 3200 / 13 rounded to an integer is 246, and
    15 / 13 rounded to two decimal places is 1.15. *)
Example rounded_quotient_samples (x y : Number.t) :
  rounded_quotient 0 3200 13 x ->
  rounded_quotient 2 15 13 y ->
  x = Number.of_N 246 /\ y = Number.parseFloat (Number.Decimal false 115 2).
Proof.
  intros (n & Hn & -> & Hx) (k & Hk & -> & Hy).
  change (Z.of_N 13) with 13 in *. change (Z.of_N 3200) with 3200 in *.
  change (Z.of_N 15) with 15 in *.
  change (10 ^ Z.of_N 0) with 1 in Hx. change (10 ^ Z.of_N 2) with 100 in Hy.
  change (2 ^ 53) with 9007199254740992 in *.
  change (2 ^ 52) with 4503599627370496 in *.
  assert (n = 246) as -> by lia.
  assert (k = 115) as -> by lia.
  split; vm_compute; reflexivity.
Qed.

(** ** kdRatio *)

(** C2, as amended.  For every record set, kdRatio is
    parseFloat(toFixed(2)) of the kills by the deaths of the summary when
    the deaths are above 0 and the kills themselves, not rounded, when the
    deaths are 0; and it is a finite Number, neither Infinity nor NaN,
    when the kills of the summary are one and only then, that is unless
    the additions of the kills have overflowed.  For a record set whose
    kills and deaths each add up to at most 2^53, the kills and the deaths
    of the summary are these sums, and kdRatio is, with a death, the
    quotient of the sums rounded to two decimal places and, with no death
    and k kills in all, the integer k. *)
Theorem kdRatio_spec (ms : list Match.t) :
  let s := aggregate ms in
  let kills := sum_over Match.kills ms in
  let deaths := sum_over Match.deaths ms in
  User.kdRatio s =
    (if Number.gt (User.deaths s) Number.zero
     then Number.round_to 2 (Number.div (User.kills s) (User.deaths s))
     else User.kills s) /\
  (Number.is_zero (User.deaths s) = true -> User.kdRatio s = User.kills s) /\
  Number.is_finite (User.kdRatio s) = Number.is_finite (User.kills s) /\
  ((kills <= 2 ^ 53)%N -> (deaths <= 2 ^ 53)%N ->
   User.kills s = Number.of_N kills /\
   User.deaths s = Number.of_N deaths /\
   User.kdRatio s =
     (if (0 <? deaths)%N
      then Number.round_to 2 (Number.div (Number.of_N kills) (Number.of_N deaths))
      else Number.of_N kills) /\
   ((0 < deaths)%N -> rounded_quotient 2 kills deaths (User.kdRatio s)) /\
   (deaths = 0%N -> Number.to_Z (User.kdRatio s) = Some (Z.of_N kills))).
Proof.
  cbv zeta. fold exact_limit.
  assert (H : User.kdRatio (aggregate ms) =
    if Number.gt (User.deaths (aggregate ms)) Number.zero
    then Number.round_to 2 (Number.div (User.kills (aggregate ms)) (User.deaths (aggregate ms)))
    else User.kills (aggregate ms)).
  { destruct ms as [|m ms]; reflexivity. }
  split; [exact H|]. split; [|split; [apply kdRatio_finite|]].
  - intros Hz. rewrite H. destruct (User.deaths (aggregate ms)); try discriminate. reflexivity.
  - intros Hk Hd.
    assert (Hkills : User.kills (aggregate ms) = Number.of_N (sum_over Match.kills ms)).
    { destruct ms as [|m ms]; [reflexivity|].
      cbn [aggregate derive User.kills]. apply totalKills_exact. assumption. }
    assert (Hdeaths : User.deaths (aggregate ms) = Number.of_N (sum_over Match.deaths ms)).
    { destruct ms as [|m ms]; [reflexivity|].
      cbn [aggregate derive User.deaths]. apply totalDeaths_exact. assumption. }
    assert (Hkd : User.kdRatio (aggregate ms) =
                  if (0 <? sum_over Match.deaths ms)%N
                  then Number.round_to 2
                         (Number.div (Number.of_N (sum_over Match.kills ms))
                                     (Number.of_N (sum_over Match.deaths ms)))
                  else Number.of_N (sum_over Match.kills ms)).
    { rewrite H, Hkills, Hdeaths, gt_of_N. reflexivity. }
    split; [exact Hkills|]. split; [exact Hdeaths|]. split; [exact Hkd|]. split.
    + intros Hpos. rewrite Hkd.
      assert (Hlt : (0 <? sum_over Match.deaths ms)%N = true) by (apply N.ltb_lt; assumption).
      rewrite Hlt. apply round_to_quotient; [lia|assumption|split; assumption].
    + intros Hz. rewrite Hkd, Hz. cbn [N.ltb N.compare]. apply to_Z_of_N. assumption.
Qed.

Lemma kdRatio_spec_witness :
  rounded_quotient 2 23 22 (User.kdRatio (aggregate [match_a; match_b])).
Proof.
  refine (proj1 (proj2 (proj2 (proj2
            (proj2 (proj2 (proj2 (kdRatio_spec [match_a; match_b]))) _ _)))) _).
  - vm_compute. discriminate.
  - vm_compute. discriminate.
  - reflexivity.
Defined.

(** C2 as stated fails.  Two records with 2^1023 kills each and no death
    have the kill total Infinity, and so the kdRatio Infinity.  And with
    no death and 2^53 + 2 kills in all, in records of 2^53, 1 and 1 kills,
    the kdRatio is 2^53. *)
Lemma kdRatio_infinite :
  (Number.is_finite (Number.of_N (Match.kills match_huge)) = true /\
   sum_over Match.deaths [match_huge; match_vast] = 0%N /\
   User.kdRatio (aggregate [match_huge; match_vast]) = S754_infinity false /\
   Number.is_finite (User.kdRatio (aggregate [match_huge; match_vast])) = false) /\
  (sum_over Match.deaths [match_top; match_tip; match_tap] = 0%N /\
   sum_over Match.kills [match_top; match_tip; match_tap] = (2 ^ 53 + 2)%N /\
   Number.to_Z (User.kdRatio (aggregate [match_top; match_tip; match_tap])) = Some (2 ^ 53) /\
   Number.to_Z (Number.of_N (2 ^ 53 + 2)) = Some (2 ^ 53 + 2)).
Proof. vm_compute. repeat split. Qed.

(** Records of 2^1000 kills add up to a finite total, and the kdRatio is
    finite. *)
Example kdRatio_large :
  Number.is_finite
    (User.kdRatio (aggregate [sample 1 Win (2 ^ 1000) 1 0 0 1 0;
                              sample 2 Win (2 ^ 1000) 0 0 0 1 0])) = true.
Proof. vm_compute. reflexivity. Qed.

(** ** damagePerRound and killsPerRound *)



